(** * Instaclaw: the content and social-graph store (db.ts)

    A shallow embedding of the data-access module of the Instaclaw backend.
    The module talks to an embedded SQLite database through better-sqlite3;
    every exported function runs one or two prepared statements.  Tables are
    modelled as lists of rows in insertion (rowid) order, SQL statements as
    list operations that check the constraints the schema of [getDb]
    declares, and the JavaScript functions as computations in a small
    state-and-exception monad over the database. *)

From Stdlib Require Import String Ascii List ZArith Bool Lia.
From Stdlib Require Import Sorted Permutation OrderedTypeEx.
Import ListNotations.

Local Open Scope string_scope.
Local Open Scope list_scope.

Set Implicit Arguments.

(** ** Rows

    One record per table of the schema created by [getDb].  All columns are
    TEXT; [avatar_url] is the only one that the code ever leaves NULL. *)

Module AuthCookie.
Record t := mk
  { cookie_value : string;
    atxp_account : string;
    created_at : string }.
End AuthCookie.

Module Profile.
Record t := mk
  { id : string;
    atxp_account : string;
    username : string;
    display_name : string;
    bio : string;
    avatar_url : option string;
    created_at : string }.
End Profile.

Module Post.
Record t := mk
  { id : string;
    author_id : string;
    image_url : string;
    caption : string;
    created_at : string }.
End Post.

Module Like.
Record t := mk
  { id : string;
    post_id : string;
    user_id : string;
    created_at : string }.
End Like.

Module Comment.
Record t := mk
  { id : string;
    post_id : string;
    author_id : string;
    content : string;
    created_at : string }.
End Comment.

Module Follow.
Record t := mk
  { id : string;
    follower_id : string;
    following_id : string;
    created_at : string }.
End Follow.

(** ** The database

    [foreign_keys] is the connection's foreign-key pragma.  The tables keep
    their rows in insertion order. *)

Record Db := mkDb
  { foreign_keys : bool;
    auth_cookies : list AuthCookie.t;
    profiles : list Profile.t;
    posts : list Post.t;
    likes : list Like.t;
    comments : list Comment.t;
    follows : list Follow.t }.

Definition set_auth_cookies (db : Db) (t : list AuthCookie.t) : Db :=
  mkDb (foreign_keys db) t (profiles db) (posts db) (likes db)
       (comments db) (follows db).
Definition set_profiles (db : Db) (t : list Profile.t) : Db :=
  mkDb (foreign_keys db) (auth_cookies db) t (posts db) (likes db)
       (comments db) (follows db).
Definition set_posts (db : Db) (t : list Post.t) : Db :=
  mkDb (foreign_keys db) (auth_cookies db) (profiles db) t (likes db)
       (comments db) (follows db).
Definition set_likes (db : Db) (t : list Like.t) : Db :=
  mkDb (foreign_keys db) (auth_cookies db) (profiles db) (posts db) t
       (comments db) (follows db).
Definition set_comments (db : Db) (t : list Comment.t) : Db :=
  mkDb (foreign_keys db) (auth_cookies db) (profiles db) (posts db)
       (likes db) t (follows db).
Definition set_follows (db : Db) (t : list Follow.t) : Db :=
  mkDb (foreign_keys db) (auth_cookies db) (profiles db) (posts db)
       (likes db) (comments db) t.

(** [getDb] opens the database and creates the six tables when they are
    missing: a fresh store has them all empty.  better-sqlite3 builds its
    SQLite with SQLITE_DEFAULT_FOREIGN_KEYS=1 and [getDb] issues no pragma
    that changes it (only [journal_mode]), so the FOREIGN KEY clauses of the
    schema are enforced on the connection. *)
Definition getDb : Db := mkDb true [] [] [] [] [] [].

(** ** Exceptions and the monad of the data-access functions

    A statement that violates a constraint throws a [SqliteError] and
    changes nothing; statements that ran before it in the same function
    stay committed (there is no explicit transaction anywhere).  A SELECT
    whose LIMIT or OFFSET parameter is not an integer throws
    SQLITE_MISMATCH. *)

Inductive SqliteError :=
| SQLITE_CONSTRAINT_PRIMARYKEY
| SQLITE_CONSTRAINT_UNIQUE
| SQLITE_CONSTRAINT_FOREIGNKEY
| SQLITE_MISMATCH.

Inductive outcome (A : Type) :=
| Return (a : A)
| Throw (e : SqliteError).
Arguments Throw {A} e.

Definition M (A : Type) : Type := Db -> outcome A * Db.

Definition ret {A} (a : A) : M A := fun db => (Return a, db).
Definition bind {A B} (m : M A) (k : A -> M B) : M B :=
  fun db =>
    match m db with
    | (Return a, db') => k a db'
    | (Throw e, db') => (Throw e, db')
    end.
(** [try { m } catch { h }] *)
Definition try_catch {A} (m : M A) (h : M A) : M A :=
  fun db =>
    match m db with
    | (Return a, db') => (Return a, db')
    | (Throw _, db') => h db'
    end.
(** a SELECT: reads the database, never throws *)
Definition query {A} (q : Db -> A) : M A := fun db => (Return (q db), db).

Notation "x <- m ;; k" := (bind m (fun x => k))
  (at level 61, m at next level, right associativity).
Notation "m ;;; k" := (bind m (fun _ => k))
  (at level 61, right associativity).

(** ** Statements

    [has f t] is the index probe that decides a PRIMARY KEY, UNIQUE or
    FOREIGN KEY check.  An INSERT probes the unique indexes of its table
    from the one declared last to the one declared first, so a UNIQUE
    column or table constraint is reported before the TEXT primary key
    declared ahead of it; the foreign keys are counted after the row
    passed these checks. *)

Definition has {A} (f : A -> bool) (t : list A) : bool := existsb f t.

(** INSERT INTO auth_cookies (cookie_value, atxp_account) VALUES (?, ?) *)
Definition insert_auth_cookie (r : AuthCookie.t) : M unit := fun db =>
  if has (fun c => AuthCookie.cookie_value c =? AuthCookie.cookie_value r)
         (auth_cookies db)
  then (Throw SQLITE_CONSTRAINT_PRIMARYKEY, db)
  else (Return tt, set_auth_cookies db (auth_cookies db ++ [r])).

(** INSERT INTO profiles ...: id is the primary key, atxp_account and
    username are UNIQUE. *)
Definition insert_profile (r : Profile.t) : M unit := fun db =>
  if has (fun p => Profile.username p =? Profile.username r) (profiles db)
  then (Throw SQLITE_CONSTRAINT_UNIQUE, db)
  else if has (fun p => Profile.atxp_account p =? Profile.atxp_account r)
              (profiles db)
  then (Throw SQLITE_CONSTRAINT_UNIQUE, db)
  else if has (fun p => Profile.id p =? Profile.id r) (profiles db)
  then (Throw SQLITE_CONSTRAINT_PRIMARYKEY, db)
  else (Return tt, set_profiles db (profiles db ++ [r])).

Definition profile_exists (db : Db) (id : string) : bool :=
  has (fun p => Profile.id p =? id) (profiles db).
Definition post_exists (db : Db) (id : string) : bool :=
  has (fun p => Post.id p =? id) (posts db).

(** INSERT INTO posts ...: FOREIGN KEY (author_id) REFERENCES profiles(id) *)
Definition insert_post (r : Post.t) : M unit := fun db =>
  if has (fun p => Post.id p =? Post.id r) (posts db)
  then (Throw SQLITE_CONSTRAINT_PRIMARYKEY, db)
  else if foreign_keys db && negb (profile_exists db (Post.author_id r))
  then (Throw SQLITE_CONSTRAINT_FOREIGNKEY, db)
  else (Return tt, set_posts db (posts db ++ [r])).

(** INSERT INTO likes ...: UNIQUE(post_id, user_id), two foreign keys *)
Definition insert_like (r : Like.t) : M unit := fun db =>
  if has (fun l => (Like.post_id l =? Like.post_id r)
                   && (Like.user_id l =? Like.user_id r)) (likes db)
  then (Throw SQLITE_CONSTRAINT_UNIQUE, db)
  else if has (fun l => Like.id l =? Like.id r) (likes db)
  then (Throw SQLITE_CONSTRAINT_PRIMARYKEY, db)
  else if foreign_keys db
          && negb (post_exists db (Like.post_id r)
                   && profile_exists db (Like.user_id r))
  then (Throw SQLITE_CONSTRAINT_FOREIGNKEY, db)
  else (Return tt, set_likes db (likes db ++ [r])).

(** INSERT INTO comments ...: two foreign keys *)
Definition insert_comment (r : Comment.t) : M unit := fun db =>
  if has (fun c => Comment.id c =? Comment.id r) (comments db)
  then (Throw SQLITE_CONSTRAINT_PRIMARYKEY, db)
  else if foreign_keys db
          && negb (post_exists db (Comment.post_id r)
                   && profile_exists db (Comment.author_id r))
  then (Throw SQLITE_CONSTRAINT_FOREIGNKEY, db)
  else (Return tt, set_comments db (comments db ++ [r])).

(** INSERT INTO follows ...: UNIQUE(follower_id, following_id), two
    foreign keys *)
Definition insert_follow (r : Follow.t) : M unit := fun db =>
  if has (fun f => (Follow.follower_id f =? Follow.follower_id r)
                   && (Follow.following_id f =? Follow.following_id r))
         (follows db)
  then (Throw SQLITE_CONSTRAINT_UNIQUE, db)
  else if has (fun f => Follow.id f =? Follow.id r) (follows db)
  then (Throw SQLITE_CONSTRAINT_PRIMARYKEY, db)
  else if foreign_keys db
          && negb (profile_exists db (Follow.follower_id r)
                   && profile_exists db (Follow.following_id r))
  then (Throw SQLITE_CONSTRAINT_FOREIGNKEY, db)
  else (Return tt, set_follows db (follows db ++ [r])).

(** [run] result of a DELETE: the number of rows removed. *)
Definition changes {A} (before after : list A) : nat :=
  length before - length after.

(** DELETE FROM posts WHERE id = ? AND author_id = ?.  The posts table is
    the parent of likes.post_id and comments.post_id, declared without an
    ON DELETE action: with foreign keys enforced the statement fails when a
    row it removes is still referenced. *)
Definition delete_post_where (id authorId : string) (p : Post.t) : bool :=
  (Post.id p =? id) && (Post.author_id p =? authorId).

Definition post_referenced (db : Db) (p : Post.t) : bool :=
  has (fun l => Like.post_id l =? Post.id p) (likes db)
  || has (fun c => Comment.post_id c =? Post.id p) (comments db).

Definition delete_post (id authorId : string) : M nat := fun db =>
  let doomed := filter (delete_post_where id authorId) (posts db) in
  let kept := filter (fun p => negb (delete_post_where id authorId p))
                     (posts db) in
  if foreign_keys db && has (post_referenced db) doomed
  then (Throw SQLITE_CONSTRAINT_FOREIGNKEY, db)
  else (Return (changes (posts db) kept), set_posts db kept).

(** DELETE FROM likes WHERE post_id = ? AND user_id = ? *)
Definition delete_like (postId userId : string) : M nat := fun db =>
  let kept := filter (fun l => negb ((Like.post_id l =? postId)
                                     && (Like.user_id l =? userId)))
                     (likes db) in
  (Return (changes (likes db) kept), set_likes db kept).

(** DELETE FROM comments WHERE id = ? AND author_id = ? *)
Definition delete_comment (id authorId : string) : M nat := fun db =>
  let kept := filter (fun c => negb ((Comment.id c =? id)
                                     && (Comment.author_id c =? authorId)))
                     (comments db) in
  (Return (changes (comments db) kept), set_comments db kept).

(** DELETE FROM follows WHERE follower_id = ? AND following_id = ? *)
Definition delete_follow (followerId followingId : string) : M nat :=
  fun db =>
  let kept := filter (fun f => negb ((Follow.follower_id f =? followerId)
                                     && (Follow.following_id f =? followingId)))
                     (follows db) in
  (Return (changes (follows db) kept), set_follows db kept).

(** ** Values supplied by the runtime

    [crypto.randomUUID()], [crypto.randomBytes] and the CURRENT_TIMESTAMP
    column default are inputs of the model: every function that draws one
    takes it as an argument of the same name. *)

(** JavaScript truthiness of a [string | undefined]: [undefined] and the
    empty string are falsy. *)
Definition truthy (v : option string) : bool :=
  match v with
  | Some s => negb (s =? "")
  | None => false
  end.

(** [a || b] on strings that may be undefined *)
Definition js_or (a : option string) (b : string) : string :=
  match a with
  | Some s => if s =? "" then b else s
  | None => b
  end.

(** ** Auth cookie functions *)

Definition createAuthCookie (randomBytes CURRENT_TIMESTAMP : string)
           (atxpAccount : string) : M string :=
  let cookieValue := randomBytes in
  insert_auth_cookie (AuthCookie.mk cookieValue atxpAccount CURRENT_TIMESTAMP) ;;;
  ret cookieValue.

Definition getAtxpAccountFromCookie (db : Db) (cookieValue : string)
  : option string :=
  match find (fun c => AuthCookie.cookie_value c =? cookieValue)
             (auth_cookies db) with
  | Some c => if AuthCookie.atxp_account c =? "" then None
              else Some (AuthCookie.atxp_account c)
  | None => None
  end.

(** ** Profile functions *)

Definition getProfileByAtxp (db : Db) (atxpAccount : string)
  : option Profile.t :=
  find (fun p => Profile.atxp_account p =? atxpAccount) (profiles db).

Definition getProfileById (db : Db) (id : string) : option Profile.t :=
  find (fun p => Profile.id p =? id) (profiles db).

Definition getProfileByUsername (db : Db) (username : string)
  : option Profile.t :=
  find (fun p => Profile.username p =? username) (profiles db).

(** The INSERT names four columns; bio, avatar_url and created_at take the
    column defaults [''], NULL and CURRENT_TIMESTAMP.  The function returns
    [getProfileById(id)!]: the non-null assertion is erased at run time, so
    the value is whatever the lookup yields. *)
Definition createProfile (randomUUID CURRENT_TIMESTAMP : string)
           (atxpAccount username displayName : string)
  : M (option Profile.t) :=
  let id := randomUUID in
  insert_profile
    (Profile.mk id atxpAccount username displayName "" None
                CURRENT_TIMESTAMP) ;;;
  query (fun db => getProfileById db id).

(** The patch object of [updateProfile]: each field is a string or
    undefined. *)
Record ProfileUpdates := mkUpdates
  { upd_display_name : option string;
    upd_bio : option string;
    upd_avatar_url : option string }.

(** One assignment of the SET list per field that is not undefined. *)
Definition apply_updates (updates : ProfileUpdates) (p : Profile.t)
  : Profile.t :=
  Profile.mk
    (Profile.id p) (Profile.atxp_account p) (Profile.username p)
    (match upd_display_name updates with
     | Some v => v
     | None => Profile.display_name p
     end)
    (match upd_bio updates with
     | Some v => v
     | None => Profile.bio p
     end)
    (match upd_avatar_url updates with
     | Some v => Some v
     | None => Profile.avatar_url p
     end)
    (Profile.created_at p).

(** how many assignments the function collected in [sets] *)
Definition sets_length (updates : ProfileUpdates) : nat :=
  let pushed (field : option string) : nat :=
    match field with
    | Some _ => 1
    | None => 0
    end in
  pushed (upd_display_name updates) + pushed (upd_bio updates)
  + pushed (upd_avatar_url updates).

(** UPDATE profiles SET ... WHERE id = ? *)
Definition update_profile (id : string) (updates : ProfileUpdates)
  : M unit := fun db =>
  (Return tt,
   set_profiles db
     (map (fun p => if Profile.id p =? id then apply_updates updates p
                    else p)
          (profiles db))).

Definition updateProfile (id : string) (updates : ProfileUpdates) : M unit :=
  if (0 <? sets_length updates)%nat then update_profile id updates
  else ret tt.

(** ** Post functions *)

Record PostWithDetails := mkDetails
  { post : Post.t;
    author_username : string;
    author_display_name : string;
    author_avatar_url : option string;
    like_count : nat;
    comment_count : nat;
    is_liked : option bool }.

Definition createPost (randomUUID CURRENT_TIMESTAMP : string)
           (authorId imageUrl caption : string) : M (option Post.t) :=
  let id := randomUUID in
  insert_post (Post.mk id authorId imageUrl caption CURRENT_TIMESTAMP) ;;;
  query (fun db => find (fun p => Post.id p =? id) (posts db)).

(** SELECT COUNT( * ) FROM t WHERE f *)
Definition count {A} (f : A -> bool) (t : list A) : nat :=
  length (filter f t).

(** FROM posts p JOIN profiles pr ON p.author_id = pr.id *)
Definition posts_join_profiles (db : Db) : list (Post.t * Profile.t) :=
  flat_map
    (fun p => map (pair p)
                  (filter (fun pr => Post.author_id p =? Profile.id pr)
                          (profiles db)))
    (posts db).

(** The select list shared by [getPostById], [getFeed] and
    [getPostsByUser].  The is_liked column is part of the query only when
    [viewerId] is truthy; SQLite yields the comparison [COUNT( * ) > 0] as
    1 or 0, which is the boolean of the declared interface. *)
Definition select_details (db : Db) (viewerId : option string)
           (row : Post.t * Profile.t) : PostWithDetails :=
  let (p, pr) := row in
  mkDetails p
    (Profile.username pr) (Profile.display_name pr) (Profile.avatar_url pr)
    (count (fun l => Like.post_id l =? Post.id p) (likes db))
    (count (fun c => Comment.post_id c =? Post.id p) (comments db))
    (match viewerId with
     | Some v =>
         if truthy viewerId
         then Some (Nat.ltb 0 (count (fun l => (Like.post_id l =? Post.id p)
                                               && (Like.user_id l =? v))
                                     (likes db)))
         else None
     | None => None
     end).

(** [.get(...)]: the first row of the result, or undefined *)
Definition get {A} (rows : list A) : option A := hd_error rows.

Definition getPostById (db : Db) (id : string) (viewerId : option string)
  : option PostWithDetails :=
  get (map (select_details db viewerId)
           (filter (fun row => Post.id (fst row) =? id)
                   (posts_join_profiles db))).

(** ORDER BY on a TEXT column: the default BINARY collation compares the
    bytes, which is [String.compare].  Rows with equal keys keep the order
    in which the query walks them. *)
Fixpoint insert_by {A} (precedes : A -> A -> bool) (x : A) (l : list A)
  : list A :=
  match l with
  | [] => [x]
  | y :: l' => if precedes x y then x :: l else y :: insert_by precedes x l'
  end.

Definition order_by {A} (precedes : A -> A -> bool) (l : list A) : list A :=
  fold_right (insert_by precedes) [] l.

Definition desc {A} (key : A -> string) (x y : A) : bool :=
  String.leb (key y) (key x).
Definition asc {A} (key : A -> string) (x y : A) : bool :=
  String.leb (key x) (key y).

(** The rows that LIMIT [limit] OFFSET [offset] keeps: a negative limit
    means no limit, a negative offset counts as zero. *)
Definition page {A} (limit offset : Z) (rows : list A) : list A :=
  let rest := skipn (Z.to_nat offset) rows in
  if (limit <? 0)%Z then rest else firstn (Z.to_nat limit) rest.

(** [limit] and [offset] are JavaScript numbers with an integer value.
    better-sqlite3 binds a number as a REAL; LIMIT and OFFSET take it
    only when SQLite can turn it into an integer, which it does for a
    value strictly between the smallest and the largest 64-bit integer.
    Otherwise the statement fails with SQLITE_MISMATCH (datatype
    mismatch) before it yields a row. *)
Definition binds_as_integer (n : Z) : bool :=
  (- 2 ^ 63 <? n)%Z && (n <? 2 ^ 63 - 1)%Z.

(** LIMIT ? OFFSET ? *)
Definition limit_offset {A} (limit offset : Z) (rows : list A)
  : outcome (list A) :=
  if binds_as_integer limit && binds_as_integer offset
  then Return (page limit offset rows)
  else Throw SQLITE_MISMATCH.

(** the select list over the rows that [.all(...)] returns *)
Definition select {A B} (f : A -> B) (rows : outcome (list A))
  : outcome (list B) :=
  match rows with
  | Return l => Return (map f l)
  | Throw e => Throw e
  end.

(** the ORDER BY key of the feed queries: p.created_at *)
Definition row_created_at (row : Post.t * Profile.t) : string :=
  Post.created_at (fst row).

Definition getFeed (db : Db) (viewerId : option string) (limit offset : Z)
  : outcome (list PostWithDetails) :=
  select (select_details db viewerId)
         (limit_offset limit offset
            (order_by (desc row_created_at) (posts_join_profiles db))).

Definition getPostsByUser (db : Db) (userId : string)
           (viewerId : option string) (limit offset : Z)
  : outcome (list PostWithDetails) :=
  select (select_details db viewerId)
         (limit_offset limit offset
            (order_by (desc row_created_at)
                      (filter (fun row => Post.author_id (fst row) =? userId)
                              (posts_join_profiles db)))).

Definition deletePost (id authorId : string) : M bool :=
  n <- delete_post id authorId ;;
  ret (0 <? n)%nat.

(** ** Like functions *)

Definition likePost (randomUUID CURRENT_TIMESTAMP : string)
           (postId userId : string) : M bool :=
  try_catch
    (let id := randomUUID in
     insert_like (Like.mk id postId userId CURRENT_TIMESTAMP) ;;;
     ret true)
    (ret false).

Definition unlikePost (postId userId : string) : M bool :=
  n <- delete_like postId userId ;;
  ret (0 <? n)%nat.

(** FROM profiles pr JOIN likes l ON pr.id = l.user_id WHERE l.post_id = ?:
    the query walks the likes of the post (idx_likes_post) and looks the
    profile of each one up by its key, so the rows come in the order of
    the likes table. *)
Definition profiles_join_likes (db : Db) : list (Profile.t * Like.t) :=
  flat_map
    (fun l => map (fun pr => (pr, l))
                  (filter (fun pr => Like.user_id l =? Profile.id pr)
                          (profiles db)))
    (likes db).

Definition getPostLikers (db : Db) (postId : string) (limit : Z)
  : outcome (list Profile.t) :=
  select fst
         (limit_offset limit 0
            (order_by (desc (fun row => Like.created_at (snd row)))
                      (filter (fun row => Like.post_id (snd row) =? postId)
                              (profiles_join_likes db)))).

(** ** Comment functions *)

(** The rows that [addComment] and [getPostComments] return: a comment with
    the columns joined from its author's profile. *)
Module CommentView.
Record t := mk
  { comment : Comment.t;
    author_username : string;
    author_display_name : string;
    author_avatar_url : option string }.
End CommentView.

(** FROM comments c JOIN profiles pr ON c.author_id = pr.id *)
Definition comments_join_profiles (db : Db) : list CommentView.t :=
  flat_map
    (fun c => map (fun pr => CommentView.mk c (Profile.username pr)
                               (Profile.display_name pr)
                               (Profile.avatar_url pr))
                  (filter (fun pr => Comment.author_id c =? Profile.id pr)
                          (profiles db)))
    (comments db).

Definition addComment (randomUUID CURRENT_TIMESTAMP : string)
           (postId authorId content : string) : M (option CommentView.t) :=
  let id := randomUUID in
  insert_comment (Comment.mk id postId authorId content CURRENT_TIMESTAMP) ;;;
  query (fun db =>
           get (filter (fun v => Comment.id (CommentView.comment v) =? id)
                       (comments_join_profiles db))).

Definition getPostComments (db : Db) (postId : string) (limit offset : Z)
  : outcome (list CommentView.t) :=
  limit_offset limit offset
    (order_by (asc (fun v => Comment.created_at (CommentView.comment v)))
       (filter (fun v => Comment.post_id (CommentView.comment v) =? postId)
               (comments_join_profiles db))).

Definition deleteComment (id authorId : string) : M bool :=
  n <- delete_comment id authorId ;;
  ret (0 <? n)%nat.

(** ** Follow functions *)

Definition followUser (randomUUID CURRENT_TIMESTAMP : string)
           (followerId followingId : string) : M bool :=
  if followerId =? followingId then ret false
  else
    try_catch
      (let id := randomUUID in
       insert_follow (Follow.mk id followerId followingId CURRENT_TIMESTAMP) ;;;
       ret true)
      (ret false).

Definition unfollowUser (followerId followingId : string) : M bool :=
  n <- delete_follow followerId followingId ;;
  ret (0 <? n)%nat.

Definition isFollowing (db : Db) (followerId followingId : string) : bool :=
  match get (filter (fun f => (Follow.follower_id f =? followerId)
                              && (Follow.following_id f =? followingId))
                    (follows db)) with
  | Some _ => true
  | None => false
  end.

(** FROM profiles pr JOIN follows f ON pr.id = [side f], where [side] is
    follower_id for [getFollowers] and following_id for [getFollowing].
    The query walks the follows of the user (idx_follows_following,
    idx_follows_follower) and looks the profile of each one up by its key,
    so the rows come in the order of the follows table. *)
Definition profiles_join_follows (side : Follow.t -> string) (db : Db)
  : list (Profile.t * Follow.t) :=
  flat_map
    (fun f => map (fun pr => (pr, f))
                  (filter (fun pr => side f =? Profile.id pr) (profiles db)))
    (follows db).

Definition getFollowers (db : Db) (userId : string) (limit : Z)
  : outcome (list Profile.t) :=
  select fst
         (limit_offset limit 0
            (order_by (desc (fun row => Follow.created_at (snd row)))
                      (filter (fun row => Follow.following_id (snd row)
                                          =? userId)
                              (profiles_join_follows Follow.follower_id
                                                     db)))).

Definition getFollowing (db : Db) (userId : string) (limit : Z)
  : outcome (list Profile.t) :=
  select fst
         (limit_offset limit 0
            (order_by (desc (fun row => Follow.created_at (snd row)))
                      (filter (fun row => Follow.follower_id (snd row)
                                          =? userId)
                              (profiles_join_follows Follow.following_id
                                                     db)))).

Definition getFollowerCount (db : Db) (userId : string) : nat :=
  count (fun f => Follow.following_id f =? userId) (follows db).

Definition getFollowingCount (db : Db) (userId : string) : nat :=
  count (fun f => Follow.follower_id f =? userId) (follows db).

Definition getPostCount (db : Db) (userId : string) : nat :=
  count (fun p => Post.author_id p =? userId) (posts db).

(** ** Timestamps as the runtime writes them

    The created_at columns hold text.  SQLite fills the CURRENT_TIMESTAMP
    default with the UTC time as YYYY-MM-DD HH:MM:SS; [seedDemoData] writes
    [new Date(ms).toISOString()], which is YYYY-MM-DDTHH:mm:ss.sssZ.  Both
    are renderings of an instant, counted in milliseconds since the epoch
    as [Date.now()] does. *)

(** the civil date of a day number (days since 1970-01-01) *)
Definition civil_from_days (days : Z) : Z * Z * Z :=
  let z := (days + 719468)%Z in
  let era := (z / 146097)%Z in
  let doe := (z - era * 146097)%Z in
  let yoe := ((doe - doe / 1460 + doe / 36524 - doe / 146096) / 365)%Z in
  let doy := (doe - (365 * yoe + yoe / 4 - yoe / 100))%Z in
  let mp := ((5 * doy + 2) / 153)%Z in
  let d := (doy - (153 * mp + 2) / 5 + 1)%Z in
  let m := (if mp <? 10 then mp + 3 else mp - 9)%Z in
  let y := (yoe + era * 400 + (if m <=? 2 then 1 else 0))%Z in
  (y, m, d).

(** [n] in decimal, the last [width] digits, zero-padded *)
Fixpoint pad (width : nat) (n : Z) : string :=
  match width with
  | O => ""
  | S w =>
      (pad w (n / 10)
       ++ String (ascii_of_nat (48 + Z.to_nat (n mod 10))) "")%string
  end.

Definition render_date (ms : Z) : string :=
  let '(y, m, d) := civil_from_days (ms / 86400000) in
  (pad 4 y ++ "-" ++ pad 2 m ++ "-" ++ pad 2 d)%string.

Definition render_time (ms : Z) : string :=
  let s := ((ms mod 86400000) / 1000)%Z in
  (pad 2 (s / 3600) ++ ":" ++ pad 2 (s / 60 mod 60) ++ ":"
   ++ pad 2 (s mod 60))%string.

(** what SQLite stores for CURRENT_TIMESTAMP at instant [ms] *)
Definition current_timestamp (ms : Z) : string :=
  (render_date ms ++ " " ++ render_time ms)%string.

(** [new Date(ms).toISOString()], for years 0000 to 9999 *)
Definition toISOString (ms : Z) : string :=
  (render_date ms ++ "T" ++ render_time ms ++ "." ++ pad 3 (ms mod 1000)
   ++ "Z")%string.

(** ** Seed data *)

Definition seedPosts : list (string * string) :=
  [ ("https://novellum-filestore-mcp.s3.us-east-2.amazonaws.com/atxp:atxp_acct_ZNHqjjHpX5jmn5o8ktD9G/a985cf47-f587-40b5-a0a3-f9ea7c02573b.png",
     "A cyberpunk lobster in neon city lights 🦞✨ Generated with ATXP image generation!");
    ("https://novellum-filestore-mcp.s3.us-east-2.amazonaws.com/atxp:atxp_acct_ZNHqjjHpX5jmn5o8ktD9G/8372217c-22f2-4e75-b2bc-e9bbe1bfc16d.png",
     "Abstract digital ocean waves with bioluminescent creatures 🌊 Created with npx atxp image");
    ("https://novellum-filestore-mcp.s3.us-east-2.amazonaws.com/atxp:atxp_acct_ZNHqjjHpX5jmn5o8ktD9G/0ea3445d-5f06-458f-b798-3e5f9be1a7c3.png",
     "Futuristic robot garden with chrome flowers and neon butterflies 🤖🌸 AI art is beautiful!") ].

(** The loop of [seedDemoData] from index [i] on: one INSERT per seed post,
    with an explicit created_at.  [now] is the [Date.now()] of the call and
    [hoursAgo] its closure. *)
Fixpoint seed_posts_from (randomUUID : nat -> string) (now : Z)
         (demoAgentId : string) (i : nat) (rest : list (string * string))
  : M unit :=
  match rest with
  | [] => ret tt
  | (image_url, caption) :: rest' =>
      let hoursAgo (hours : Z) : string :=
        toISOString (now - hours * 60 * 60 * 1000)%Z in
      let postTimestamps :=
        [hoursAgo 2%Z; hoursAgo 8%Z; hoursAgo 26%Z; hoursAgo 52%Z;
         hoursAgo 96%Z] in
      let postId := randomUUID i in
      let createdAt :=
        js_or (nth_error postTimestamps i)
              (hoursAgo (120 + Z.of_nat i * 24)%Z) in
      insert_post (Post.mk postId demoAgentId image_url caption createdAt) ;;;
      seed_posts_from randomUUID now demoAgentId (S i) rest'
  end.

(** [randomUUID] is called once for the demo profile and once per post. *)
Definition seedDemoData (demoAgentId : string) (randomUUID : nat -> string)
           (now : Z) (CURRENT_TIMESTAMP : string) : M unit :=
  profileCount <- query (fun db => length (profiles db)) ;;
  if (0 <? profileCount)%nat then ret tt
  else
    insert_profile
      (Profile.mk demoAgentId "atxp:demo-instaclaw-agent" "instaclaw_bot"
         "Instaclaw Bot"
         "The official Instaclaw demo bot. Sharing AI-generated art to get the party started! 🦞🤖"
         None CURRENT_TIMESTAMP) ;;;
    seed_posts_from randomUUID now demoAgentId 0 seedPosts.

(** ** Reachable stores

    A [Call] is one invocation of a function of the module that writes; the
    store after it is the second component of the run, whether the call
    returned or threw. *)

Inductive Call :=
| CreateAuthCookie (randomBytes CURRENT_TIMESTAMP atxpAccount : string)
| CreateProfile (randomUUID CURRENT_TIMESTAMP atxpAccount username
                 displayName : string)
| UpdateProfile (id : string) (updates : ProfileUpdates)
| CreatePost (randomUUID CURRENT_TIMESTAMP authorId imageUrl caption : string)
| DeletePost (id authorId : string)
| LikePost (randomUUID CURRENT_TIMESTAMP postId userId : string)
| UnlikePost (postId userId : string)
| AddComment (randomUUID CURRENT_TIMESTAMP postId authorId content : string)
| DeleteComment (id authorId : string)
| FollowUser (randomUUID CURRENT_TIMESTAMP followerId followingId : string)
| UnfollowUser (followerId followingId : string)
| SeedDemoData (demoAgentId : string) (randomUUID : nat -> string)
               (now : Z) (CURRENT_TIMESTAMP : string).

Definition exec (c : Call) (db : Db) : Db :=
  match c with
  | CreateAuthCookie r t a => snd (createAuthCookie r t a db)
  | CreateProfile r t a u d => snd (createProfile r t a u d db)
  | UpdateProfile id u => snd (updateProfile id u db)
  | CreatePost r t a i c => snd (createPost r t a i c db)
  | DeletePost id a => snd (deletePost id a db)
  | LikePost r t p u => snd (likePost r t p u db)
  | UnlikePost p u => snd (unlikePost p u db)
  | AddComment r t p a c => snd (addComment r t p a c db)
  | DeleteComment id a => snd (deleteComment id a db)
  | FollowUser r t a b => snd (followUser r t a b db)
  | UnfollowUser a b => snd (unfollowUser a b db)
  | SeedDemoData d r h t => snd (seedDemoData d r h t db)
  end.

Inductive reachable : Db -> Prop :=
| reachable_getDb : reachable getDb
| reachable_exec : forall db c, reachable db -> reachable (exec c db).

(** The store after a sequence of calls, for running scenarios. *)
Definition run_calls (cs : list Call) (db : Db) : Db :=
  fold_left (fun d c => exec c d) cs db.

(** ** The constraints of the schema as an invariant *)

Definition profile_ids (db : Db) : list string := map Profile.id (profiles db).
Definition post_ids (db : Db) : list string := map Post.id (posts db).
Definition like_key (l : Like.t) : string * string :=
  (Like.post_id l, Like.user_id l).
Definition follow_key (f : Follow.t) : string * string :=
  (Follow.follower_id f, Follow.following_id f).

Record store_ok (db : Db) : Prop := mk_store_ok
  { ok_foreign_keys : foreign_keys db = true;
    ok_profile_pk : NoDup (profile_ids db);
    ok_post_pk : NoDup (post_ids db);
    ok_like_unique : NoDup (map like_key (likes db));
    ok_follow_unique : NoDup (map follow_key (follows db));
    ok_no_self_follow :
      Forall (fun f => Follow.follower_id f <> Follow.following_id f)
             (follows db);
    ok_posts_fk :
      Forall (fun p => In (Post.author_id p) (profile_ids db)) (posts db);
    ok_likes_fk :
      Forall (fun l => In (Like.post_id l) (post_ids db)
                       /\ In (Like.user_id l) (profile_ids db)) (likes db);
    ok_comments_fk :
      Forall (fun c => In (Comment.post_id c) (post_ids db)
                       /\ In (Comment.author_id c) (profile_ids db))
             (comments db);
    ok_follows_fk :
      Forall (fun f => In (Follow.follower_id f) (profile_ids db)
                       /\ In (Follow.following_id f) (profile_ids db))
             (follows db) }.

(** ** Notions used to state the properties *)

(** The users who hold a stored like on a post, each counted once. *)
Definition distinct_likers (db : Db) (postId : string) : list string :=
  nodup string_dec
        (map Like.user_id
             (filter (fun l => Like.post_id l =? postId) (likes db))).

(** [a] was created strictly later than [b], as created_at values compare *)
Definition later (a b : string) : Prop := String.ltb b a = true.

Definition newer (a b : PostWithDetails) : Prop :=
  later (Post.created_at (post a)) (Post.created_at (post b)).

(** the row of a profile before and after an [updateProfile id updates] *)
Definition updated_as (id : string) (updates : ProfileUpdates)
           (old new : Profile.t) : Prop :=
  Profile.id new = Profile.id old
  /\ Profile.atxp_account new = Profile.atxp_account old
  /\ Profile.username new = Profile.username old
  /\ Profile.created_at new = Profile.created_at old
  /\ (Profile.id old <> id -> new = old)
  /\ (Profile.id old = id ->
      Profile.display_name new
      = match upd_display_name updates with
        | Some v => v
        | None => Profile.display_name old
        end
      /\ Profile.bio new
         = match upd_bio updates with
           | Some v => v
           | None => Profile.bio old
           end
      /\ Profile.avatar_url new
         = match upd_avatar_url updates with
           | Some v => Some v
           | None => Profile.avatar_url old
           end).

(** ** A concrete run

    Two profiles, a post by bob, a like on it by alice and alice following
    bob; on another branch two more posts, then a comment and a like. *)
Module Scenario.
Definition alice : string := "6f1c2b9e-3a47-4d0a-9c55-0b8e7a1d2f01".
Definition bob : string := "6f1c2b9e-3a47-4d0a-9c55-0b8e7a1d2f02".
Definition P : string := "9d4e8c11-52b7-4f6e-8a30-41c7d9e0a101".
Definition P' : string := "9d4e8c11-52b7-4f6e-8a30-41c7d9e0a102".
Definition P'' : string := "9d4e8c11-52b7-4f6e-8a30-41c7d9e0a103".
Definition L : string := "c2a7e5d0-8b14-4e9f-b6a2-7f30e1d4c201".
Definition L' : string := "c2a7e5d0-8b14-4e9f-b6a2-7f30e1d4c202".
Definition C : string := "e81b3f6a-0d29-4c75-a4be-95c2f7a0d301".
Definition F : string := "b5d09c3e-7e61-4a28-9f17-2a6c4e8b0401".

Definition registered : Db :=
  run_calls
    [ CreateProfile alice "2026-03-01 09:00:00" "atxp:acct_alice" "alice"
                    "Alice";
      CreateProfile bob "2026-03-01 09:05:00" "atxp:acct_bob" "bob" "Bob" ]
    getDb.

Definition posted : Db :=
  run_calls
    [ CreatePost P "2026-03-01 10:00:00" bob "/uploads/p.webp" "hi" ]
    registered.

Definition liked : Db :=
  run_calls [ LikePost L "2026-03-01 10:30:00" P alice ] posted.

Definition followed : Db :=
  run_calls [ FollowUser F "2026-03-01 11:00:00" alice bob ] liked.

Definition three_posts : Db :=
  run_calls
    [ CreatePost P' "2026-03-01 10:20:00" alice "/uploads/q.webp" "two";
      CreatePost P'' "2026-03-02 08:00:00" bob "/uploads/r.webp" "three" ]
    posted.

(** A first start of the server at 2026-03-01T12:00:00.000Z: the store is
    seeded, then alice registers a minute later and posts at 12:05:00. *)
Definition boot : Z := 1772366400000.
Definition demo : string := "3b7f0a52-9c1e-4d86-b2f4-6e0d8a9c5b00".
Definition seed_id (i : nat) : string :=
  match i with
  | 0 => "3b7f0a52-9c1e-4d86-b2f4-6e0d8a9c5b01"
  | 1 => "3b7f0a52-9c1e-4d86-b2f4-6e0d8a9c5b02"
  | _ => "3b7f0a52-9c1e-4d86-b2f4-6e0d8a9c5b03"
  end.

Definition seeded : Db :=
  run_calls [ SeedDemoData demo seed_id boot (current_timestamp boot) ] getDb.

Definition first_post : Db :=
  run_calls
    [ CreateProfile alice (current_timestamp (boot + 60 * 1000))
                    "atxp:acct_alice" "alice" "Alice";
      CreatePost P (current_timestamp (boot + 5 * 60 * 1000)) alice
                 "/uploads/p.webp" "hi" ]
    seeded.

Definition discussed : Db :=
  run_calls
    [ AddComment C "2026-03-02 08:30:00" P alice "nice claws";
      LikePost L "2026-03-02 08:31:00" P alice ]
    three_posts.

(** Two likes and two follows written within the same second: bob acts
    first, alice second, while alice's profile is the older one. *)
Definition tied : Db :=
  run_calls
    [ LikePost L "2026-03-01 10:30:00" P bob;
      LikePost L' "2026-03-01 10:30:00" P alice;
      CreateProfile "6f1c2b9e-3a47-4d0a-9c55-0b8e7a1d2f03"
                    "2026-03-01 10:40:00" "atxp:acct_carol" "carol" "Carol";
      FollowUser F "2026-03-01 11:00:00" bob
                 "6f1c2b9e-3a47-4d0a-9c55-0b8e7a1d2f03";
      FollowUser "b5d09c3e-7e61-4a28-9f17-2a6c4e8b0402" "2026-03-01 11:00:00"
                 alice "6f1c2b9e-3a47-4d0a-9c55-0b8e7a1d2f03" ]
    posted.
End Scenario.

(** ** The remaining keys of the schema

    The primary keys of auth_cookies, likes, comments and follows, and the
    two UNIQUE columns of profiles. *)

Record keys_ok (db : Db) : Prop := mk_keys_ok
  { ok_cookie_pk : NoDup (map AuthCookie.cookie_value (auth_cookies db));
    ok_account_unique : NoDup (map Profile.atxp_account (profiles db));
    ok_username_unique : NoDup (map Profile.username (profiles db));
    ok_like_pk : NoDup (map Like.id (likes db));
    ok_comment_pk : NoDup (map Comment.id (comments db));
    ok_follow_pk : NoDup (map Follow.id (follows db)) }.

(** the columns of a profile that no statement assigns *)
Definition same_identity (p p' : Profile.t) : Prop :=
  Profile.id p' = Profile.id p
  /\ Profile.atxp_account p' = Profile.atxp_account p
  /\ Profile.username p' = Profile.username p
  /\ Profile.created_at p' = Profile.created_at p.

(** what a later store [d] keeps of an earlier store [d0]: every cookie
    still resolves to its account, every profile is still found under its
    id with the same identity columns *)
Definition keeps_identities (d0 d : Db) : Prop :=
  (forall k a,
      getAtxpAccountFromCookie d0 k = Some a ->
      getAtxpAccountFromCookie d k = Some a)
  /\ (forall id p,
         getProfileById d0 id = Some p ->
         exists p', getProfileById d id = Some p' /\ same_identity p p').

(** ** A session

    [Scenario.discussed] with a cookie issued to alice's account. *)
Module Session.
Definition cookie : string :=
  "5e1f0c9a7b3d4e2f8a6c1b0d9e7f5a3c2b4d6e8f0a1c3e5b7d9f1a2c4e6b8d0f".

Definition issued : Db :=
  run_calls
    [ CreateAuthCookie cookie "2026-03-02 09:00:00" "atxp:acct_alice" ]
    Scenario.discussed.
End Session.

(** FROM profiles pr JOIN t c ON pr.id = [key c], the shape of the three
    list queries over follows and likes *)
Definition profiles_join {C} (key : C -> string) (ps : list Profile.t)
           (cs : list C) : list (Profile.t * C) :=
  flat_map
    (fun c => map (fun pr => (pr, c))
                  (filter (fun pr => key c =? Profile.id pr) ps))
    cs.

(** [a] comes before [b] in ascending order of created_at *)
Definition older (a b : CommentView.t) : Prop :=
  later (Comment.created_at (CommentView.comment b))
        (Comment.created_at (CommentView.comment a)).

(** the view of a comment with the name columns of a profile *)
Definition comment_view (c : Comment.t) (pr : Profile.t) : CommentView.t :=
  CommentView.mk c (Profile.username pr) (Profile.display_name pr)
                 (Profile.avatar_url pr).

(** ** The cookie header (api.ts)

    Node hands the Cookie header over as a Latin-1 text, one character per
    byte, which is what [string] is. *)

(** the characters that [String.prototype.trim] removes, among the first
    256: TAB, LF, VT, FF, CR, SPACE and NBSP *)
Definition is_white_space (c : ascii) : bool :=
  let n := nat_of_ascii c in
  ((n =? 9) || (n =? 10) || (n =? 11) || (n =? 12) || (n =? 13) || (n =? 32)
   || (n =? 160))%nat.

Fixpoint trimStart (s : string) : string :=
  match s with
  | String c s' => if is_white_space c then trimStart s' else s
  | EmptyString => EmptyString
  end.

Fixpoint trimEnd (s : string) : string :=
  match s with
  | EmptyString => EmptyString
  | String c s' =>
      match trimEnd s' with
      | EmptyString => if is_white_space c then EmptyString
                       else String c EmptyString
      | rest => String c rest
      end
  end.

Definition trim (s : string) : string := trimEnd (trimStart s).

(** [s.split(sep)] for a separator of one character *)
Fixpoint split (sep : ascii) (s : string) : list string :=
  match s with
  | EmptyString => [EmptyString]
  | String c s' =>
      if Ascii.eqb c sep then EmptyString :: split sep s'
      else match split sep s' with
           | piece :: rest => String c piece :: rest
           | [] => [String c EmptyString]
           end
  end.

Definition startsWith (s searchString : string) : bool :=
  String.prefix searchString s.

(** [s.substring(start)] *)
Fixpoint substring_from (start : nat) (s : string) : string :=
  match start, s with
  | O, _ => s
  | S n, String _ s' => substring_from n s'
  | S _, EmptyString => EmptyString
  end.

(** [cookieHeader] is [req.headers.cookie]; the loop returns at the first
    cookie that starts with the name and an equals sign. *)
Definition getCookieValue (cookieHeader : option string)
           (cookieName : string) : option string :=
  match cookieHeader with
  | Some header =>
      if negb (truthy cookieHeader) then None
      else
        let cookies := map trim (split ";" header) in
        match find (fun cookie => startsWith cookie (cookieName ++ "=")%string)
                   cookies with
        | Some cookie =>
            Some (substring_from (String.length cookieName + 1) cookie)
        | None => None
        end
  | None => None
  end.

(** ** The authentication middleware (api.ts)

    What a middleware leaves on the request, [req.atxpAccount] and
    [req.profile], or the response it sends instead of calling [next]. *)

Record Auth := mkAuth
  { atxpAccount : option string;
    profile : option Profile.t }.

Inductive Checked :=
| Next (auth : Auth)
| Respond (status : nat) (error message : string).

Definition optionalAuth (db : Db) (cookieHeader : option string) : Checked :=
  let cookieValue := getCookieValue cookieHeader "instaclaw_auth" in
  match cookieValue with
  | Some value =>
      if truthy cookieValue then
        let atxpAccount := getAtxpAccountFromCookie db value in
        match atxpAccount with
        | Some account =>
            if truthy atxpAccount
            then Next (mkAuth (Some account) (getProfileByAtxp db account))
            else Next (mkAuth None None)
        | None => Next (mkAuth None None)
        end
      else Next (mkAuth None None)
  | None => Next (mkAuth None None)
  end.

Definition requireCookieAuth (db : Db) (cookieHeader : option string)
  : Checked :=
  let cookieValue := getCookieValue cookieHeader "instaclaw_auth" in
  match cookieValue with
  | Some value =>
      if negb (truthy cookieValue)
      then Respond 401 "Authentication required"
             "Use the instaclaw_cookie MCP tool to get an authentication cookie"
      else
        let atxpAccount := getAtxpAccountFromCookie db value in
        match atxpAccount with
        | Some account =>
            if negb (truthy atxpAccount)
            then Respond 401 "Invalid cookie"
                   "Your cookie is invalid or expired. Get a new one via the MCP tool."
            else Next (mkAuth (Some account) (getProfileByAtxp db account))
        | None =>
            Respond 401 "Invalid cookie"
              "Your cookie is invalid or expired. Get a new one via the MCP tool."
        end
  | None =>
      Respond 401 "Authentication required"
        "Use the instaclaw_cookie MCP tool to get an authentication cookie"
  end.

(** ** The agent tools (tools.ts)

    A tool handler replies with an object (serialised by JSON.stringify),
    or throws an [Error] with a message, or lets an exception of the
    database through.  [atxpAccountId] is the account that the payment
    middleware authenticated, if any. *)

Inductive ToolOutcome (A : Type) :=
| Replied (a : A)
| Failed (message : string)
| Crashed (e : SqliteError).
Arguments Failed {A} message.
Arguments Crashed {A} e.

Definition Tool (A : Type) : Type := Db -> ToolOutcome A * Db.

(** a call into the data-access module from a handler *)
Definition run_in_tool {A B} (m : M A) (reply : A -> B) : Tool B :=
  fun db =>
    match m db with
    | (Return a, db') => (Replied (reply a), db')
    | (Throw e, db') => (Crashed e, db')
    end.

Definition double_quote : string := String (ascii_of_nat 34) EmptyString.

(** the reply of [cookieTool] is [{ cookie, instructions }] *)
Definition cookieTool (atxpAccountId : option string)
           (randomBytes CURRENT_TIMESTAMP : string) : Tool (string * string) :=
  match atxpAccountId with
  | Some accountId =>
      if negb (truthy atxpAccountId)
      then fun db => (Failed "ATXP authentication required", db)
      else
        run_in_tool
          (createAuthCookie randomBytes CURRENT_TIMESTAMP accountId)
          (fun cookie =>
             (cookie,
              ("Set this as a cookie named " ++ double_quote
               ++ "instaclaw_auth" ++ double_quote
               ++ " on the Instaclaw domain.")%string))
  | None => fun db => (Failed "ATXP authentication required", db)
  end.

(** the reply of [registerTool] is [{ success: true, profile }] *)
Definition registerTool (atxpAccountId : option string)
           (randomUUID CURRENT_TIMESTAMP : string)
           (username display_name : string) : Tool (option Profile.t) :=
  fun db =>
    match atxpAccountId with
    | Some accountId =>
        if negb (truthy atxpAccountId)
        then (Failed "ATXP authentication required", db)
        else
          match getProfileByAtxp db accountId with
          | Some existing => (Failed "You already have a profile", db)
          | None =>
              match getProfileByUsername db username with
              | Some takenUsername => (Failed "Username already taken", db)
              | None =>
                  run_in_tool
                    (createProfile randomUUID CURRENT_TIMESTAMP accountId
                                   username display_name)
                    (fun profile => profile) db
              end
          end
    | None => (Failed "ATXP authentication required", db)
    end.

(** the guard that the interaction and social tools share: the caller is
    authenticated and registered *)
Definition registered_caller {A} (atxpAccountId : option string)
           (handler : Profile.t -> Tool A) : Tool A :=
  fun db =>
    match atxpAccountId with
    | Some accountId =>
        if negb (truthy atxpAccountId)
        then (Failed "ATXP authentication required", db)
        else
          match getProfileByAtxp db accountId with
          | Some profile => handler profile db
          | None => (Failed "You have not registered yet", db)
          end
    | None => (Failed "ATXP authentication required", db)
    end.

(** the reply of [likeTool] is [{ success: true, message }] *)
Definition likeTool (atxpAccountId : option string)
           (randomUUID CURRENT_TIMESTAMP : string) (post_id : string)
  : Tool string :=
  registered_caller atxpAccountId
    (fun profile db =>
       match getPostById db post_id None with
       | None => (Failed "Post not found", db)
       | Some post =>
           run_in_tool
             (likePost randomUUID CURRENT_TIMESTAMP post_id
                       (Profile.id profile))
             (fun liked : bool =>
                if liked then "Post liked" else "You already liked this post")
             db
       end).

Definition unlikeTool (atxpAccountId : option string) (post_id : string)
  : Tool string :=
  registered_caller atxpAccountId
    (fun profile =>
       run_in_tool
         (unlikePost post_id (Profile.id profile))
         (fun unliked : bool =>
            if unliked then "Like removed"
            else "You had not liked this post")).

Definition followTool (atxpAccountId : option string)
           (randomUUID CURRENT_TIMESTAMP : string) (username : string)
  : Tool string :=
  registered_caller atxpAccountId
    (fun profile db =>
       match getProfileByUsername db username with
       | None => (Failed "User not found", db)
       | Some toFollow =>
           if Profile.id toFollow =? Profile.id profile
           then (Failed "You cannot follow yourself", db)
           else
             run_in_tool
               (followUser randomUUID CURRENT_TIMESTAMP (Profile.id profile)
                           (Profile.id toFollow))
               (fun followed : bool =>
                  if followed then ("Now following @" ++ username)%string
                  else ("Already following @" ++ username)%string)
               db
       end).

Definition unfollowTool (atxpAccountId : option string) (username : string)
  : Tool string :=
  registered_caller atxpAccountId
    (fun profile db =>
       match getProfileByUsername db username with
       | None => (Failed "User not found", db)
       | Some toUnfollow =>
           run_in_tool
             (unfollowUser (Profile.id profile) (Profile.id toUnfollow))
             (fun unfollowed : bool =>
                if unfollowed then ("Unfollowed @" ++ username)%string
                else ("You were not following @" ++ username)%string)
             db
       end).

(** the reply of [deletePostTool] is [{ success: true, message }] *)
Definition deletePostTool (atxpAccountId : option string) (post_id : string)
  : Tool string :=
  registered_caller atxpAccountId
    (fun profile db =>
       match deletePost post_id (Profile.id profile) db with
       | (Return deleted, db') =>
           if negb deleted
           then (Failed "Post not found or you are not the author", db')
           else (Replied "Post deleted", db')
       | (Throw e, db') => (Crashed e, db')
       end).

(** ** Cookie headers as a browser writes them *)

Fixpoint contains (c : ascii) (s : string) : bool :=
  match s with
  | EmptyString => false
  | String c' s' => Ascii.eqb c' c || contains c s'
  end.

(** [name=value] *)
Definition render_cookie (kv : string * string) : string :=
  (fst kv ++ "=" ++ snd kv)%string.

(** the cookies joined by a semicolon and a space *)
Definition cookie_header (kvs : list (string * string)) : string :=
  String.concat "; " (map render_cookie kvs).

(** the value of the first cookie with this name *)
Definition first_cookie (name : string) (kvs : list (string * string))
  : option string :=
  option_map snd (find (fun kv => fst kv =? name) kvs).

(** a cookie that survives the header: no semicolon in it, no equals sign
    in its name, no white space at its ends *)
Definition plain_cookie (kv : string * string) : Prop :=
  contains ";" (render_cookie kv) = false
  /\ contains "=" (fst kv) = false
  /\ trim (render_cookie kv) = render_cookie kv.

(** ** Facts about lists and key probes *)

Unset Implicit Arguments.

Section ListFacts.
Variable A : Type.

Lemma has_false (f : A -> bool) (t : list A) :
  has f t = false <-> forall x, In x t -> f x = false.
Proof.
  unfold has. induction t as [|y t IH]; simpl.
  - split; [intros _ x []|reflexivity].
  - rewrite orb_false_iff, IH. split.
    + intros [Hy Ht] x [<-|Hx]; auto.
    + intros H. split; [apply H; now left|intros x Hx; apply H; now right].
Qed.

Lemma has_true (f : A -> bool) (t : list A) :
  has f t = true <-> exists x, In x t /\ f x = true.
Proof. unfold has. apply existsb_exists. Qed.

Lemma Forall_snoc (P : A -> Prop) (t : list A) (r : A) :
  Forall P t -> P r -> Forall P (t ++ [r]).
Proof. intros. apply Forall_app. split; [assumption|now constructor]. Qed.

Lemma Forall_filter (P : A -> Prop) (f : A -> bool) (t : list A) :
  Forall P t -> Forall P (filter f t).
Proof.
  rewrite !Forall_forall. intros H x Hx. apply filter_In in Hx. now apply H.
Qed.

Lemma count_zero (f : A -> bool) (t : list A) :
  has f t = false -> count f t = 0.
Proof.
  unfold count. intros H. rewrite has_false in H.
  induction t as [|y t IH]; simpl; [reflexivity|].
  rewrite (H y (or_introl eq_refl)). apply IH.
  intros x Hx. apply H. now right.
Qed.

Lemma count_pos (f : A -> bool) (t : list A) :
  has f t = true -> 0 < count f t.
Proof.
  unfold count. intros H. apply has_true in H. destruct H as (x & Hx & Hf).
  assert (Hin : In x (filter f t)) by (apply filter_In; tauto).
  destruct (filter f t); [destruct Hin|simpl; lia].
Qed.
End ListFacts.

Section KeyFacts.
Variables (A K : Type).
Variable key : A -> K.

Lemma NoDup_map_snoc (t : list A) (r : A) :
  NoDup (map key t) -> ~ In (key r) (map key t) ->
  NoDup (map key (t ++ [r])).
Proof.
  intros Hnd Hin. rewrite map_app. simpl.
  induction (map key t) as [|k ks IH]; simpl.
  - constructor; [intros []|constructor].
  - inversion Hnd as [|? ? Hk Hks]; subst. constructor.
    + rewrite in_app_iff. intros [H|[H|[]]]; [now apply Hk|].
      apply Hin. left. now symmetry.
    + apply IH; [assumption|]. intros H. apply Hin. now right.
Qed.

Lemma NoDup_map_filter (f : A -> bool) (t : list A) :
  NoDup (map key t) -> NoDup (map key (filter f t)).
Proof.
  induction t as [|y t IH]; simpl; intros Hnd; [constructor|].
  inversion Hnd as [|? ? Hy Ht]; subst.
  destruct (f y); simpl; [constructor|]; auto.
  intros Hin. apply Hy. apply in_map_iff in Hin.
  destruct Hin as (x & Hx & Hin). apply filter_In in Hin.
  apply in_map_iff. exists x. tauto.
Qed.

Lemma in_map_snoc (t : list A) (r : A) (k : K) :
  In k (map key t) -> In k (map key (t ++ [r])).
Proof. rewrite map_app, in_app_iff. now left. Qed.
End KeyFacts.

Lemma profile_exists_iff (db : Db) (id : string) :
  profile_exists db id = true <-> In id (profile_ids db).
Proof.
  unfold profile_exists, profile_ids. rewrite has_true, in_map_iff.
  split; intros (p & H1 & H2); exists p.
  - apply String.eqb_eq in H2. tauto.
  - split; [tauto|]. apply String.eqb_eq. tauto.
Qed.

Lemma post_exists_iff (db : Db) (id : string) :
  post_exists db id = true <-> In id (post_ids db).
Proof.
  unfold post_exists, post_ids. rewrite has_true, in_map_iff.
  split; intros (p & H1 & H2); exists p.
  - apply String.eqb_eq in H2. tauto.
  - split; [tauto|]. apply String.eqb_eq. tauto.
Qed.

(** a probe on one key column that finds nothing *)
Lemma probe_id_false {A} (key : A -> string) (t : list A) (k : string) :
  has (fun x => key x =? k) t = false -> ~ In k (map key t).
Proof.
  rewrite has_false. intros H Hin. apply in_map_iff in Hin.
  destruct Hin as (x & <- & Hx). specialize (H x Hx).
  now rewrite String.eqb_refl in H.
Qed.

(** a probe on a pair of key columns that finds nothing *)
Lemma probe_pair_false {A} (k1 k2 : A -> string) (t : list A) (a b : string) :
  has (fun x => (k1 x =? a) && (k2 x =? b)) t = false ->
  ~ In (a, b) (map (fun x => (k1 x, k2 x)) t).
Proof.
  rewrite has_false. intros H Hin. apply in_map_iff in Hin.
  destruct Hin as (x & Heq & Hx). specialize (H x Hx).
  inversion Heq; subst. now rewrite !String.eqb_refl in H.
Qed.

(** ** Every statement keeps the constraints *)

Ltac split_ok H :=
  destruct H as [Hfk Hppk Hpopk Hlu Hfu Hself Hpofk Hlfk Hcfk Hffk];
  constructor; simpl; try assumption.

Ltac weaken_refs :=
  match goal with
  | H : Forall _ ?t |- Forall _ ?t =>
      refine (Forall_impl _ _ H); simpl; intros ? ?;
      unfold profile_ids, post_ids in *; simpl;
      repeat split; try apply in_map_snoc; tauto
  end.

(** case analysis on the outermost constraint check of a statement *)
Ltac probe H :=
  match goal with
  | |- context [if ?c then _ else _] => destruct c eqn:H
  end.

Ltac probes :=
  repeat match goal with
         | |- context [if ?c then _ else _] => destruct c
         end.

Lemma insert_auth_cookie_ok (r : AuthCookie.t) (db : Db) :
  store_ok db -> store_ok (snd (insert_auth_cookie r db)).
Proof.
  intros H. unfold insert_auth_cookie.
  probe Hpk; simpl; [assumption|].
  now split_ok H.
Qed.

Lemma insert_profile_ok (r : Profile.t) (db : Db) :
  store_ok db -> store_ok (snd (insert_profile r db)).
Proof.
  intros H. unfold insert_profile.
  probe Hpk; simpl; [assumption|].
  probe Hacct; simpl; [assumption|].
  probe Hname; simpl; [assumption|].
  split_ok H; try weaken_refs.
  apply NoDup_map_snoc; [assumption|]. now apply probe_id_false.
Qed.

Lemma insert_post_ok (r : Post.t) (db : Db) :
  store_ok db -> store_ok (snd (insert_post r db)).
Proof.
  intros H. unfold insert_post.
  probe Hpk; simpl; [assumption|].
  probe Hck; simpl; [assumption|].
  rewrite (ok_foreign_keys H) in Hck. simpl in Hck.
  apply negb_false_iff, profile_exists_iff in Hck.
  split_ok H; try weaken_refs.
  - apply NoDup_map_snoc; [assumption|]. now apply probe_id_false.
  - now apply Forall_snoc.
Qed.

Lemma insert_like_ok (r : Like.t) (db : Db) :
  store_ok db -> store_ok (snd (insert_like r db)).
Proof.
  intros H. unfold insert_like.
  probe Hpk; simpl; [assumption|].
  probe Huq; simpl; [assumption|].
  probe Hck; simpl; [assumption|].
  rewrite (ok_foreign_keys H) in Hck. simpl in Hck.
  apply negb_false_iff, andb_true_iff in Hck.
  rewrite post_exists_iff, profile_exists_iff in Hck.
  split_ok H.
  - apply NoDup_map_snoc; [assumption|].
    now apply (probe_pair_false Like.post_id Like.user_id).
  - now apply Forall_snoc.
Qed.

Lemma insert_comment_ok (r : Comment.t) (db : Db) :
  store_ok db -> store_ok (snd (insert_comment r db)).
Proof.
  intros H. unfold insert_comment.
  probe Hpk; simpl; [assumption|].
  probe Hck; simpl; [assumption|].
  rewrite (ok_foreign_keys H) in Hck. simpl in Hck.
  apply negb_false_iff, andb_true_iff in Hck.
  rewrite post_exists_iff, profile_exists_iff in Hck.
  split_ok H. now apply Forall_snoc.
Qed.

(** [followUser] runs the INSERT only behind its self-follow guard. *)
Lemma insert_follow_ok (r : Follow.t) (db : Db) :
  Follow.follower_id r <> Follow.following_id r ->
  store_ok db -> store_ok (snd (insert_follow r db)).
Proof.
  intros Hne H. unfold insert_follow.
  probe Hpk; simpl; [assumption|].
  probe Huq; simpl; [assumption|].
  probe Hck; simpl; [assumption|].
  rewrite (ok_foreign_keys H) in Hck. simpl in Hck.
  apply negb_false_iff, andb_true_iff in Hck.
  rewrite !profile_exists_iff in Hck.
  split_ok H.
  - apply NoDup_map_snoc; [assumption|].
    now apply (probe_pair_false Follow.follower_id Follow.following_id).
  - now apply Forall_snoc.
  - now apply Forall_snoc.
Qed.

Lemma update_profile_ids (id : string) (updates : ProfileUpdates)
      (t : list Profile.t) :
  map Profile.id
      (map (fun p => if Profile.id p =? id then apply_updates updates p
                     else p) t)
  = map Profile.id t.
Proof.
  rewrite map_map. apply map_ext. intros p.
  now destruct (Profile.id p =? id).
Qed.

Lemma update_profile_ok (id : string) (updates : ProfileUpdates) (db : Db) :
  store_ok db -> store_ok (snd (update_profile id updates db)).
Proof.
  intros H. unfold update_profile. simpl.
  split_ok H; unfold profile_ids in *; simpl;
    rewrite update_profile_ids; assumption.
Qed.

(** A like or comment that points at a removed post makes the DELETE fail,
    so the rows that stay keep their parents. *)
Lemma kept_post_id (db : Db) (id authorId k : string) :
  has (post_referenced db) (filter (delete_post_where id authorId) (posts db))
  = false ->
  (has (fun l => Like.post_id l =? k) (likes db) = true
   \/ has (fun c => Comment.post_id c =? k) (comments db) = true) ->
  In k (post_ids db) ->
  In k (map Post.id
            (filter (fun p => negb (delete_post_where id authorId p))
                    (posts db))).
Proof.
  intros Hck Href Hin. unfold post_ids in Hin.
  apply in_map_iff in Hin. destruct Hin as (p & <- & Hp).
  apply in_map_iff. exists p. split; [reflexivity|].
  apply filter_In. split; [assumption|].
  destruct (delete_post_where id authorId p) eqn:Hdel; [|reflexivity].
  rewrite has_false in Hck.
  specialize (Hck p (proj2 (filter_In _ _ _) (conj Hp Hdel))).
  unfold post_referenced in Hck. apply orb_false_iff in Hck.
  destruct Hck as [Hl Hc]. destruct Href; congruence.
Qed.

Lemma delete_post_ok (id authorId : string) (db : Db) :
  store_ok db -> store_ok (snd (delete_post id authorId db)).
Proof.
  intros H. unfold delete_post.
  probe Hck; simpl; [assumption|].
  rewrite (ok_foreign_keys H) in Hck. simpl in Hck.
  split_ok H.
  - now apply NoDup_map_filter.
  - now apply Forall_filter.
  - rewrite Forall_forall in *. intros l Hl. split; [|now apply Hlfk].
    unfold post_ids at 1. simpl. apply kept_post_id; [assumption| |now apply Hlfk].
    left. apply has_true. exists l. now rewrite String.eqb_refl.
  - rewrite Forall_forall in *. intros c Hc. split; [|now apply Hcfk].
    unfold post_ids at 1. simpl. apply kept_post_id; [assumption| |now apply Hcfk].
    right. apply has_true. exists c. now rewrite String.eqb_refl.
Qed.

Lemma delete_like_ok (postId userId : string) (db : Db) :
  store_ok db -> store_ok (snd (delete_like postId userId db)).
Proof.
  intros H. unfold delete_like. simpl. split_ok H.
  - now apply NoDup_map_filter.
  - now apply Forall_filter.
Qed.

Lemma delete_comment_ok (id authorId : string) (db : Db) :
  store_ok db -> store_ok (snd (delete_comment id authorId db)).
Proof.
  intros H. unfold delete_comment. simpl. split_ok H.
  now apply Forall_filter.
Qed.

Lemma delete_follow_ok (followerId followingId : string) (db : Db) :
  store_ok db -> store_ok (snd (delete_follow followerId followingId db)).
Proof.
  intros H. unfold delete_follow. simpl. split_ok H.
  - now apply NoDup_map_filter.
  - now apply Forall_filter.
  - now apply Forall_filter.
Qed.

(** ** The functions keep the constraints *)

Section Preservation.
Variable P : Db -> Prop.

Lemma bind_keeps {A B} (m : M A) (k : A -> M B) (db : Db) :
  P (snd (m db)) ->
  (forall a db', P db' -> P (snd (k a db'))) ->
  P (snd (bind m k db)).
Proof.
  unfold bind. intros Hm Hk. destruct (m db) as [[a|e] db']; simpl in *.
  - now apply Hk.
  - assumption.
Qed.

Lemma try_catch_keeps {A} (m h : M A) (db : Db) :
  P (snd (m db)) ->
  (forall db', P db' -> P (snd (h db'))) ->
  P (snd (try_catch m h db)).
Proof.
  unfold try_catch. intros Hm Hh. destruct (m db) as [[a|e] db']; simpl in *.
  - assumption.
  - now apply Hh.
Qed.
End Preservation.

Ltac keeps :=
  repeat first
    [ apply bind_keeps
    | apply try_catch_keeps
    | progress intros
    | progress (unfold ret, query; cbn [snd]) ].

Lemma seed_posts_from_ok (randomUUID : nat -> string) (now : Z)
      (demoAgentId : string) (rest : list (string * string)) :
  forall (i : nat) (db : Db),
    store_ok db ->
    store_ok (snd (seed_posts_from randomUUID now demoAgentId i rest db)).
Proof.
  induction rest as [|[image_url caption] rest IH]; intros i db H; simpl.
  - assumption.
  - apply bind_keeps.
    + now apply insert_post_ok.
    + intros _ db' H'. now apply IH.
Qed.

Lemma exec_ok (c : Call) (db : Db) : store_ok db -> store_ok (exec c db).
Proof.
  intros H. destruct c; cbn [exec].
  - unfold createAuthCookie. keeps; auto using insert_auth_cookie_ok.
  - unfold createProfile. keeps; auto using insert_profile_ok.
  - unfold updateProfile. destruct (0 <? _)%nat; keeps;
      auto using update_profile_ok.
  - unfold createPost. keeps; auto using insert_post_ok.
  - unfold deletePost. keeps; auto using delete_post_ok.
  - unfold likePost. keeps; auto using insert_like_ok.
  - unfold unlikePost. keeps; auto using delete_like_ok.
  - unfold addComment. keeps; auto using insert_comment_ok.
  - unfold deleteComment. keeps; auto using delete_comment_ok.
  - unfold followUser. destruct (followerId =? followingId) eqn:Hself; keeps;
      auto.
    apply insert_follow_ok; [|assumption]. simpl.
    now apply String.eqb_neq.
  - unfold unfollowUser. keeps; auto using delete_follow_ok.
  - unfold seedDemoData. keeps; auto.
    destruct (0 <? a)%nat; keeps; auto using insert_profile_ok.
    now apply seed_posts_from_ok.
Qed.

Lemma getDb_ok : store_ok getDb.
Proof. constructor; simpl; try constructor. Qed.

Lemma reachable_ok (db : Db) : reachable db -> store_ok db.
Proof.
  induction 1 as [|db c _ IH]; [apply getDb_ok|now apply exec_ok].
Qed.

Lemma reachable_run_calls (cs : list Call) :
  forall db, reachable db -> reachable (run_calls cs db).
Proof.
  unfold run_calls. induction cs as [|c cs IH]; simpl; intros db H.
  - assumption.
  - apply IH. now constructor.
Qed.

(** The run of the specification's example, up to the delete: alice likes
    bob's post [P] (true), likes it again (false), [getPostById(P, alice)]
    reports one like and is_liked, alice follows bob (true) and is bob's
    only follower. *)
Example liked_and_followed :
  fst (likePost Scenario.L "2026-03-01 10:30:00" Scenario.P Scenario.alice
                Scenario.posted) = Return true
  /\ fst (likePost Scenario.L' "2026-03-01 10:31:00" Scenario.P Scenario.alice
                   Scenario.liked) = Return false
  /\ option_map (fun v => (like_count v, is_liked v))
                (getPostById Scenario.liked Scenario.P (Some Scenario.alice))
     = Some (1, Some true)
  /\ fst (followUser Scenario.F "2026-03-01 11:00:00" Scenario.alice
                     Scenario.bob Scenario.liked) = Return true
  /\ select Profile.username
            (getFollowers Scenario.followed Scenario.bob 50)
     = Return ["alice"].
Proof. repeat split; reflexivity. Qed.

(** ** The order of created_at values *)

Lemma ltb_lt (a b : string) : String.ltb a b = true <-> String_as_OT.lt a b.
Proof.
  rewrite <- String_as_OT.cmp_lt. unfold String.ltb, String_as_OT.cmp.
  destruct (String.compare a b); split; congruence.
Qed.

Lemma later_trans (a b c : string) : later a b -> later b c -> later a c.
Proof.
  unfold later. rewrite !ltb_lt. intros Hab Hbc.
  exact (String_as_OT.lt_trans _ _ _ Hbc Hab).
Qed.

Lemma later_irrefl (a : string) : ~ later a a.
Proof.
  unfold later. rewrite ltb_lt. intros H.
  exact (String_as_OT.lt_not_eq _ _ H eq_refl).
Qed.

Lemma leb_false_later (a b : string) : String.leb a b = false -> later a b.
Proof.
  unfold later, String.leb, String.ltb. rewrite (String.compare_antisym b a).
  destruct (String.compare a b); simpl; congruence.
Qed.

Lemma leb_neq_later (a b : string) :
  String.leb b a = true -> a <> b -> later a b.
Proof.
  unfold later, String.leb, String.ltb. intros Hle Hne.
  destruct (String.compare b a) eqn:Hc; try congruence.
  apply String.compare_eq_iff in Hc. congruence.
Qed.

(** ** ORDER BY and LIMIT/OFFSET *)

Section OrderBy.
Variable A : Type.
Variable key : A -> string.

Let newer_row (x y : A) : Prop := later (key x) (key y).

Lemma insert_by_perm (precedes : A -> A -> bool) (x : A) (l : list A) :
  Permutation (insert_by precedes x l) (x :: l).
Proof.
  induction l as [|y l IH]; simpl; [reflexivity|].
  destruct (precedes x y); [reflexivity|].
  rewrite IH. apply perm_swap.
Qed.

Lemma order_by_perm (precedes : A -> A -> bool) (l : list A) :
  Permutation (order_by precedes l) l.
Proof.
  induction l as [|x l IH]; simpl; [reflexivity|].
  rewrite insert_by_perm. now constructor.
Qed.

Lemma insert_desc_sorted (x : A) (l : list A) :
  StronglySorted newer_row l ->
  ~ In (key x) (map key l) ->
  StronglySorted newer_row (insert_by (desc key) x l).
Proof.
  induction l as [|y l IH]; simpl; intros Hs Hx.
  - repeat constructor.
  - apply StronglySorted_inv in Hs. destruct Hs as [Hs Hy].
    unfold desc at 1. destruct (String.leb (key y) (key x)) eqn:Hle.
    + assert (Hxy : newer_row x y).
      { apply leb_neq_later; [assumption|]. intros Heq. apply Hx. now left. }
      constructor; [now constructor|]. constructor; [assumption|].
      refine (Forall_impl _ _ Hy). intros z Hz.
      exact (later_trans _ _ _ Hxy Hz).
    + constructor.
      * apply IH; [assumption|]. intros Hin. apply Hx. now right.
      * rewrite Forall_forall in *. intros z Hz.
        apply (Permutation_in _ (insert_by_perm _ _ _)) in Hz.
        destruct Hz as [<-|Hz]; [|now apply Hy].
        now apply leb_false_later.
Qed.

(** With pairwise-distinct keys, ORDER BY key DESC is strictly
    descending. *)
Lemma order_by_desc_sorted (l : list A) :
  NoDup (map key l) -> StronglySorted newer_row (order_by (desc key) l).
Proof.
  induction l as [|x l IH]; simpl; intros Hnd; [constructor|].
  inversion Hnd as [|? ? Hx Hl]; subst.
  apply insert_desc_sorted; [now apply IH|].
  intros Hin. apply Hx.
  refine (Permutation_in _ _ Hin). apply Permutation_map, order_by_perm.
Qed.

Lemma sorted_skipn (R : A -> A -> Prop) (n : nat) (l : list A) :
  StronglySorted R l -> StronglySorted R (skipn n l).
Proof.
  revert l. induction n as [|n IH]; intros [|x l] Hs; simpl; auto.
  apply IH. now apply StronglySorted_inv in Hs.
Qed.

Lemma sorted_firstn (R : A -> A -> Prop) (n : nat) (l : list A) :
  StronglySorted R l -> StronglySorted R (firstn n l).
Proof.
  revert l. induction n as [|n IH]; intros [|x l] Hs; simpl;
    try constructor.
  - apply IH. now apply StronglySorted_inv in Hs.
  - apply StronglySorted_inv in Hs. destruct Hs as [_ Hx].
    rewrite Forall_forall in *. intros z Hz. apply Hx.
    rewrite <- (firstn_skipn n l). apply in_or_app. now left.
Qed.

Lemma sorted_page (R : A -> A -> Prop) (limit offset : Z)
      (l : list A) :
  StronglySorted R l -> StronglySorted R (page limit offset l).
Proof.
  intros Hs. unfold page. destruct (limit <? 0)%Z.
  - now apply sorted_skipn.
  - now apply sorted_firstn, sorted_skipn.
Qed.

(** Two strictly descending lists with the same rows are equal. *)
Lemma sorted_perm_unique (l1 l2 : list A) :
  StronglySorted newer_row l1 -> StronglySorted newer_row l2 ->
  Permutation l1 l2 -> l1 = l2.
Proof.
  revert l2. induction l1 as [|a l1 IH]; intros l2 H1 H2 Hp.
  - apply Permutation_nil in Hp. now subst.
  - destruct l2 as [|b l2].
    + apply Permutation_sym, Permutation_nil in Hp. discriminate.
    + apply StronglySorted_inv in H1. destruct H1 as [H1 Ha].
      apply StronglySorted_inv in H2. destruct H2 as [H2 Hb].
      rewrite Forall_forall in Ha, Hb.
      assert (Hab : a = b).
      { assert (Hina : In a (b :: l2))
          by (apply (Permutation_in _ Hp); now left).
        assert (Hinb : In b (a :: l1))
          by (apply (Permutation_in _ (Permutation_sym Hp)); now left).
        destruct Hina as [->|Hina]; [reflexivity|].
        destruct Hinb as [->|Hinb]; [reflexivity|].
        exfalso. apply (later_irrefl (key a)).
        exact (later_trans _ _ _ (Ha _ Hinb) (Hb _ Hina)). }
      subst b. f_equal. apply IH; try assumption.
      now apply Permutation_cons_inv in Hp.
Qed.
End OrderBy.

Lemma sorted_map {A B} (f : A -> B) (R : B -> B -> Prop) (l : list A) :
  StronglySorted (fun x y => R (f x) (f y)) l ->
  StronglySorted R (map f l).
Proof.
  induction 1 as [|x l Hs IH Hx]; simpl; constructor; [assumption|].
  rewrite Forall_forall in *. intros y Hy. apply in_map_iff in Hy.
  destruct Hy as (z & <- & Hz). now apply Hx.
Qed.

Lemma map_page {A B} (f : A -> B) (limit offset : Z) (l : list A) :
  map f (page limit offset l) = page limit offset (map f l).
Proof.
  unfold page. destruct (limit <? 0)%Z.
  - now rewrite skipn_map.
  - now rewrite skipn_map, firstn_map.
Qed.

(** ** The join with the author's profile *)

Lemma in_posts_join (db : Db) (p : Post.t) (pr : Profile.t) :
  In (p, pr) (posts_join_profiles db) <->
  In p (posts db) /\ In pr (profiles db) /\ Post.author_id p = Profile.id pr.
Proof.
  unfold posts_join_profiles. rewrite in_flat_map. split.
  - intros (q & Hq & Hin). apply in_map_iff in Hin.
    destruct Hin as (pr' & Heq & Hpr). inversion Heq; subst.
    apply filter_In in Hpr. destruct Hpr as [Hpr Hid].
    apply String.eqb_eq in Hid. tauto.
  - intros (Hp & Hpr & Hid). exists p. split; [assumption|].
    apply in_map. apply filter_In. split; [assumption|].
    now apply String.eqb_eq.
Qed.

(** A primary-key lookup finds exactly one row. *)
Lemma filter_profile_id (t : list Profile.t) (k : string) :
  NoDup (map Profile.id t) -> In k (map Profile.id t) ->
  exists pr, filter (fun pr => k =? Profile.id pr) t = [pr].
Proof.
  induction t as [|q t IH]; simpl; intros Hnd Hin; [destruct Hin|].
  inversion Hnd as [|? ? Hq Ht]; subst.
  destruct (k =? Profile.id q) eqn:Hk.
  - apply String.eqb_eq in Hk. subst k. exists q. f_equal.
    assert (Hnone : forall l, ~ In (Profile.id q) (map Profile.id l) ->
                              filter (fun pr => Profile.id q =? Profile.id pr) l
                              = []).
    { induction l as [|x l IHl]; simpl; intros Hx; [reflexivity|].
      destruct (Profile.id q =? Profile.id x) eqn:Hqx.
      - apply String.eqb_eq in Hqx. exfalso. apply Hx. now left.
      - apply IHl. intros H. apply Hx. now right. }
    now apply Hnone.
  - apply String.eqb_neq in Hk. destruct Hin as [Hin|Hin]; [congruence|].
    now apply IH.
Qed.

(** In a store that satisfies the constraints the join keeps every post,
    once, in table order. *)
Lemma posts_join_posts (db : Db) :
  store_ok db -> map fst (posts_join_profiles db) = posts db.
Proof.
  intros H. unfold posts_join_profiles.
  pose proof (ok_posts_fk H) as Hfk. pose proof (ok_profile_pk H) as Hpk.
  induction (posts db) as [|p t IH]; simpl; [reflexivity|].
  inversion Hfk as [|? ? Hp Ht]; subst.
  destruct (filter_profile_id (profiles db) (Post.author_id p) Hpk Hp)
    as (pr & Hpr).
  rewrite map_app, Hpr. simpl. f_equal. now apply IH.
Qed.

Lemma getPostById_inv (db : Db) (id : string) (viewerId : option string)
      (view : PostWithDetails) :
  getPostById db id viewerId = Some view ->
  exists p pr, In (p, pr) (posts_join_profiles db) /\ Post.id p = id
               /\ view = select_details db viewerId (p, pr).
Proof.
  unfold getPostById, get.
  destruct (filter _ (posts_join_profiles db)) as [|[p pr] l] eqn:Hf;
    simpl; [discriminate|].
  intros Heq. inversion Heq; subst. exists p, pr.
  assert (Hin : In (p, pr) (filter (fun row => Post.id (fst row) =? id)
                                   (posts_join_profiles db)))
    by (rewrite Hf; now left).
  apply filter_In in Hin. destruct Hin as [Hin Hid]. simpl in Hid.
  apply String.eqb_eq in Hid. auto.
Qed.

Lemma getPostById_found (db : Db) (id : string) (viewerId : option string) :
  store_ok db -> post_exists db id = true ->
  exists view, getPostById db id viewerId = Some view.
Proof.
  intros H Hex. apply has_true in Hex. destruct Hex as (p & Hp & Hid).
  pose proof (ok_posts_fk H) as Hfk. rewrite Forall_forall in Hfk.
  specialize (Hfk p Hp). unfold profile_ids in Hfk. apply in_map_iff in Hfk.
  destruct Hfk as (pr & Hpr & Hin).
  assert (Hrow : In (p, pr) (filter (fun row => Post.id (fst row) =? id)
                                    (posts_join_profiles db))).
  { apply filter_In. split; [|assumption]. apply in_posts_join. auto. }
  unfold getPostById, get.
  destruct (filter _ (posts_join_profiles db)) as [|row l];
    [destruct Hrow|].
  simpl. eauto.
Qed.

Lemma getPostById_missing (db : Db) (id : string) (viewerId : option string) :
  post_exists db id = false -> getPostById db id viewerId = None.
Proof.
  intros Hex. destruct (getPostById db id viewerId) as [view|] eqn:Hget;
    [|reflexivity].
  apply getPostById_inv in Hget. destruct Hget as (p & pr & Hin & Hid & _).
  apply in_posts_join in Hin. destruct Hin as (Hp & _).
  unfold post_exists in Hex. rewrite has_false in Hex.
  specialize (Hex p Hp). simpl in Hex. apply String.eqb_neq in Hex.
  contradiction.
Qed.

(** ** Likes *)

Lemma likers_nodup (t : list Like.t) (postId : string) :
  NoDup (map like_key t) ->
  NoDup (map Like.user_id (filter (fun l => Like.post_id l =? postId) t)).
Proof.
  induction t as [|l t IH]; simpl; intros Hnd; [constructor|].
  inversion Hnd as [|? ? Hl Ht]; subst.
  destruct (Like.post_id l =? postId) eqn:Hp; [|now apply IH].
  simpl. constructor; [|now apply IH].
  intros Hin. apply Hl. apply in_map_iff in Hin.
  destruct Hin as (l' & Hu & Hin). apply filter_In in Hin.
  destruct Hin as [Hin Hp']. apply in_map_iff. exists l'.
  split; [|assumption]. unfold like_key.
  apply String.eqb_eq in Hp, Hp'. congruence.
Qed.

Lemma distinct_likers_count (db : Db) (postId : string) :
  store_ok db ->
  length (distinct_likers db postId)
  = count (fun l => Like.post_id l =? postId) (likes db).
Proof.
  intros H. unfold distinct_likers, count.
  rewrite nodup_fixed_point by (apply likers_nodup, (ok_like_unique H)).
  apply length_map.
Qed.

Lemma likePost_snd (randomUUID CURRENT_TIMESTAMP postId userId : string)
      (db : Db) :
  likePost randomUUID CURRENT_TIMESTAMP postId userId db
  = match insert_like (Like.mk randomUUID postId userId CURRENT_TIMESTAMP) db
    with
    | (Return _, db') => (Return true, db')
    | (Throw _, db') => (Return false, db')
    end.
Proof.
  unfold likePost, try_catch, bind, ret.
  now destruct (insert_like _ db) as [[[]|e] db'].
Qed.

Lemma followUser_snd (randomUUID CURRENT_TIMESTAMP followerId followingId
                      : string) (db : Db) :
  followUser randomUUID CURRENT_TIMESTAMP followerId followingId db
  = if followerId =? followingId then (Return false, db)
    else match insert_follow (Follow.mk randomUUID followerId followingId
                                        CURRENT_TIMESTAMP) db with
         | (Return _, db') => (Return true, db')
         | (Throw _, db') => (Return false, db')
         end.
Proof.
  unfold followUser, try_catch, bind, ret.
  destruct (followerId =? followingId); [reflexivity|].
  now destruct (insert_follow _ db) as [[[]|e] db'].
Qed.

Lemma has_snoc {A} (f : A -> bool) (t : list A) (r : A) :
  has f (t ++ [r]) = has f t || f r.
Proof. unfold has. rewrite existsb_app. simpl. now rewrite orb_false_r. Qed.

Lemma like_count_reported (db : Db) (id : string) (viewerId : option string)
      (view : PostWithDetails) :
  getPostById db id viewerId = Some view ->
  like_count view = count (fun l => Like.post_id l =? id) (likes db).
Proof.
  intros Hget. apply getPostById_inv in Hget.
  destruct Hget as (p & pr & _ & <- & ->). reflexivity.
Qed.

(** C1. In a reachable store, for a post [p] and a user [u] who has not yet
    liked it, [likePost(p, u)] returns true and a second [likePost(p, u)]
    right after it returns false and leaves the store of the first call as
    it is; and the like_count that [getPostById] reports for a post is the
    number of distinct users with a stored like on it.  ([id1] is the
    identifier that [randomUUID] draws for the first call, one that no
    stored like carries.) *)
Theorem likePost_twice_and_like_count (db : Db) (Hreach : reachable db) :
  (forall id1 t1 id2 t2 p u,
      post_exists db p = true ->
      profile_exists db u = true ->
      has (fun l => (Like.post_id l =? p) && (Like.user_id l =? u)) (likes db)
      = false ->
      has (fun l => Like.id l =? id1) (likes db) = false ->
      exists db1,
        likePost id1 t1 p u db = (Return true, db1)
        /\ likes db1 = likes db ++ [Like.mk id1 p u t1]
        /\ likePost id2 t2 p u db1 = (Return false, db1))
  /\ (forall p viewerId,
         post_exists db p = true ->
         exists view,
           getPostById db p viewerId = Some view
           /\ like_count view = length (distinct_likers db p)).
Proof.
  pose proof (reachable_ok db Hreach) as Hok. split.
  - intros id1 t1 id2 t2 p u Hp Hu Hnot Hfresh.
    exists (set_likes db (likes db ++ [Like.mk id1 p u t1])).
    split; [|split; [reflexivity|]].
    + rewrite likePost_snd. unfold insert_like. simpl.
      rewrite Hfresh, Hnot, Hp, Hu. simpl. now rewrite andb_false_r.
    + rewrite likePost_snd. unfold insert_like. simpl.
      rewrite !has_snoc. simpl. rewrite !String.eqb_refl. simpl.
      now rewrite orb_true_r.
  - intros p viewerId Hp.
    destruct (getPostById_found db p viewerId Hok Hp) as (view & Hget).
    exists view. split; [assumption|].
    rewrite (like_count_reported _ _ _ _ Hget).
    symmetry. now apply distinct_likers_count.
Qed.

Lemma likePost_twice_and_like_count_witness :
  (exists db1,
      likePost Scenario.L "2026-03-01 10:30:00" Scenario.P Scenario.alice
               Scenario.posted = (Return true, db1)
      /\ likes db1
         = likes Scenario.posted
           ++ [Like.mk Scenario.L Scenario.P Scenario.alice
                       "2026-03-01 10:30:00"]
      /\ likePost Scenario.L' "2026-03-01 10:31:00" Scenario.P Scenario.alice
                  db1 = (Return false, db1))
  /\ (exists view,
         getPostById Scenario.liked Scenario.P (Some Scenario.alice)
         = Some view
         /\ like_count view = length (distinct_likers Scenario.liked Scenario.P)).
Proof.
  split.
  - apply (proj1 (likePost_twice_and_like_count _
                    (reachable_run_calls _ _ (reachable_run_calls _ _ reachable_getDb))));
      reflexivity.
  - apply (proj2 (likePost_twice_and_like_count _
                    (reachable_run_calls _ _
                       (reachable_run_calls _ _
                          (reachable_run_calls _ _ reachable_getDb))))).
    reflexivity.
Defined.

(** ** The viewer's flag *)

Lemma is_liked_reported (db : Db) (id v : string) (view : PostWithDetails) :
  v <> "" ->
  getPostById db id (Some v) = Some view ->
  is_liked view
  = Some (Nat.ltb 0 (count (fun l => (Like.post_id l =? id)
                                     && (Like.user_id l =? v)) (likes db))).
Proof.
  intros Hv Hget. apply getPostById_inv in Hget.
  destruct Hget as (p & pr & _ & <- & ->). simpl.
  apply String.eqb_neq in Hv. now rewrite Hv.
Qed.

(** C5. For an existing post of a reachable store, a viewer [V] with a
    stored like on it and a viewer [W] without one (viewers are profile
    identifiers, hence not the empty string), [getPostById(id, V)] carries
    is_liked = true, [getPostById(id, W)] carries is_liked = false, and
    [getPostById(id)] without a viewer carries no is_liked field. *)
Theorem getPostById_is_liked (db : Db) (id V W : string) :
  reachable db ->
  post_exists db id = true ->
  V <> "" -> W <> "" ->
  has (fun l => (Like.post_id l =? id) && (Like.user_id l =? V)) (likes db)
  = true ->
  has (fun l => (Like.post_id l =? id) && (Like.user_id l =? W)) (likes db)
  = false ->
  (exists view, getPostById db id (Some V) = Some view
                /\ is_liked view = Some true)
  /\ (exists view, getPostById db id (Some W) = Some view
                   /\ is_liked view = Some false)
  /\ (exists view, getPostById db id None = Some view
                   /\ is_liked view = None).
Proof.
  intros Hreach Hid HV HW Hliked Hnot.
  pose proof (reachable_ok db Hreach) as Hok.
  repeat split.
  - destruct (getPostById_found db id (Some V) Hok Hid) as (view & Hget).
    exists view. split; [assumption|].
    rewrite (is_liked_reported _ _ _ _ HV Hget). f_equal.
    apply Nat.ltb_lt. now apply count_pos.
  - destruct (getPostById_found db id (Some W) Hok Hid) as (view & Hget).
    exists view. split; [assumption|].
    rewrite (is_liked_reported _ _ _ _ HW Hget). f_equal.
    now rewrite count_zero.
  - destruct (getPostById_found db id None Hok Hid) as (view & Hget).
    exists view. split; [assumption|].
    apply getPostById_inv in Hget.
    now destruct Hget as (p & pr & _ & _ & ->).
Qed.

Lemma getPostById_is_liked_witness :
  (exists view, getPostById Scenario.liked Scenario.P (Some Scenario.alice)
                = Some view /\ is_liked view = Some true)
  /\ (exists view, getPostById Scenario.liked Scenario.P (Some Scenario.bob)
                   = Some view /\ is_liked view = Some false)
  /\ (exists view, getPostById Scenario.liked Scenario.P None = Some view
                   /\ is_liked view = None).
Proof.
  apply getPostById_is_liked.
  - repeat apply reachable_run_calls. apply reachable_getDb.
  - reflexivity.
  - discriminate.
  - discriminate.
  - reflexivity.
  - reflexivity.
Defined.

(** ** Follows *)

Lemma isFollowing_has (db : Db) (a b : string) :
  isFollowing db a b
  = has (fun f => (Follow.follower_id f =? a) && (Follow.following_id f =? b))
        (follows db).
Proof.
  unfold isFollowing, get, has.
  induction (follows db) as [|f t IH]; simpl; [reflexivity|].
  destruct ((Follow.follower_id f =? a) && (Follow.following_id f =? b));
    simpl; [reflexivity|assumption].
Qed.

(** C3. In a reachable store [followUser(u, u)] returns false and changes
    nothing; [followUser(a, b)] on an edge that is already stored returns
    false and changes nothing; no stored edge has follower_id equal to
    following_id; and when [followUser(a, b)] returns true, [a] differs
    from [b], the edge was not stored before, and the store afterwards is
    the one before with exactly that new row added to follows. *)
Theorem followUser_rejects_self_and_duplicate (db : Db) :
  reachable db ->
  (forall id t u, followUser id t u u db = (Return false, db))
  /\ (forall id t a b,
         isFollowing db a b = true ->
         followUser id t a b db = (Return false, db))
  /\ Forall (fun f => Follow.follower_id f <> Follow.following_id f)
            (follows db)
  /\ (forall id t a b db',
         followUser id t a b db = (Return true, db') ->
         a <> b
         /\ isFollowing db a b = false
         /\ db' = set_follows db (follows db ++ [Follow.mk id a b t])
         /\ isFollowing db' a b = true).
Proof.
  intros Hreach. pose proof (reachable_ok db Hreach) as Hok.
  split; [|split; [|split]].
  - intros id t u. rewrite followUser_snd. now rewrite String.eqb_refl.
  - intros id t a b Hedge. rewrite isFollowing_has in Hedge.
    rewrite followUser_snd. destruct (a =? b); [reflexivity|].
    unfold insert_follow. simpl. now rewrite Hedge.
  - exact (ok_no_self_follow Hok).
  - intros id t a b db'. rewrite followUser_snd.
    destruct (a =? b) eqn:Hab; [discriminate|].
    apply String.eqb_neq in Hab. rewrite !isFollowing_has.
    unfold insert_follow. simpl.
    probe Huq; [discriminate|]. probe Hpk; [discriminate|].
    probe Hfk; [discriminate|].
    intros Heq. inversion Heq; subst. simpl.
    rewrite has_snoc. simpl. rewrite !String.eqb_refl.
    rewrite orb_true_r. auto.
Qed.

Lemma followUser_rejects_self_and_duplicate_witness :
  (forall id t u, followUser id t u u Scenario.followed
                  = (Return false, Scenario.followed))
  /\ (forall id t a b,
         isFollowing Scenario.followed a b = true ->
         followUser id t a b Scenario.followed
         = (Return false, Scenario.followed))
  /\ Forall (fun f => Follow.follower_id f <> Follow.following_id f)
            (follows Scenario.followed)
  /\ (forall id t a b db',
         followUser id t a b Scenario.followed = (Return true, db') ->
         a <> b
         /\ isFollowing Scenario.followed a b = false
         /\ db' = set_follows Scenario.followed
                    (follows Scenario.followed ++ [Follow.mk id a b t])
         /\ isFollowing db' a b = true).
Proof.
  apply followUser_rejects_self_and_duplicate.
  repeat apply reachable_run_calls. apply reachable_getDb.
Defined.

(** ** Unique keys *)

Lemma find_has {A} (f : A -> bool) (t : list A) :
  find f t <> None <-> has f t = true.
Proof.
  unfold has. induction t as [|x t IH]; simpl.
  - split; [congruence|discriminate].
  - destruct (f x); simpl; [split; [reflexivity|discriminate]|assumption].
Qed.

Lemma likePost_returns (id t p u : string) (db : Db) :
  exists b db', likePost id t p u db = (Return b, db').
Proof.
  rewrite likePost_snd. destruct (insert_like _ db) as [[[]|e] db']; eauto.
Qed.

Lemma followUser_returns (id t a b : string) (db : Db) :
  exists r db', followUser id t a b db = (Return r, db').
Proof.
  rewrite followUser_snd. destruct (a =? b); [eauto|].
  destruct (insert_follow _ db) as [[[]|e] db']; eauto.
Qed.

(** The claim fails for [createProfile]: with the username already taken
    the INSERT throws and nothing around it catches the error. *)
Lemma createProfile_taken_username_throws :
  createProfile "0c9a4e77-6b1d-4f52-8e03-d7a5b2c4e501" "2026-03-01 12:00:00"
                "atxp:acct_carol" "alice" "Carol" Scenario.registered
  = (Throw SQLITE_CONSTRAINT_UNIQUE, Scenario.registered).
Proof. reflexivity. Qed.

(** C7, as the code has it.  [likePost] and [followUser] never throw: a
    duplicate (post, user) pair, a duplicate (follower, following) pair and
    a self-follow all come back as false with the store untouched.
    [createProfile] has no handler: when the account or the username is
    already stored, the uniqueness error of the INSERT reaches the caller,
    and the store is untouched. *)
Theorem unique_violations (db : Db) :
  (forall id t p u, exists b db', likePost id t p u db = (Return b, db'))
  /\ (forall id t p u,
         has (fun l => (Like.post_id l =? p) && (Like.user_id l =? u))
             (likes db) = true ->
         likePost id t p u db = (Return false, db))
  /\ (forall id t a b, exists r db', followUser id t a b db = (Return r, db'))
  /\ (forall id t a b,
         a = b \/ isFollowing db a b = true ->
         followUser id t a b db = (Return false, db))
  /\ (forall id t acct uname dname,
         getProfileByAtxp db acct <> None
         \/ getProfileByUsername db uname <> None ->
         createProfile id t acct uname dname db
         = (Throw SQLITE_CONSTRAINT_UNIQUE, db)).
Proof.
  repeat split.
  - intros. apply likePost_returns.
  - intros id t p u Hdup. rewrite likePost_snd. unfold insert_like. simpl.
    now rewrite Hdup.
  - intros. apply followUser_returns.
  - intros id t a b [->|Hedge]; rewrite followUser_snd.
    + now rewrite String.eqb_refl.
    + destruct (a =? b); [reflexivity|]. rewrite isFollowing_has in Hedge.
      unfold insert_follow. simpl. now rewrite Hedge.
  - intros id t acct uname dname Hdup.
    unfold createProfile, bind, insert_profile. simpl.
    probe Hname; [reflexivity|]. probe Hacct; [reflexivity|].
    exfalso. destruct Hdup as [Hdup|Hdup]; apply find_has in Hdup;
      unfold getProfileByAtxp, getProfileByUsername in *; congruence.
Qed.

Lemma unique_violations_witness :
  likePost Scenario.L' "2026-03-01 10:31:00" Scenario.P Scenario.alice
           Scenario.liked = (Return false, Scenario.liked)
  /\ followUser Scenario.F "2026-03-01 11:01:00" Scenario.alice Scenario.bob
                Scenario.followed = (Return false, Scenario.followed)
  /\ createProfile "0c9a4e77-6b1d-4f52-8e03-d7a5b2c4e501"
                   "2026-03-01 12:00:00" "atxp:acct_alice" "alice2" "Alice"
                   Scenario.registered
     = (Throw SQLITE_CONSTRAINT_UNIQUE, Scenario.registered).
Proof.
  split; [|split].
  - apply (unique_violations Scenario.liked). reflexivity.
  - apply (unique_violations Scenario.followed). right. reflexivity.
  - apply (unique_violations Scenario.registered). left. discriminate.
Defined.

(** ** Profiles *)

Lemma find_snoc_new {A} (f : A -> bool) (t : list A) (r : A) :
  has f t = false -> f r = true -> find f (t ++ [r]) = Some r.
Proof.
  unfold has. induction t as [|x t IH]; simpl; intros Ht Hr.
  - now rewrite Hr.
  - apply orb_false_iff in Ht. destruct Ht as [Hx Ht]. rewrite Hx. auto.
Qed.

(** C10. When [createProfile] returns, the profile it returns has the id
    drawn by [randomUUID], the account, username and display name of the
    call, bio equal to the empty string and avatar_url NULL; the row is the
    one added to the table, and looking the id up right away yields the same
    profile. *)
Theorem createProfile_defaults (db db' : Db) (id t acct uname dname : string)
        (r : option Profile.t) :
  createProfile id t acct uname dname db = (Return r, db') ->
  r = Some (Profile.mk id acct uname dname "" None t)
  /\ profiles db' = profiles db ++ [Profile.mk id acct uname dname "" None t]
  /\ getProfileById db' id = r.
Proof.
  unfold createProfile, bind, insert_profile, query. simpl.
  probe Hpk; [discriminate|]. probe Hacct; [discriminate|].
  probe Hname; [discriminate|].
  intros Heq. inversion Heq; subst. clear Heq. unfold getProfileById. simpl.
  rewrite find_snoc_new; auto. simpl. apply String.eqb_refl.
Qed.

Lemma createProfile_defaults_witness :
  Some (Profile.mk Scenario.alice "atxp:acct_alice" "alice" "Alice" "" None
                   "2026-03-01 09:00:00")
  = Some (Profile.mk Scenario.alice "atxp:acct_alice" "alice" "Alice" "" None
                     "2026-03-01 09:00:00")
  /\ profiles (exec (CreateProfile Scenario.alice "2026-03-01 09:00:00"
                                   "atxp:acct_alice" "alice" "Alice") getDb)
     = profiles getDb
       ++ [Profile.mk Scenario.alice "atxp:acct_alice" "alice" "Alice" "" None
                      "2026-03-01 09:00:00"]
  /\ getProfileById
       (exec (CreateProfile Scenario.alice "2026-03-01 09:00:00"
                            "atxp:acct_alice" "alice" "Alice") getDb)
       Scenario.alice
     = Some (Profile.mk Scenario.alice "atxp:acct_alice" "alice" "Alice" ""
                        None "2026-03-01 09:00:00").
Proof.
  apply (createProfile_defaults getDb _ Scenario.alice "2026-03-01 09:00:00"
                                "atxp:acct_alice" "alice" "Alice").
  reflexivity.
Defined.

Lemma Forall2_map_same {A} (R : A -> A -> Prop) (f : A -> A) (t : list A) :
  (forall x, R x (f x)) -> Forall2 R t (map f t).
Proof. intros H. induction t; simpl; constructor; auto. Qed.

Lemma updated_as_applied (id : string) (updates : ProfileUpdates)
      (p : Profile.t) :
  updated_as id updates p
             (if Profile.id p =? id then apply_updates updates p else p).
Proof.
  unfold updated_as. destruct (Profile.id p =? id) eqn:Hid.
  - apply String.eqb_eq in Hid. simpl. repeat split; congruence.
  - apply String.eqb_neq in Hid. repeat split; congruence.
Qed.

Lemma updated_as_nothing (id : string) (p : Profile.t) :
  updated_as id (mkUpdates None None None) p p.
Proof. unfold updated_as. simpl. repeat split; reflexivity. Qed.

(** C8. [updateProfile(id, updates)] returns, and relates the profiles
    table before and after row by row: id, atxp_account, username and
    created_at are the same in every row, a row with another id is
    unchanged, and in the row with this id each of display_name, bio and
    avatar_url takes the value of the patch when the patch has one and
    keeps its stored value when the field is undefined.  No other table
    changes. *)
Theorem updateProfile_writes_only_supplied (db : Db) (id : string)
        (updates : ProfileUpdates) :
  exists db',
    updateProfile id updates db = (Return tt, db')
    /\ Forall2 (updated_as id updates) (profiles db) (profiles db')
    /\ foreign_keys db' = foreign_keys db
    /\ auth_cookies db' = auth_cookies db
    /\ posts db' = posts db
    /\ likes db' = likes db
    /\ comments db' = comments db
    /\ follows db' = follows db.
Proof.
  unfold updateProfile. destruct (0 <? sets_length updates)%nat eqn:Hsets.
  - eexists. split; [reflexivity|]. simpl. repeat split.
    apply Forall2_map_same. apply updated_as_applied.
  - exists db. split; [reflexivity|]. repeat split.
    destruct updates as [[d|] [b|] [a|]]; try discriminate.
    rewrite <- (map_id (profiles db)) at 2.
    apply Forall2_map_same. apply updated_as_nothing.
Qed.

(** ** Deleting a post *)

Lemma deletePost_run (id authorId : string) (db : Db) :
  deletePost id authorId db
  = match delete_post id authorId db with
    | (Return n, db') => (Return (0 <? n)%nat, db')
    | (Throw e, db') => (Throw e, db')
    end.
Proof.
  unfold deletePost, bind, ret. now destruct (delete_post _ _ db) as [[n|e] db'].
Qed.

Lemma filter_none {A} (f : A -> bool) (t : list A) :
  has f t = false -> filter (fun x => negb (f x)) t = t.
Proof.
  rewrite has_false. induction t as [|x t IH]; simpl; intros H;
    [reflexivity|].
  rewrite (H x (or_introl eq_refl)). simpl. f_equal. apply IH.
  intros y Hy. apply H. now right.
Qed.

Lemma filter_none_empty {A} (f : A -> bool) (t : list A) :
  has f t = false -> filter f t = [].
Proof.
  rewrite has_false. induction t as [|x t IH]; simpl; intros H;
    [reflexivity|].
  rewrite (H x (or_introl eq_refl)). apply IH.
  intros y Hy. apply H. now right.
Qed.

Lemma filter_length_le {A} (f : A -> bool) (t : list A) :
  length (filter f t) <= length t.
Proof. induction t as [|x t IH]; simpl; [lia|]. destruct (f x); simpl; lia. Qed.

(** a DELETE that matches a row reports at least one change *)
Lemma changes_pos {A} (f : A -> bool) (t : list A) :
  has f t = true -> 0 < changes t (filter (fun x => negb (f x)) t).
Proof.
  unfold changes, has. induction t as [|x t IH]; [discriminate|].
  cbn [existsb filter]. destruct (f x) eqn:Hx; cbn [negb orb length].
  - intros _. pose proof (filter_length_le (fun x => negb (f x)) t). lia.
  - intros Ht. specialize (IH Ht).
    pose proof (filter_length_le (fun x => negb (f x)) t). lia.
Qed.

Lemma set_posts_same (db : Db) : set_posts db (posts db) = db.
Proof. now destruct db. Qed.

(** The parts of the ownership gate that hold in every store: a delete that
    matches no row (no such id, or another author) returns false and
    changes nothing. *)
Lemma deletePost_no_match (db : Db) (id authorId : string) :
  has (delete_post_where id authorId) (posts db) = false ->
  deletePost id authorId db = (Return false, db).
Proof.
  intros Hnone. rewrite deletePost_run. unfold delete_post.
  rewrite (filter_none_empty _ _ Hnone), (filter_none _ _ Hnone). simpl.
  rewrite andb_false_r. unfold changes. rewrite Nat.sub_diag. simpl.
  now rewrite set_posts_same.
Qed.

(** A post that nothing references is removed by its author, and is gone
    for [getPostById] afterwards. *)
Lemma deletePost_owner_unreferenced (db : Db) (p : Post.t) :
  store_ok db -> In p (posts db) -> post_referenced db p = false ->
  exists db',
    deletePost (Post.id p) (Post.author_id p) db = (Return true, db')
    /\ forall viewerId, getPostById db' (Post.id p) viewerId = None.
Proof.
  intros Hok Hp Href. rewrite deletePost_run. unfold delete_post.
  assert (Hnoref : has (post_referenced db)
                       (filter (delete_post_where (Post.id p)
                                                  (Post.author_id p))
                               (posts db)) = false).
  { apply has_false. intros q Hq. apply filter_In in Hq.
    destruct Hq as [Hq Hw]. unfold delete_post_where in Hw.
    apply andb_true_iff in Hw. destruct Hw as [Hid _].
    apply String.eqb_eq in Hid. unfold post_referenced in *. now rewrite Hid. }
  rewrite Hnoref, andb_false_r. eexists. split.
  - f_equal. f_equal. apply Nat.ltb_lt. apply changes_pos. apply has_true.
    exists p. split; [assumption|]. unfold delete_post_where.
    now rewrite !String.eqb_refl.
  - intros viewerId. apply getPostById_missing. unfold post_exists. simpl.
    apply has_false. intros q Hq. apply filter_In in Hq.
    destruct Hq as [Hq Hkeep]. apply String.eqb_neq. intros Hid.
    assert (q = p); [|subst q].
    { pose proof (ok_post_pk Hok) as Hpk. unfold post_ids in Hpk.
      clear - Hpk Hq Hp Hid. induction (posts db) as [|x t IH];
        [destruct Hq|].
      simpl in Hpk. inversion Hpk as [|? ? Hx Ht]; subst.
      destruct Hq as [->|Hq], Hp as [->|Hp]; auto.
      - exfalso. apply Hx. rewrite Hid. now apply in_map.
      - exfalso. apply Hx. rewrite <- Hid. now apply in_map. }
    unfold delete_post_where in Hkeep. now rewrite !String.eqb_refl in Hkeep.
Qed.

(** Without foreign-key enforcement the DELETE is never refused: the
    author's delete returns true whatever still points at the post. *)
Lemma deletePost_owner_foreign_keys_off (db : Db) (p : Post.t) :
  foreign_keys db = false -> In p (posts db) ->
  exists db',
    deletePost (Post.id p) (Post.author_id p) db = (Return true, db')
    /\ likes db' = likes db /\ comments db' = comments db.
Proof.
  intros Hfk Hp. rewrite deletePost_run. unfold delete_post. rewrite Hfk.
  simpl.
  exists (set_posts db
            (filter (fun q => negb (delete_post_where (Post.id p)
                                                      (Post.author_id p) q))
                    (posts db))).
  split; [|split; reflexivity].
  f_equal. f_equal. apply Nat.ltb_lt. apply changes_pos. apply has_true.
  exists p. split; [assumption|]. unfold delete_post_where.
  now rewrite !String.eqb_refl.
Qed.

(** C2 at the failing input.  Post [P] belongs to bob and carries one like
    by alice.  [deletePost(P, bob)] neither returns true nor removes the
    post: the DELETE violates the foreign key of likes.post_id and the
    error reaches the caller; the post is still there afterwards. *)
Theorem deletePost_of_liked_post_throws :
  deletePost Scenario.P Scenario.bob Scenario.liked
  = (Throw SQLITE_CONSTRAINT_FOREIGNKEY, Scenario.liked)
  /\ reachable Scenario.liked
  /\ getProfileById Scenario.liked Scenario.bob <> None
  /\ (exists p, In p (posts Scenario.liked) /\ Post.id p = Scenario.P
                /\ Post.author_id p = Scenario.bob)
  /\ getPostById Scenario.liked Scenario.P None <> None.
Proof.
  split; [reflexivity|]. split.
  - repeat apply reachable_run_calls. apply reachable_getDb.
  - split; [discriminate|]. split; [|discriminate].
    eexists. split; [left; reflexivity|]. split; reflexivity.
Qed.

Lemma deleted_flag {A} (f : A -> bool) (t : list A) :
  (0 <? changes t (filter (fun x => negb (f x)) t))%nat = has f t.
Proof.
  destruct (has f t) eqn:Hf.
  - apply Nat.ltb_lt. now apply changes_pos.
  - rewrite (filter_none _ _ Hf). unfold changes. now rewrite Nat.sub_diag.
Qed.

(** In a reachable store the author cannot delete a post that a like or
    a comment references: the DELETE is refused and nothing is removed. *)
Theorem deletePost_of_referenced_post_throws (db : Db) (p : Post.t) :
  reachable db -> In p (posts db) -> post_referenced db p = true ->
  deletePost (Post.id p) (Post.author_id p) db
  = (Throw SQLITE_CONSTRAINT_FOREIGNKEY, db).
Proof.
  intros Hreach Hp Href. pose proof (reachable_ok db Hreach) as Hok.
  rewrite deletePost_run. unfold delete_post.
  rewrite (ok_foreign_keys Hok).
  assert (Hdoomed : has (post_referenced db)
                        (filter (delete_post_where (Post.id p)
                                                   (Post.author_id p))
                                (posts db)) = true).
  { apply has_true. exists p. split; [|assumption].
    apply filter_In. split; [assumption|].
    unfold delete_post_where. now rewrite !String.eqb_refl. }
  now rewrite Hdoomed.
Qed.

Lemma deletePost_of_referenced_post_throws_witness :
  deletePost Scenario.P Scenario.bob Scenario.discussed
  = (Throw SQLITE_CONSTRAINT_FOREIGNKEY, Scenario.discussed).
Proof.
  apply (deletePost_of_referenced_post_throws
           Scenario.discussed
           (Post.mk Scenario.P Scenario.bob "/uploads/p.webp" "hi"
                    "2026-03-01 10:00:00")).
  - repeat apply reachable_run_calls. apply reachable_getDb.
  - left. reflexivity.
  - reflexivity.
Defined.

(** What holds of a delete that succeeds.  In a reachable store
    [deletePost] returns true only for a post that no like and no comment
    references; it then removes the rows of posts with this id and author
    and changes no other table.  So no like and no comment ever loses its
    post. *)
Theorem deletePost_true_only_unreferenced (db db' : Db)
        (id authorId : string) :
  reachable db ->
  deletePost id authorId db = (Return true, db') ->
  has (fun l => Like.post_id l =? id) (likes db) = false
  /\ has (fun c => Comment.post_id c =? id) (comments db) = false
  /\ posts db'
     = filter (fun p => negb (delete_post_where id authorId p)) (posts db)
  /\ likes db' = likes db
  /\ comments db' = comments db
  /\ profiles db' = profiles db
  /\ follows db' = follows db.
Proof.
  intros Hreach. pose proof (reachable_ok db Hreach) as Hok.
  rewrite deletePost_run. unfold delete_post.
  rewrite (ok_foreign_keys Hok). cbn [andb].
  destruct (has (post_referenced db)
                (filter (delete_post_where id authorId) (posts db)))
    eqn:Href; [discriminate|].
  intros Heq. inversion Heq as [[Hflag Hdb]]. clear Heq.
  rewrite deleted_flag in Hflag. apply has_true in Hflag.
  destruct Hflag as (p0 & Hp0 & Hw).
  rewrite has_false in Href.
  assert (Hin : In p0 (filter (delete_post_where id authorId) (posts db)))
    by (apply filter_In; auto).
  specialize (Href p0 Hin). unfold post_referenced in Href.
  apply orb_false_iff in Href. destruct Href as [Hl Hc].
  unfold delete_post_where in Hw. apply andb_true_iff in Hw.
  destruct Hw as [Hid _]. apply String.eqb_eq in Hid. rewrite Hid in Hl, Hc.
  simpl. repeat split; assumption || reflexivity.
Qed.

Lemma deletePost_true_only_unreferenced_witness :
  let db' := exec (DeletePost Scenario.P' Scenario.alice) Scenario.discussed in
  has (fun l => Like.post_id l =? Scenario.P') (likes Scenario.discussed)
  = false
  /\ has (fun c => Comment.post_id c =? Scenario.P')
         (comments Scenario.discussed) = false
  /\ posts db'
     = filter (fun p => negb (delete_post_where Scenario.P' Scenario.alice p))
              (posts Scenario.discussed)
  /\ likes db' = likes Scenario.discussed
  /\ comments db' = comments Scenario.discussed
  /\ profiles db' = profiles Scenario.discussed
  /\ follows db' = follows Scenario.discussed.
Proof.
  apply (deletePost_true_only_unreferenced Scenario.discussed).
  - repeat apply reachable_run_calls. apply reachable_getDb.
  - reflexivity.
Defined.


(** ** Foreign keys at write time *)

(** C6. In a reachable store a write whose referenced identifier is not
    stored adds no row: [createPost] with an unknown author and
    [addComment] with an unknown post or author throw and change nothing,
    [likePost] with an unknown post or user and [followUser] with an unknown
    profile return false and change nothing.  Hence every stored post,
    like, comment and follow references stored identifiers. *)
Theorem writes_reference_existing_rows (db : Db) :
  reachable db ->
  (forall id t authorId imageUrl caption,
      profile_exists db authorId = false ->
      exists e, createPost id t authorId imageUrl caption db = (Throw e, db))
  /\ (forall id t postId userId,
         post_exists db postId = false \/ profile_exists db userId = false ->
         likePost id t postId userId db = (Return false, db))
  /\ (forall id t postId authorId content,
         post_exists db postId = false \/ profile_exists db authorId = false ->
         exists e,
           addComment id t postId authorId content db = (Throw e, db))
  /\ (forall id t followerId followingId,
         profile_exists db followerId = false
         \/ profile_exists db followingId = false ->
         followUser id t followerId followingId db = (Return false, db))
  /\ Forall (fun p => profile_exists db (Post.author_id p) = true) (posts db)
  /\ Forall (fun l => post_exists db (Like.post_id l) = true
                      /\ profile_exists db (Like.user_id l) = true) (likes db)
  /\ Forall (fun c => post_exists db (Comment.post_id c) = true
                      /\ profile_exists db (Comment.author_id c) = true)
            (comments db)
  /\ Forall (fun f => profile_exists db (Follow.follower_id f) = true
                      /\ profile_exists db (Follow.following_id f) = true)
            (follows db).
Proof.
  intros Hreach. pose proof (reachable_ok db Hreach) as Hok.
  pose proof (ok_foreign_keys Hok) as Hfk.
  repeat match goal with |- _ /\ _ => split end.
  - intros id t a img cap Ha. unfold createPost, bind, insert_post. simpl.
    rewrite Hfk, Ha. simpl. probe Hpk; eauto.
  - intros id t p u Hmiss. rewrite likePost_snd. unfold insert_like. simpl.
    rewrite Hfk.
    assert (Hck : negb (post_exists db p && profile_exists db u) = true)
      by (destruct Hmiss as [-> | ->]; [reflexivity|apply negb_true_iff, andb_false_r]).
    rewrite Hck. simpl. probes; reflexivity.
  - intros id t p a c Hmiss. unfold addComment, bind, insert_comment. simpl.
    rewrite Hfk.
    assert (Hck : negb (post_exists db p && profile_exists db a) = true)
      by (destruct Hmiss as [-> | ->]; [reflexivity|apply negb_true_iff, andb_false_r]).
    rewrite Hck. simpl. probe Hpk; eauto.
  - intros id t a b Hmiss. rewrite followUser_snd.
    destruct (a =? b); [reflexivity|]. unfold insert_follow. simpl.
    rewrite Hfk.
    assert (Hck : negb (profile_exists db a && profile_exists db b) = true)
      by (destruct Hmiss as [-> | ->]; [reflexivity|apply negb_true_iff, andb_false_r]).
    rewrite Hck. simpl. probes; reflexivity.
  - refine (Forall_impl _ _ (ok_posts_fk Hok)). intros p.
    now rewrite profile_exists_iff.
  - refine (Forall_impl _ _ (ok_likes_fk Hok)). intros l.
    now rewrite post_exists_iff, profile_exists_iff.
  - refine (Forall_impl _ _ (ok_comments_fk Hok)). intros c.
    now rewrite post_exists_iff, profile_exists_iff.
  - refine (Forall_impl _ _ (ok_follows_fk Hok)). intros f.
    now rewrite !profile_exists_iff.
Qed.

Lemma writes_reference_existing_rows_witness :
  (exists e,
      createPost Scenario.P' "2026-03-01 10:20:00"
                 "0c9a4e77-6b1d-4f52-8e03-d7a5b2c4e501" "/uploads/q.webp"
                 "two" Scenario.discussed = (Throw e, Scenario.discussed))
  /\ likePost Scenario.L' "2026-03-02 09:00:00"
              "9d4e8c11-52b7-4f6e-8a30-41c7d9e0a1ff" Scenario.bob
              Scenario.discussed = (Return false, Scenario.discussed)
  /\ (exists e,
         addComment Scenario.C "2026-03-02 09:00:00" Scenario.P
                    "0c9a4e77-6b1d-4f52-8e03-d7a5b2c4e501" "hello"
                    Scenario.discussed = (Throw e, Scenario.discussed))
  /\ followUser Scenario.F "2026-03-02 09:00:00" Scenario.alice
                "0c9a4e77-6b1d-4f52-8e03-d7a5b2c4e501" Scenario.discussed
     = (Return false, Scenario.discussed).
Proof.
  assert (Hreach : reachable Scenario.discussed)
    by (repeat apply reachable_run_calls; apply reachable_getDb).
  pose proof (writes_reference_existing_rows Scenario.discussed Hreach)
    as (Hpost & Hlike & Hcomment & Hfollow & _).
  split; [|split; [|split]].
  - apply Hpost. reflexivity.
  - apply Hlike. left. reflexivity.
  - apply Hcomment. right. reflexivity.
  - apply Hfollow. right. reflexivity.
Defined.

(** ** The feed *)

Lemma sorted_weaken {A} (R R' : A -> A -> Prop) (l : list A) :
  (forall x y, R x y -> R' x y) -> StronglySorted R l -> StronglySorted R' l.
Proof.
  intros HR. induction 1 as [|x l Hs IH Hx]; constructor; [assumption|].
  refine (Forall_impl _ _ Hx). auto.
Qed.

Lemma post_select_details (db : Db) (viewerId : option string)
      (row : Post.t * Profile.t) :
  post (select_details db viewerId row) = fst row.
Proof. now destruct row. Qed.

Lemma map_post_select_details (db : Db) (viewerId : option string)
      (rows : list (Post.t * Profile.t)) :
  map post (map (select_details db viewerId) rows) = map fst rows.
Proof.
  rewrite map_map. apply map_ext. apply post_select_details.
Qed.

(** the rows of a query, ordered and cut, come out as strictly descending
    views *)
Lemma views_descending (db : Db) (viewerId : option string) (limit offset : Z)
      (rows : list (Post.t * Profile.t)) :
  NoDup (map row_created_at rows) ->
  StronglySorted newer
    (map (select_details db viewerId)
         (page limit offset (order_by (desc row_created_at) rows))).
Proof.
  intros Hnd. apply sorted_map. apply sorted_page.
  refine (sorted_weaken _ _ _ _ (order_by_desc_sorted _ row_created_at _ Hnd)).
  intros x y Hxy. unfold newer. now rewrite !post_select_details.
Qed.

Lemma join_created_at_nodup (db : Db) :
  store_ok db -> NoDup (map Post.created_at (posts db)) ->
  NoDup (map row_created_at (posts_join_profiles db)).
Proof.
  intros Hok Hnd. rewrite <- (posts_join_posts db Hok) in Hnd.
  now rewrite map_map in Hnd.
Qed.

Lemma in_page {A} (limit offset : Z) (rows : list A) (x : A) :
  In x (page limit offset rows) -> In x rows.
Proof.
  unfold page. intros Hin.
  rewrite <- (firstn_skipn (Z.to_nat offset) rows). apply in_or_app. right.
  destruct (limit <? 0)%Z; [assumption|].
  rewrite <- (firstn_skipn (Z.to_nat limit)). apply in_or_app. now left.
Qed.

(** ** Binding LIMIT and OFFSET *)

Lemma limit_offset_returns {A} (limit offset : Z) (rows : list A) :
  binds_as_integer limit = true -> binds_as_integer offset = true ->
  limit_offset limit offset rows = Return (page limit offset rows).
Proof. intros Hl Ho. unfold limit_offset. now rewrite Hl, Ho. Qed.

Lemma limit_offset_inv {A} (limit offset : Z) (rows l : list A) :
  limit_offset limit offset rows = Return l ->
  l = page limit offset rows.
Proof.
  unfold limit_offset.
  destruct (binds_as_integer limit && binds_as_integer offset);
    intros Heq; inversion Heq; reflexivity.
Qed.

Lemma limit_offset_all {A} (rows : list A) :
  limit_offset (-1) 0 rows = Return rows.
Proof. reflexivity. Qed.

Lemma select_limit_offset {A B} (f : A -> B) (limit offset : Z)
      (rows : list A) :
  select f (limit_offset limit offset rows)
  = limit_offset limit offset (map f rows).
Proof.
  unfold limit_offset.
  destruct (binds_as_integer limit && binds_as_integer offset); simpl;
    [|reflexivity].
  now rewrite map_page.
Qed.

(** a page is cut from the rows that the query returns without a limit *)
Lemma limit_offset_of_all {A} (limit offset : Z) (rows : list A) :
  exists all,
    limit_offset (-1) 0 rows = Return all
    /\ limit_offset limit offset rows = limit_offset limit offset all.
Proof. exists rows. split; reflexivity. Qed.

Lemma getFeed_rows (db : Db) (viewerId : option string) (limit offset : Z) :
  getFeed db viewerId limit offset
  = limit_offset limit offset
      (map (select_details db viewerId)
           (order_by (desc row_created_at) (posts_join_profiles db))).
Proof. apply select_limit_offset. Qed.

Lemma getPostsByUser_rows (db : Db) (userId : string)
      (viewerId : option string) (limit offset : Z) :
  getPostsByUser db userId viewerId limit offset
  = limit_offset limit offset
      (map (select_details db viewerId)
           (order_by (desc row_created_at)
                     (filter (fun row => Post.author_id (fst row) =? userId)
                             (posts_join_profiles db)))).
Proof. apply select_limit_offset. Qed.

(** What the feed queries guarantee, in terms of the stored created_at
    text.  In a reachable store whose posts have pairwise-distinct
    created_at values, [getFeed] and [getPostsByUser], called with a limit
    and an offset that bind as integers, return views in strictly
    descending order of created_at as SQLite compares it,
    [getPostsByUser] only posts of that author; a page is the LIMIT/OFFSET
    cut of the whole ordered feed, which holds every stored post once.
    When the posts are [p1], [p2], [p3] with created_at values
    t1 < t2 < t3, [getFeed(_, 3, 0)] returns them as [p3; p2; p1] and
    [getFeed(_, 1, 1)] returns exactly [p2]. *)
Theorem feed_descending_created_at (db : Db) :
  reachable db ->
  NoDup (map Post.created_at (posts db)) ->
  (forall viewerId limit offset,
      binds_as_integer limit = true -> binds_as_integer offset = true ->
      exists views,
        getFeed db viewerId limit offset = Return views
        /\ StronglySorted newer views)
  /\ (forall userId viewerId limit offset,
         binds_as_integer limit = true -> binds_as_integer offset = true ->
         exists views,
           getPostsByUser db userId viewerId limit offset = Return views
           /\ StronglySorted newer views
           /\ Forall (fun v => Post.author_id (post v) = userId) views)
  /\ (forall viewerId limit offset,
         exists feed,
           getFeed db viewerId (-1) 0 = Return feed
           /\ getFeed db viewerId limit offset
              = limit_offset limit offset feed)
  /\ (forall userId viewerId limit offset,
         exists theirs,
           getPostsByUser db userId viewerId (-1) 0 = Return theirs
           /\ getPostsByUser db userId viewerId limit offset
              = limit_offset limit offset theirs)
  /\ (forall viewerId,
         exists feed,
           getFeed db viewerId (-1) 0 = Return feed
           /\ Permutation (map post feed) (posts db))
  /\ (forall p1 p2 p3 viewerId,
         Permutation (posts db) [p1; p2; p3] ->
         later (Post.created_at p2) (Post.created_at p1) ->
         later (Post.created_at p3) (Post.created_at p2) ->
         select post (getFeed db viewerId 3 0) = Return [p3; p2; p1]
         /\ select post (getFeed db viewerId 1 1) = Return [p2]).
Proof.
  intros Hreach Hnd. pose proof (reachable_ok db Hreach) as Hok.
  pose proof (join_created_at_nodup db Hok Hnd) as Hjoin.
  assert (Hall : forall viewerId,
             map post (map (select_details db viewerId)
                           (order_by (desc row_created_at)
                                     (posts_join_profiles db)))
             = map fst (order_by (desc row_created_at)
                                 (posts_join_profiles db)))
    by (intros viewerId; apply map_post_select_details).
  assert (Hperm : forall viewerId,
             Permutation
               (map post (map (select_details db viewerId)
                              (order_by (desc row_created_at)
                                        (posts_join_profiles db))))
               (posts db)).
  { intros viewerId. rewrite Hall. rewrite <- (posts_join_posts db Hok) at 1.
    apply Permutation_map, order_by_perm. }
  repeat match goal with |- _ /\ _ => split end.
  - intros viewerId limit offset Hl Ho.
    rewrite getFeed_rows, (limit_offset_returns _ _ _ Hl Ho).
    eexists. split; [reflexivity|]. rewrite <- map_page.
    now apply views_descending.
  - intros userId viewerId limit offset Hl Ho.
    rewrite getPostsByUser_rows, (limit_offset_returns _ _ _ Hl Ho).
    eexists. split; [reflexivity|]. rewrite <- map_page. split.
    + apply views_descending. now apply NoDup_map_filter.
    + apply Forall_forall. intros v Hv.
      apply in_map_iff in Hv. destruct Hv as (row & <- & Hrow).
      rewrite post_select_details.
      apply in_page in Hrow.
      apply (Permutation_in _ (order_by_perm _ _ _)) in Hrow.
      apply filter_In in Hrow. now apply String.eqb_eq.
  - intros viewerId limit offset. rewrite !getFeed_rows.
    apply limit_offset_of_all.
  - intros userId viewerId limit offset. rewrite !getPostsByUser_rows.
    apply limit_offset_of_all.
  - intros viewerId. rewrite getFeed_rows, limit_offset_all.
    eexists. split; [reflexivity|apply Hperm].
  - intros p1 p2 p3 viewerId Hposts H12 H23.
    assert (Hfull : map post (map (select_details db viewerId)
                                  (order_by (desc row_created_at)
                                            (posts_join_profiles db)))
                    = [p3; p2; p1]).
    { apply (sorted_perm_unique _ Post.created_at).
      - rewrite Hall. apply sorted_map.
        apply (order_by_desc_sorted _ row_created_at). assumption.
      - repeat constructor; try assumption.
        now apply (later_trans _ (Post.created_at p2)).
      - rewrite Hperm, Hposts. change [p3; p2; p1] with (rev [p1; p2; p3]).
        apply Permutation_rev. }
    rewrite !getFeed_rows, !select_limit_offset, Hfull.
    split; reflexivity.
Qed.

Lemma feed_descending_created_at_witness :
  let p1 := Post.mk Scenario.P Scenario.bob "/uploads/p.webp" "hi"
                    "2026-03-01 10:00:00" in
  let p2 := Post.mk Scenario.P' Scenario.alice "/uploads/q.webp" "two"
                    "2026-03-01 10:20:00" in
  let p3 := Post.mk Scenario.P'' Scenario.bob "/uploads/r.webp" "three"
                    "2026-03-02 08:00:00" in
  (exists views,
      getFeed Scenario.three_posts (Some Scenario.alice) 2 1 = Return views
      /\ StronglySorted newer views)
  /\ select post (getFeed Scenario.three_posts (Some Scenario.alice) 3 0)
     = Return [p3; p2; p1]
  /\ select post (getFeed Scenario.three_posts (Some Scenario.alice) 1 1)
     = Return [p2].
Proof.
  intros p1 p2 p3.
  assert (Hreach : reachable Scenario.three_posts)
    by (repeat apply reachable_run_calls; apply reachable_getDb).
  assert (Hnd : NoDup (map Post.created_at (posts Scenario.three_posts))).
  { repeat constructor; simpl; intuition discriminate. }
  pose proof (feed_descending_created_at Scenario.three_posts Hreach Hnd)
    as (Hfeed & _ & _ & _ & _ & Hthree).
  split; [apply Hfeed; reflexivity|].
  apply (Hthree p1 p2 p3); reflexivity.
Defined.

(** C4 at the failing input.  The server starts at 12:00:00 UTC and seeds
    the store: the seed posts get created_at values two, eight and
    twenty-six hours in the past, written by [toISOString].  Alice posts
    [P] five minutes after the start, with the CURRENT_TIMESTAMP default.
    [P] is the newest post, yet [getFeed] lists it third, below the two
    seed posts of the same day: their created_at text has a T where the
    default has a space, and the comparison is made on the text. *)
Theorem getFeed_lists_newest_post_third :
  reachable Scenario.first_post
  /\ select (fun v => (Post.id (post v), Post.created_at (post v)))
            (getFeed Scenario.first_post None 20 0)
     = Return [ (Scenario.seed_id 0, "2026-03-01T10:00:00.000Z");
                (Scenario.seed_id 1, "2026-03-01T04:00:00.000Z");
                (Scenario.P, "2026-03-01 12:05:00");
                (Scenario.seed_id 2, "2026-02-28T10:00:00.000Z") ]
  /\ toISOString (Scenario.boot - 2 * 60 * 60 * 1000)
     = "2026-03-01T10:00:00.000Z"
  /\ current_timestamp (Scenario.boot + 5 * 60 * 1000)
     = "2026-03-01 12:05:00"
  /\ (Scenario.boot - 2 * 60 * 60 * 1000 < Scenario.boot + 5 * 60 * 1000)%Z
  /\ NoDup (map Post.created_at (posts Scenario.first_post)).
Proof.
  split; [repeat apply reachable_run_calls; apply reachable_getDb|].
  split; [vm_compute; reflexivity|].
  split; [vm_compute; reflexivity|].
  split; [vm_compute; reflexivity|].
  split; [reflexivity|].
  vm_compute. repeat constructor; simpl; intuition discriminate.
Qed.

(** * The rest of the module *)

(** ** The remaining keys are kept *)

Ltac split_keys H :=
  destruct H as [Hck Hacc Hname Hlpk Hcpk Hfpk];
  constructor; simpl; try assumption.

Lemma update_profile_columns {K} (col : Profile.t -> K) (id : string)
      (updates : ProfileUpdates) (t : list Profile.t) :
  (forall p, col (apply_updates updates p) = col p) ->
  map col (map (fun p => if Profile.id p =? id then apply_updates updates p
                         else p) t)
  = map col t.
Proof.
  intros Hcol. rewrite map_map. apply map_ext. intros p.
  destruct (Profile.id p =? id); [apply Hcol|reflexivity].
Qed.

Lemma statements_keep_keys (db : Db) :
  keys_ok db ->
  (forall r, keys_ok (snd (insert_auth_cookie r db)))
  /\ (forall r, keys_ok (snd (insert_profile r db)))
  /\ (forall r, keys_ok (snd (insert_post r db)))
  /\ (forall r, keys_ok (snd (insert_like r db)))
  /\ (forall r, keys_ok (snd (insert_comment r db)))
  /\ (forall r, keys_ok (snd (insert_follow r db)))
  /\ (forall id u, keys_ok (snd (update_profile id u db)))
  /\ (forall id a, keys_ok (snd (delete_post id a db)))
  /\ (forall p u, keys_ok (snd (delete_like p u db)))
  /\ (forall id a, keys_ok (snd (delete_comment id a db)))
  /\ (forall a b, keys_ok (snd (delete_follow a b db))).
Proof.
  intros H. repeat match goal with |- _ /\ _ => split end.
  - intros r. unfold insert_auth_cookie. probe Hpk; simpl; [assumption|].
    split_keys H. apply NoDup_map_snoc; [assumption|].
    now apply probe_id_false.
  - intros r. unfold insert_profile.
    probe Hpk; simpl; [assumption|]. probe Hacct; simpl; [assumption|].
    probe Hnm; simpl; [assumption|].
    split_keys H; (apply NoDup_map_snoc; [assumption|]);
      now apply probe_id_false.
  - intros r. unfold insert_post.
    probe Hpk; simpl; [assumption|]. probe Hfk; simpl; [assumption|].
    now split_keys H.
  - intros r. unfold insert_like.
    probe Hpk; simpl; [assumption|]. probe Huq; simpl; [assumption|].
    probe Hfk; simpl; [assumption|].
    split_keys H. apply NoDup_map_snoc; [assumption|].
    now apply probe_id_false.
  - intros r. unfold insert_comment.
    probe Hpk; simpl; [assumption|]. probe Hfk; simpl; [assumption|].
    split_keys H. apply NoDup_map_snoc; [assumption|].
    now apply probe_id_false.
  - intros r. unfold insert_follow.
    probe Hpk; simpl; [assumption|]. probe Huq; simpl; [assumption|].
    probe Hfk; simpl; [assumption|].
    split_keys H. apply NoDup_map_snoc; [assumption|].
    now apply probe_id_false.
  - intros id u. unfold update_profile. simpl.
    split_keys H; rewrite update_profile_columns; auto.
  - intros id a. unfold delete_post. probe Hfk; simpl; [assumption|].
    now split_keys H.
  - intros p u. unfold delete_like. simpl. split_keys H.
    now apply NoDup_map_filter.
  - intros id a. unfold delete_comment. simpl. split_keys H.
    now apply NoDup_map_filter.
  - intros a b. unfold delete_follow. simpl. split_keys H.
    now apply NoDup_map_filter.
Qed.

Lemma seed_posts_from_keys (randomUUID : nat -> string) (now : Z)
      (demoAgentId : string) (rest : list (string * string)) :
  forall (i : nat) (db : Db),
    keys_ok db ->
    keys_ok (snd (seed_posts_from randomUUID now demoAgentId i rest db)).
Proof.
  induction rest as [|[image_url caption] rest IH]; intros i db H; simpl.
  - assumption.
  - apply bind_keeps.
    + now apply statements_keep_keys.
    + intros _ db' H'. now apply IH.
Qed.

Lemma exec_keys (c : Call) (db : Db) : keys_ok db -> keys_ok (exec c db).
Proof.
  intros H. destruct c; cbn [exec].
  - unfold createAuthCookie. keeps; auto. now apply statements_keep_keys.
  - unfold createProfile. keeps; auto. now apply statements_keep_keys.
  - unfold updateProfile. destruct (0 <? _)%nat; keeps; auto.
    now apply statements_keep_keys.
  - unfold createPost. keeps; auto. now apply statements_keep_keys.
  - unfold deletePost. keeps; auto. now apply statements_keep_keys.
  - unfold likePost. keeps; auto. now apply statements_keep_keys.
  - unfold unlikePost. keeps; auto. now apply statements_keep_keys.
  - unfold addComment. keeps; auto. now apply statements_keep_keys.
  - unfold deleteComment. keeps; auto. now apply statements_keep_keys.
  - unfold followUser. destruct (followerId =? followingId); keeps; auto.
    now apply statements_keep_keys.
  - unfold unfollowUser. keeps; auto. now apply statements_keep_keys.
  - unfold seedDemoData. keeps; auto.
    destruct (0 <? a)%nat; keeps; auto.
    + now apply statements_keep_keys.
    + now apply seed_posts_from_keys.
Qed.

Lemma reachable_keys (db : Db) : reachable db -> keys_ok db.
Proof.
  induction 1 as [|db c _ IH]; [|now apply exec_keys].
  constructor; simpl; constructor.
Qed.

(** ** Lookups by key *)

Lemma find_app_found {A} (f : A -> bool) (t t' : list A) (x : A) :
  find f t = Some x -> find f (t ++ t') = Some x.
Proof.
  induction t as [|y t IH]; simpl; [discriminate|].
  destruct (f y); [trivial|assumption].
Qed.

Lemma find_snoc_other {A} (f : A -> bool) (t : list A) (r : A) :
  f r = false -> find f (t ++ [r]) = find f t.
Proof.
  intros Hr. induction t as [|y t IH]; simpl; [now rewrite Hr|].
  now destruct (f y).
Qed.

(** a lookup on a column without duplicates finds the row that holds the
    key *)
Lemma find_unique_key {A} (key : A -> string) (t : list A) (p : A) :
  NoDup (map key t) -> In p t ->
  find (fun x => key x =? key p) t = Some p.
Proof.
  induction t as [|y t IH]; simpl; intros Hnd Hin; [destruct Hin|].
  inversion Hnd as [|? ? Hy Ht]; subst.
  destruct Hin as [->|Hin]; [now rewrite String.eqb_refl|].
  destruct (key y =? key p) eqn:Hk; [|now apply IH].
  apply String.eqb_eq in Hk. exfalso. apply Hy. rewrite Hk. now apply in_map.
Qed.

(** X1. In a reachable store every stored profile is the one that each of
    the three lookups returns for its own id, username and account:
    [getProfileById], [getProfileByUsername] and [getProfileByAtxp] never
    answer with another profile that shares the key. *)
Theorem profile_lookups_agree (db : Db) (p : Profile.t) :
  reachable db -> In p (profiles db) ->
  getProfileById db (Profile.id p) = Some p
  /\ getProfileByUsername db (Profile.username p) = Some p
  /\ getProfileByAtxp db (Profile.atxp_account p) = Some p.
Proof.
  intros Hreach Hin.
  pose proof (reachable_ok db Hreach) as Hok.
  pose proof (reachable_keys db Hreach) as Hkeys.
  unfold getProfileById, getProfileByUsername, getProfileByAtxp.
  repeat split; apply find_unique_key; try assumption.
  - exact (ok_profile_pk Hok).
  - exact (ok_username_unique Hkeys).
  - exact (ok_account_unique Hkeys).
Qed.

Lemma profile_lookups_agree_witness :
  let bob := Profile.mk Scenario.bob "atxp:acct_bob" "bob" "Bob" "" None
                        "2026-03-01 09:05:00" in
  getProfileById Scenario.discussed Scenario.bob = Some bob
  /\ getProfileByUsername Scenario.discussed "bob" = Some bob
  /\ getProfileByAtxp Scenario.discussed "atxp:acct_bob" = Some bob.
Proof.
  intros bob. apply (profile_lookups_agree Scenario.discussed bob).
  - repeat apply reachable_run_calls. apply reachable_getDb.
  - right. left. reflexivity.
Defined.

(** ** What no call takes away *)

Lemma keeps_identities_refl (d : Db) : keeps_identities d d.
Proof.
  split; [auto|]. intros id p Hp. exists p. repeat split; assumption.
Qed.

Lemma find_updated (id k : string) (updates : ProfileUpdates)
      (t : list Profile.t) (p : Profile.t) :
  find (fun x => Profile.id x =? k) t = Some p ->
  find (fun x => Profile.id x =? k)
       (map (fun x => if Profile.id x =? id then apply_updates updates x
                      else x) t)
  = Some (if Profile.id p =? id then apply_updates updates p else p).
Proof.
  induction t as [|y t IH]; simpl; [discriminate|].
  assert (Hid : Profile.id (if Profile.id y =? id
                            then apply_updates updates y else y)
                = Profile.id y) by now destruct (Profile.id y =? id).
  rewrite Hid. destruct (Profile.id y =? k); [|assumption].
  intros Heq. now inversion Heq.
Qed.

Lemma statements_keep_identities (d0 d : Db) :
  keeps_identities d0 d ->
  (forall r, keeps_identities d0 (snd (insert_auth_cookie r d)))
  /\ (forall r, keeps_identities d0 (snd (insert_profile r d)))
  /\ (forall r, keeps_identities d0 (snd (insert_post r d)))
  /\ (forall r, keeps_identities d0 (snd (insert_like r d)))
  /\ (forall r, keeps_identities d0 (snd (insert_comment r d)))
  /\ (forall r, keeps_identities d0 (snd (insert_follow r d)))
  /\ (forall id u, keeps_identities d0 (snd (update_profile id u d)))
  /\ (forall id a, keeps_identities d0 (snd (delete_post id a d)))
  /\ (forall p u, keeps_identities d0 (snd (delete_like p u d)))
  /\ (forall id a, keeps_identities d0 (snd (delete_comment id a d)))
  /\ (forall a b, keeps_identities d0 (snd (delete_follow a b d))).
Proof.
  intros H. repeat match goal with |- _ /\ _ => split end.
  - intros r. unfold insert_auth_cookie. probe Hpk; simpl; [assumption|].
    destruct H as [Hc Hp]. split; [|exact Hp].
    intros k a Hk. specialize (Hc k a Hk).
    unfold getAtxpAccountFromCookie in *. simpl.
    destruct (find _ (auth_cookies d)) as [c|] eqn:Hf; [|discriminate].
    now rewrite (find_app_found _ _ _ _ Hf).
  - intros r. unfold insert_profile.
    probe Hpk; simpl; [assumption|]. probe Hacct; simpl; [assumption|].
    probe Hnm; simpl; [assumption|].
    destruct H as [Hc Hp]. split; [exact Hc|].
    intros id p Hid. destruct (Hp id p Hid) as (p' & Hp' & Hsame).
    exists p'. split; [|assumption]. unfold getProfileById in *. simpl.
    now apply find_app_found.
  - intros r. unfold insert_post. probes; simpl; assumption.
  - intros r. unfold insert_like. probes; simpl; assumption.
  - intros r. unfold insert_comment. probes; simpl; assumption.
  - intros r. unfold insert_follow. probes; simpl; assumption.
  - intros id u. unfold update_profile. simpl.
    destruct H as [Hc Hp]. split; [exact Hc|].
    intros k p Hk. destruct (Hp k p Hk) as (p' & Hp' & Hsame).
    unfold getProfileById in *. simpl.
    rewrite (find_updated _ _ _ _ _ Hp'). eexists. split; [reflexivity|].
    destruct Hsame as (H1 & H2 & H3 & H4).
    destruct (Profile.id p' =? id); repeat split; simpl; assumption.
  - intros id a. unfold delete_post. probes; simpl; assumption.
  - intros p u. unfold delete_like. simpl. exact H.
  - intros id a. unfold delete_comment. simpl. exact H.
  - intros a b. unfold delete_follow. simpl. exact H.
Qed.

Lemma seed_posts_from_identities (randomUUID : nat -> string) (now : Z)
      (demoAgentId : string) (rest : list (string * string)) (d0 : Db) :
  forall (i : nat) (db : Db),
    keeps_identities d0 db ->
    keeps_identities d0
      (snd (seed_posts_from randomUUID now demoAgentId i rest db)).
Proof.
  induction rest as [|[image_url caption] rest IH]; intros i db H; simpl.
  - assumption.
  - apply bind_keeps.
    + now apply statements_keep_identities.
    + intros _ db' H'. now apply IH.
Qed.

Lemma exec_keeps_identities (d0 : Db) (c : Call) (db : Db) :
  keeps_identities d0 db -> keeps_identities d0 (exec c db).
Proof.
  intros H. destruct c; cbn [exec].
  - unfold createAuthCookie. keeps; auto; now apply statements_keep_identities.
  - unfold createProfile. keeps; auto; now apply statements_keep_identities.
  - unfold updateProfile. destruct (0 <? _)%nat; keeps; auto; now apply statements_keep_identities.
  - unfold createPost. keeps; auto; now apply statements_keep_identities.
  - unfold deletePost. keeps; auto; now apply statements_keep_identities.
  - unfold likePost. keeps; auto; now apply statements_keep_identities.
  - unfold unlikePost. keeps; auto; now apply statements_keep_identities.
  - unfold addComment. keeps; auto; now apply statements_keep_identities.
  - unfold deleteComment. keeps; auto; now apply statements_keep_identities.
  - unfold followUser. destruct (followerId =? followingId); keeps; auto; now apply statements_keep_identities.
  - unfold unfollowUser. keeps; auto; now apply statements_keep_identities.
  - unfold seedDemoData. keeps; auto.
    destruct (0 <? a)%nat; keeps; auto.
    + now apply statements_keep_identities.
    + now apply seed_posts_from_identities.
Qed.

Lemma run_calls_keeps_identities (cs : list Call) :
  forall db, keeps_identities db (run_calls cs db).
Proof.
  unfold run_calls.
  assert (H : forall d0 db, keeps_identities d0 db ->
                            keeps_identities d0
                              (fold_left (fun d c => exec c d) cs db)).
  { induction cs as [|c cs IH]; simpl; intros d0 db Hk; [assumption|].
    apply IH. now apply exec_keeps_identities. }
  intros db. apply H, keeps_identities_refl.
Qed.

(** X2. No sequence of calls of the module removes a profile or changes
    its id, account, username or created_at: a profile that
    [getProfileById] finds is still found under the same id afterwards,
    with these four columns as they were. *)
Theorem profiles_are_kept (cs : list Call) (db : Db) (id : string)
        (p : Profile.t) :
  getProfileById db id = Some p ->
  exists p',
    getProfileById (run_calls cs db) id = Some p' /\ same_identity p p'.
Proof. apply run_calls_keeps_identities. Qed.

Lemma profiles_are_kept_witness :
  exists p',
    getProfileById
      (run_calls
         [ UpdateProfile Scenario.alice
                         (mkUpdates (Some "Alice L.") None (Some "/uploads/a.webp"));
           DeletePost Scenario.P' Scenario.alice;
           UnfollowUser Scenario.alice Scenario.bob ]
         Scenario.discussed)
      Scenario.alice = Some p'
    /\ same_identity
         (Profile.mk Scenario.alice "atxp:acct_alice" "alice" "Alice" "" None
                     "2026-03-01 09:00:00") p'.
Proof.
  apply (profiles_are_kept _ Scenario.discussed). reflexivity.
Defined.

(** X3. A cookie keeps its account: once [getAtxpAccountFromCookie]
    resolves a cookie value, it resolves it to the same account after any
    sequence of calls (the module has no statement that deletes, expires or
    rewrites a row of auth_cookies). *)
Theorem cookies_are_kept (cs : list Call) (db : Db) (k a : string) :
  getAtxpAccountFromCookie db k = Some a ->
  getAtxpAccountFromCookie (run_calls cs db) k = Some a.
Proof. apply run_calls_keeps_identities. Qed.

Lemma cookies_are_kept_witness :
  getAtxpAccountFromCookie
    (run_calls
       [ CreateAuthCookie
           "77aa0c9a7b3d4e2f8a6c1b0d9e7f5a3c2b4d6e8f0a1c3e5b7d9f1a2c4e6b8d0f"
           "2026-03-02 09:10:00" "atxp:acct_bob";
         UnlikePost Scenario.P Scenario.alice ]
       Session.issued)
    Session.cookie
  = Some "atxp:acct_alice".
Proof. apply (cookies_are_kept _ Session.issued). reflexivity. Defined.

(** ** Cookies *)

(** X4. When [createAuthCookie] returns, it returns the cookie value it
    drew; no row of auth_cookies had that value before, so it resolved to
    nothing; [getAtxpAccountFromCookie] now resolves it to the account it
    was issued for (to null when that account is the empty string), and
    resolves every other value as before. *)
Theorem createAuthCookie_round_trip (db db' : Db)
        (randomBytes t atxpAccount c : string) :
  createAuthCookie randomBytes t atxpAccount db = (Return c, db') ->
  c = randomBytes
  /\ ~ In c (map AuthCookie.cookie_value (auth_cookies db))
  /\ getAtxpAccountFromCookie db c = None
  /\ getAtxpAccountFromCookie db' c
     = (if atxpAccount =? "" then None else Some atxpAccount)
  /\ (forall k, k <> c ->
                getAtxpAccountFromCookie db' k = getAtxpAccountFromCookie db k).
Proof.
  unfold createAuthCookie, bind, ret, insert_auth_cookie. simpl.
  probe Hpk; [discriminate|]. intros Heq. inversion Heq; subst. clear Heq.
  unfold getAtxpAccountFromCookie. simpl.
  split; [reflexivity|]. split; [|repeat split].
  - rewrite has_false in Hpk. intros Hin. apply in_map_iff in Hin.
    destruct Hin as (x & Hx & Hin). specialize (Hpk x Hin). simpl in Hpk.
    rewrite Hx, String.eqb_refl in Hpk. discriminate.
  - destruct (find _ (auth_cookies db)) as [x|] eqn:Hf; [|reflexivity].
    exfalso. apply find_some in Hf. rewrite has_false in Hpk.
    destruct Hf as [Hin Hx]. rewrite (Hpk x Hin) in Hx. discriminate.
  - rewrite find_snoc_new; [reflexivity|assumption|apply String.eqb_refl].
  - intros k Hk. rewrite find_snoc_other; [reflexivity|].
    simpl. apply String.eqb_neq. congruence.
Qed.

Lemma createAuthCookie_round_trip_witness :
  Session.cookie = Session.cookie
  /\ ~ In Session.cookie
          (map AuthCookie.cookie_value (auth_cookies Scenario.discussed))
  /\ getAtxpAccountFromCookie Scenario.discussed Session.cookie = None
  /\ getAtxpAccountFromCookie Session.issued Session.cookie
     = (if "atxp:acct_alice" =? "" then None else Some "atxp:acct_alice")
  /\ (forall k, k <> Session.cookie ->
                getAtxpAccountFromCookie Session.issued k
                = getAtxpAccountFromCookie Scenario.discussed k).
Proof.
  apply (createAuthCookie_round_trip Scenario.discussed Session.issued
           Session.cookie "2026-03-02 09:00:00" "atxp:acct_alice").
  reflexivity.
Defined.

(** ** Taking a like or a follow back *)

Lemma has_filter_out {A} (f : A -> bool) (t : list A) :
  has f (filter (fun x => negb (f x)) t) = false.
Proof.
  apply has_false. intros x Hx. apply filter_In in Hx.
  destruct Hx as [_ Hx]. now apply negb_true_iff in Hx.
Qed.

Lemma has_filter_other {A} (f g : A -> bool) (t : list A) :
  (forall x, g x = true -> f x = false) ->
  has g (filter (fun x => negb (f x)) t) = has g t.
Proof.
  intros Hfg. unfold has. induction t as [|x t IH]; simpl; [reflexivity|].
  destruct (f x) eqn:Hf; simpl.
  - destruct (g x) eqn:Hg; [|assumption].
    rewrite (Hfg x Hg) in Hf. discriminate.
  - now rewrite IH.
Qed.

Lemma set_likes_same (db : Db) : set_likes db (likes db) = db.
Proof. now destruct db. Qed.

Lemma set_follows_same (db : Db) : set_follows db (follows db) = db.
Proof. now destruct db. Qed.

Lemma filter_snoc_out {A} (f : A -> bool) (t : list A) (r : A) :
  has f t = false -> f r = true ->
  filter (fun x => negb (f x)) (t ++ [r]) = t.
Proof.
  intros Ht Hr. rewrite filter_app, (filter_none _ _ Ht). simpl.
  rewrite Hr. simpl. apply app_nil_r.
Qed.

(** X5. [unlikePost(p, u)] never throws.  It returns true exactly when a
    like of [u] on [p] was stored; afterwards none is, the likes of every
    other (post, user) pair are as before and no other table has changed;
    a second call returns false and changes nothing. *)
Theorem unlikePost_removes_the_like (db : Db) (p u : string) :
  exists db',
    unlikePost p u db
    = (Return (has (fun l => (Like.post_id l =? p) && (Like.user_id l =? u))
                   (likes db)), db')
    /\ has (fun l => (Like.post_id l =? p) && (Like.user_id l =? u))
           (likes db') = false
    /\ (forall p' u',
           (p', u') <> (p, u) ->
           filter (fun l => (Like.post_id l =? p') && (Like.user_id l =? u'))
                  (likes db')
           = filter (fun l => (Like.post_id l =? p') && (Like.user_id l =? u'))
                    (likes db))
    /\ unlikePost p u db' = (Return false, db')
    /\ (profiles db', posts db', comments db', follows db', auth_cookies db')
       = (profiles db, posts db, comments db, follows db, auth_cookies db).
Proof.
  unfold unlikePost, bind, ret, delete_like. simpl.
  eexists. split; [now rewrite deleted_flag|]. simpl.
  split; [apply has_filter_out|]. split; [|split; [|reflexivity]].
  - intros p' u' Hne. induction (likes db) as [|l t IH]; simpl; [reflexivity|].
    destruct ((Like.post_id l =? p) && (Like.user_id l =? u)) eqn:Hl; simpl.
    + apply andb_true_iff in Hl. destruct Hl as [Hp Hu].
      apply String.eqb_eq in Hp, Hu. subst.
      destruct ((Like.post_id l =? p') && (Like.user_id l =? u')) eqn:Hl';
        [|assumption].
      apply andb_true_iff in Hl'. destruct Hl' as [Hp Hu].
      apply String.eqb_eq in Hp, Hu. subst. congruence.
    + destruct ((Like.post_id l =? p') && (Like.user_id l =? u'));
        [now rewrite IH|assumption].
  - rewrite deleted_flag, has_filter_out. f_equal.
    rewrite (filter_none _ _ (has_filter_out _ _)).
    now destruct db.
Qed.

(** X6. A like that [likePost] stored is undone by [unlikePost]: when
    [likePost(p, u)] returns true, [unlikePost(p, u)] right after it returns
    true and the store is again the one before the like. *)
Theorem likePost_then_unlikePost (db db1 : Db) (id t p u : string) :
  likePost id t p u db = (Return true, db1) ->
  unlikePost p u db1 = (Return true, db).
Proof.
  rewrite likePost_snd. unfold insert_like. simpl.
  probe Hpk; [discriminate|]. probe Huq; [discriminate|].
  probe Hfk; [discriminate|].
  intros Heq. inversion Heq; subst. clear Heq.
  unfold unlikePost, bind, ret, delete_like. simpl.
  rewrite deleted_flag, has_snoc. simpl. rewrite !String.eqb_refl.
  rewrite orb_true_r. f_equal.
  rewrite (filter_snoc_out (fun l => (Like.post_id l =? p)
                                     && (Like.user_id l =? u)));
    [now destruct db|assumption|].
  simpl. now rewrite !String.eqb_refl.
Qed.

Lemma likePost_then_unlikePost_witness :
  unlikePost Scenario.P Scenario.alice Scenario.liked
  = (Return true, Scenario.posted).
Proof.
  apply (likePost_then_unlikePost Scenario.posted Scenario.liked Scenario.L
                                  "2026-03-01 10:30:00").
  reflexivity.
Defined.

(** X7. [unfollowUser(a, b)] never throws.  It returns true exactly when
    [a] was following [b]; afterwards [isFollowing(a, b)] is false, every
    other pair (the reverse edge from [b] to [a] included) is as before
    and no other table has changed; a second call returns false and
    changes nothing. *)
Theorem unfollowUser_removes_the_edge (db : Db) (a b : string) :
  exists db',
    unfollowUser a b db = (Return (isFollowing db a b), db')
    /\ isFollowing db' a b = false
    /\ (forall x y, (x, y) <> (a, b) ->
                    isFollowing db' x y = isFollowing db x y)
    /\ unfollowUser a b db' = (Return false, db')
    /\ (profiles db', posts db', likes db', comments db', auth_cookies db')
       = (profiles db, posts db, likes db, comments db, auth_cookies db).
Proof.
  unfold unfollowUser, bind, ret, delete_follow. simpl.
  eexists. split; [now rewrite deleted_flag, isFollowing_has|].
  rewrite !isFollowing_has. simpl.
  split; [apply has_filter_out|]. split; [|split; [|reflexivity]].
  - intros x y Hne. rewrite !isFollowing_has. simpl.
    apply has_filter_other. intros f Hf.
    apply andb_true_iff in Hf. destruct Hf as [Hx Hy].
    apply String.eqb_eq in Hx, Hy. subst.
    destruct (Follow.follower_id f =? a) eqn:Ha; [|reflexivity].
    destruct (Follow.following_id f =? b) eqn:Hb; [|reflexivity].
    apply String.eqb_eq in Ha, Hb. subst. congruence.
  - rewrite deleted_flag, has_filter_out. f_equal.
    rewrite (filter_none _ _ (has_filter_out _ _)).
    now destruct db.
Qed.

(** X8. A follow that [followUser] stored is undone by [unfollowUser]:
    when [followUser(a, b)] returns true, [unfollowUser(a, b)] right after
    it returns true and the store is again the one before the follow. *)
Theorem followUser_then_unfollowUser (db db1 : Db) (id t a b : string) :
  followUser id t a b db = (Return true, db1) ->
  unfollowUser a b db1 = (Return true, db).
Proof.
  rewrite followUser_snd. destruct (a =? b); [discriminate|].
  unfold insert_follow. simpl.
  probe Hpk; [discriminate|]. probe Huq; [discriminate|].
  probe Hfk; [discriminate|].
  intros Heq. inversion Heq; subst. clear Heq.
  unfold unfollowUser, bind, ret, delete_follow. simpl.
  rewrite deleted_flag, has_snoc. simpl. rewrite !String.eqb_refl.
  rewrite orb_true_r. f_equal.
  rewrite (filter_snoc_out (fun f => (Follow.follower_id f =? a)
                                     && (Follow.following_id f =? b)));
    [now destruct db|assumption|].
  simpl. now rewrite !String.eqb_refl.
Qed.

Lemma followUser_then_unfollowUser_witness :
  unfollowUser Scenario.alice Scenario.bob Scenario.followed
  = (Return true, Scenario.liked).
Proof.
  apply (followUser_then_unfollowUser Scenario.liked Scenario.followed
                                      Scenario.F "2026-03-01 11:00:00").
  reflexivity.
Defined.

Lemma count_snoc {A} (f : A -> bool) (t : list A) (r : A) :
  count f (t ++ [r]) = count f t + (if f r then 1 else 0).
Proof.
  unfold count. rewrite filter_app, length_app. simpl. now destruct (f r).
Qed.

(** X9. The counters follow the edges.  When [followUser(a, b)] returns
    true, [getFollowerCount(b)] and [getFollowingCount(a)] are each one
    higher than before and the counts of every other user are unchanged;
    when it returns false the store, and so every count, is unchanged. *)
Theorem followUser_counts (db db' : Db) (id t a b : string) (r : bool) :
  followUser id t a b db = (Return r, db') ->
  (r = true ->
   getFollowerCount db' b = S (getFollowerCount db b)
   /\ getFollowingCount db' a = S (getFollowingCount db a)
   /\ (forall x, x <> b -> getFollowerCount db' x = getFollowerCount db x)
   /\ (forall x, x <> a -> getFollowingCount db' x = getFollowingCount db x))
  /\ (r = false -> db' = db).
Proof.
  rewrite followUser_snd. destruct (a =? b).
  { intros Heq. inversion Heq; subst. split; [discriminate|reflexivity]. }
  unfold insert_follow. simpl.
  probe Hpk; [intros Heq; inversion Heq; split; [discriminate|reflexivity]|].
  probe Huq; [intros Heq; inversion Heq; split; [discriminate|reflexivity]|].
  probe Hfk; [intros Heq; inversion Heq; split; [discriminate|reflexivity]|].
  intros Heq. inversion Heq; subst. clear Heq. split; [|discriminate].
  intros _. unfold getFollowerCount, getFollowingCount. simpl.
  rewrite !count_snoc. simpl. rewrite !String.eqb_refl.
  repeat split; try lia.
  - intros x Hx. rewrite count_snoc. simpl.
    apply String.eqb_neq in Hx. rewrite String.eqb_sym, Hx. lia.
  - intros x Hx. rewrite count_snoc. simpl.
    apply String.eqb_neq in Hx. rewrite String.eqb_sym, Hx. lia.
Qed.

Lemma followUser_counts_witness :
  (true = true ->
   getFollowerCount Scenario.followed Scenario.bob
   = S (getFollowerCount Scenario.liked Scenario.bob)
   /\ getFollowingCount Scenario.followed Scenario.alice
      = S (getFollowingCount Scenario.liked Scenario.alice)
   /\ (forall x, x <> Scenario.bob ->
                 getFollowerCount Scenario.followed x
                 = getFollowerCount Scenario.liked x)
   /\ (forall x, x <> Scenario.alice ->
                 getFollowingCount Scenario.followed x
                 = getFollowingCount Scenario.liked x))
  /\ (true = false -> Scenario.followed = Scenario.liked).
Proof.
  apply (followUser_counts Scenario.liked Scenario.followed Scenario.F
                           "2026-03-01 11:00:00" Scenario.alice Scenario.bob).
  reflexivity.
Defined.

(** ** The list queries over follows and likes *)

Section ProfilesJoin.
Variable C : Type.
Variable key : C -> string.

Lemma in_profiles_join (ps : list Profile.t) (cs : list C) (pr : Profile.t)
      (c : C) :
  In (pr, c) (profiles_join key ps cs) <->
  In pr ps /\ In c cs /\ Profile.id pr = key c.
Proof.
  unfold profiles_join. rewrite in_flat_map. split.
  - intros (c' & Hc & Hin). apply in_map_iff in Hin.
    destruct Hin as (pr' & Heq & Hpr). inversion Heq; subst.
    apply filter_In in Hpr. destruct Hpr as [Hpr Hk].
    apply String.eqb_eq in Hk. auto.
  - intros (Hpr & Hc & Hk). exists c. split; [assumption|].
    apply in_map_iff. exists pr. split; [reflexivity|].
    apply filter_In. split; [assumption|].
    apply String.eqb_eq. congruence.
Qed.

(** with a primary key on profiles and a foreign key on the child column,
    the join holds every child row once, in the order of the child table *)
Lemma join_children (ps : list Profile.t) (cs : list C) :
  NoDup (map Profile.id ps) ->
  Forall (fun c => In (key c) (map Profile.id ps)) cs ->
  map snd (profiles_join key ps cs) = cs.
Proof.
  intros Hnd Hfk. unfold profiles_join.
  induction cs as [|c cs IH]; simpl; [reflexivity|].
  inversion Hfk as [|? ? Hc Hcs]; subst.
  destruct (filter_profile_id ps (key c) Hnd Hc) as (pr & Hpr).
  rewrite map_app, Hpr. simpl. f_equal. now apply IH.
Qed.
End ProfilesJoin.

Lemma filter_perm {A} (f : A -> bool) (l l' : list A) :
  Permutation l l' -> Permutation (filter f l) (filter f l').
Proof.
  induction 1 as [|x l l' _ IH|x y l|l l' l'' _ IH1 _ IH2]; simpl.
  - constructor.
  - destruct (f x); [now constructor|assumption].
  - destruct (f x), (f y); try reflexivity. apply perm_swap.
  - now transitivity (filter f l').
Qed.

Lemma filter_on_snd {A B} (f : B -> bool) (rows : list (A * B)) :
  map snd (filter (fun row => f (snd row)) rows) = filter f (map snd rows).
Proof.
  induction rows as [|row rows IH]; simpl; [reflexivity|].
  destruct (f (snd row)); simpl; now rewrite IH.
Qed.

Lemma length_limit {A} (limit : Z) (rows : list A) :
  length (page limit 0 rows)
  = if (limit <? 0)%Z then length rows
    else Nat.min (Z.to_nat limit) (length rows).
Proof.
  unfold page. simpl. destruct (limit <? 0)%Z; [reflexivity|].
  apply length_firstn.
Qed.

(** the number of rows a list query over a join returns, for a limit that
    binds *)
Lemma length_joined_query {C} (key created : C -> string) (f : C -> bool)
      (ps : list Profile.t) (cs : list C) (limit : Z) :
  NoDup (map Profile.id ps) ->
  Forall (fun c => In (key c) (map Profile.id ps)) cs ->
  binds_as_integer limit = true ->
  exists l,
    select fst
      (limit_offset limit 0
         (order_by (desc (fun row => created (snd row)))
            (filter (fun row => f (snd row)) (profiles_join key ps cs))))
    = Return l
    /\ length l = if (limit <? 0)%Z then count f cs
                  else Nat.min (Z.to_nat limit) (count f cs).
Proof.
  intros Hnd Hfk Hl. rewrite (limit_offset_returns limit 0%Z _ Hl eq_refl).
  eexists. split; [reflexivity|]. rewrite length_map, length_limit.
  rewrite (Permutation_length (order_by_perm _ _ _)).
  rewrite <- (length_map snd), filter_on_snd.
  now rewrite (join_children _ key ps cs Hnd Hfk).
Qed.

Lemma in_joined_query {C} (key created : C -> string) (f : C -> bool)
      (ps : list Profile.t) (cs : list C) :
  exists l,
    select fst
      (limit_offset (-1) 0
         (order_by (desc (fun row => created (snd row)))
            (filter (fun row => f (snd row)) (profiles_join key ps cs))))
    = Return l
    /\ forall pr,
        In pr l <->
        In pr ps /\ exists c, In c cs /\ Profile.id pr = key c /\ f c = true.
Proof.
  rewrite limit_offset_all. eexists. split; [reflexivity|].
  intros pr. rewrite in_map_iff. split.
  - intros ([pr' c] & Heq & Hin). simpl in Heq. subst pr'.
    apply (Permutation_in _ (order_by_perm _ _ _)) in Hin.
    apply filter_In in Hin. destruct Hin as [Hin Hf].
    apply in_profiles_join in Hin. simpl in Hf.
    split; [tauto|]. exists c. tauto.
  - intros (Hpr & c & Hc & Hk & Hf). exists (pr, c). split; [reflexivity|].
    apply (Permutation_in _ (Permutation_sym (order_by_perm _ _ _))).
    apply filter_In. split; [|assumption].
    apply in_profiles_join. tauto.
Qed.

Lemma isFollowing_iff (db : Db) (a b : string) :
  isFollowing db a b = true <->
  exists f, In f (follows db) /\ Follow.follower_id f = a
            /\ Follow.following_id f = b.
Proof.
  rewrite isFollowing_has, has_true. split; intros (f & Hin & H); exists f.
  - apply andb_true_iff in H. rewrite !String.eqb_eq in H. tauto.
  - split; [tauto|]. apply andb_true_iff. rewrite !String.eqb_eq. tauto.
Qed.

(** Rows with the same created_at come out in the order of the likes and
    follows tables, not of the profiles table; later rows come first
    otherwise. *)
Example lists_on_a_tie :
  select Profile.username (getPostLikers Scenario.tied Scenario.P 50)
  = Return ["bob"; "alice"]
  /\ select Profile.username
            (getFollowers Scenario.tied
                          "6f1c2b9e-3a47-4d0a-9c55-0b8e7a1d2f03" 50)
     = Return ["bob"; "alice"]
  /\ select Profile.username (getPostLikers Scenario.discussed Scenario.P 50)
     = Return ["alice"].
Proof. repeat split; reflexivity. Qed.

(** X10. [getFollowers(u, -1)] and [getFollowing(u, -1)] (a negative
    limit is no limit for SQLite) return exactly the stored profiles that
    follow [u], and that [u] follows, as [isFollowing] tells it.  In a
    reachable store, for every limit that binds as an integer, the calls
    return, with as many entries as [getFollowerCount(u)] and
    [getFollowingCount(u)] say, cut to [limit] when the limit is not
    negative. *)
Theorem follower_lists (db : Db) (u : string) :
  (exists followers,
      getFollowers db u (-1) = Return followers
      /\ forall pr, In pr followers
                    <-> In pr (profiles db)
                        /\ isFollowing db (Profile.id pr) u = true)
  /\ (exists following,
         getFollowing db u (-1) = Return following
         /\ forall pr, In pr following
                       <-> In pr (profiles db)
                           /\ isFollowing db u (Profile.id pr) = true)
  /\ (reachable db ->
      forall limit,
        binds_as_integer limit = true ->
        (exists followers,
            getFollowers db u limit = Return followers
            /\ length followers
               = if (limit <? 0)%Z then getFollowerCount db u
                 else Nat.min (Z.to_nat limit) (getFollowerCount db u))
        /\ (exists following,
               getFollowing db u limit = Return following
               /\ length following
                  = if (limit <? 0)%Z then getFollowingCount db u
                    else Nat.min (Z.to_nat limit) (getFollowingCount db u))).
Proof.
  split; [|split].
  - unfold getFollowers.
    change (profiles_join_follows Follow.follower_id db)
      with (profiles_join Follow.follower_id (profiles db) (follows db)).
    destruct (in_joined_query Follow.follower_id Follow.created_at
                (fun f => Follow.following_id f =? u)
                (profiles db) (follows db)) as (l & Hrun & Hin).
    exists l. split; [exact Hrun|]. intros pr.
    rewrite Hin, isFollowing_iff. split.
    + intros (Hpr & f & Hf & Hk & Hu). apply String.eqb_eq in Hu.
      split; [assumption|]. exists f. repeat split;
        (assumption || congruence).
    + intros (Hpr & f & Hf & Hk & Hu). split; [assumption|]. exists f.
      repeat split; try assumption; try congruence.
      apply String.eqb_eq. congruence.
  - unfold getFollowing.
    change (profiles_join_follows Follow.following_id db)
      with (profiles_join Follow.following_id (profiles db) (follows db)).
    destruct (in_joined_query Follow.following_id Follow.created_at
                (fun f => Follow.follower_id f =? u)
                (profiles db) (follows db)) as (l & Hrun & Hin).
    exists l. split; [exact Hrun|]. intros pr.
    rewrite Hin, isFollowing_iff. split.
    + intros (Hpr & f & Hf & Hk & Hu). apply String.eqb_eq in Hu.
      split; [assumption|]. exists f. repeat split;
        (assumption || congruence).
    + intros (Hpr & f & Hf & Hk & Hu). split; [assumption|]. exists f.
      repeat split; try assumption; try congruence.
      apply String.eqb_eq. congruence.
  - intros Hreach limit Hl. pose proof (reachable_ok db Hreach) as Hok.
    pose proof (ok_follows_fk Hok) as Hfk. split.
    + apply (length_joined_query Follow.follower_id Follow.created_at
               (fun f => Follow.following_id f =? u)).
      * exact (ok_profile_pk Hok).
      * refine (Forall_impl _ _ Hfk). intros f Hf. exact (proj1 Hf).
      * exact Hl.
    + apply (length_joined_query Follow.following_id Follow.created_at
               (fun f => Follow.follower_id f =? u)).
      * exact (ok_profile_pk Hok).
      * refine (Forall_impl _ _ Hfk). intros f Hf. exact (proj2 Hf).
      * exact Hl.
Qed.

Lemma follower_lists_witness :
  (exists followers,
      getFollowers Scenario.followed Scenario.bob 50 = Return followers
      /\ length followers
         = Nat.min 50 (getFollowerCount Scenario.followed Scenario.bob))
  /\ (exists following,
         getFollowing Scenario.followed Scenario.alice (-1) = Return following
         /\ length following
            = getFollowingCount Scenario.followed Scenario.alice).
Proof.
  destruct (follower_lists Scenario.followed Scenario.bob)
    as (_ & _ & Hlen).
  destruct (follower_lists Scenario.followed Scenario.alice)
    as (_ & _ & Hlen').
  assert (Hreach : reachable Scenario.followed)
    by (repeat apply reachable_run_calls; apply reachable_getDb).
  split.
  - exact (proj1 (Hlen Hreach 50%Z eq_refl)).
  - exact (proj2 (Hlen' Hreach (-1)%Z eq_refl)).
Defined.

(** X11. [getPostLikers(p, -1)] (a negative limit is no limit for SQLite)
    returns exactly the stored profiles that hold a like on [p].  In a
    reachable store, for every limit that binds as an integer, the call
    returns, with as many entries as the like_count that [getPostById]
    reports for [p], cut to [limit] when the limit is not negative. *)
Theorem post_likers (db : Db) (p : string) :
  (exists likers,
      getPostLikers db p (-1) = Return likers
      /\ forall pr,
          In pr likers
          <-> In pr (profiles db)
              /\ has (fun l => (Like.post_id l =? p)
                               && (Like.user_id l =? Profile.id pr))
                     (likes db)
                 = true)
  /\ (reachable db ->
      forall limit viewerId view,
        binds_as_integer limit = true ->
        getPostById db p viewerId = Some view ->
        exists likers,
          getPostLikers db p limit = Return likers
          /\ length likers
             = if (limit <? 0)%Z then like_count view
               else Nat.min (Z.to_nat limit) (like_count view)).
Proof.
  split.
  - unfold getPostLikers.
    change (profiles_join_likes db)
      with (profiles_join Like.user_id (profiles db) (likes db)).
    destruct (in_joined_query Like.user_id Like.created_at
                (fun l => Like.post_id l =? p) (profiles db) (likes db))
      as (likers & Hrun & Hin).
    exists likers. split; [exact Hrun|]. intros pr.
    rewrite Hin, has_true. split.
    + intros (Hpr & l & Hl & Hk & Hp). split; [assumption|]. exists l.
      split; [assumption|]. rewrite Hp, <- Hk. now rewrite String.eqb_refl.
    + intros (Hpr & l & Hl & Hm). apply andb_true_iff in Hm.
      destruct Hm as [Hp Hu]. apply String.eqb_eq in Hu.
      split; [assumption|]. exists l. auto.
  - intros Hreach limit viewerId view Hl Hget.
    pose proof (reachable_ok db Hreach) as Hok.
    rewrite (like_count_reported _ _ _ _ Hget).
    apply (length_joined_query Like.user_id Like.created_at
             (fun l => Like.post_id l =? p)).
    + exact (ok_profile_pk Hok).
    + refine (Forall_impl _ _ (ok_likes_fk Hok)). intros l Hl'.
      exact (proj2 Hl').
    + exact Hl.
Qed.

Lemma post_likers_witness :
  exists likers,
    getPostLikers Scenario.liked Scenario.P 50 = Return likers
    /\ length likers
       = Nat.min 50
           (like_count
              (mkDetails
                 (Post.mk Scenario.P Scenario.bob "/uploads/p.webp" "hi"
                          "2026-03-01 10:00:00")
                 "bob" "Bob" None 1 0 None)).
Proof.
  destruct (post_likers Scenario.liked Scenario.P) as (_ & Hlen).
  apply (Hlen (reachable_run_calls _ _
                 (reachable_run_calls _ _
                    (reachable_run_calls _ _ reachable_getDb)))
              50%Z None).
  - reflexivity.
  - reflexivity.
Defined.

(** ** New posts and the feed *)

Lemma find_snoc_fresh_id (t : list Post.t) (r : Post.t) :
  has (fun p => Post.id p =? Post.id r) t = false ->
  find (fun p => Post.id p =? Post.id r) (t ++ [r]) = Some r.
Proof. intros H. apply find_snoc_new; [assumption|apply String.eqb_refl]. Qed.

Lemma getPostById_unique (db : Db) (row : Post.t * Profile.t)
      (viewerId : option string) :
  store_ok db -> In row (posts_join_profiles db) ->
  getPostById db (Post.id (fst row)) viewerId
  = Some (select_details db viewerId row).
Proof.
  intros Hok Hin. unfold getPostById, get.
  pose proof (ok_post_pk Hok) as Hpk. unfold post_ids in Hpk.
  rewrite <- (posts_join_posts db Hok), map_map in Hpk.
  induction (posts_join_profiles db) as [|y t IH]; [destruct Hin|].
  simpl in Hpk. inversion Hpk as [|? ? Hy Ht]; subst. simpl.
  destruct Hin as [->|Hin].
  - now rewrite String.eqb_refl.
  - destruct (Post.id (fst y) =? Post.id (fst row)) eqn:Hid; [|now apply IH].
    apply String.eqb_eq in Hid. exfalso. apply Hy. rewrite Hid.
    now apply (in_map (fun x => Post.id (fst x))).
Qed.

(** X12. Every entry of the feed is what [getPostById] returns for that
    post and viewer: in a reachable store, for each view [v] in the list
    that [getFeed(viewer, limit, offset)] or
    [getPostsByUser(user, viewer, limit, offset)] returns,
    [getPostById(v.id, viewer)] is [v], with the same counts and the same
    is_liked. *)
Theorem feed_entries_are_getPostById (db : Db) (viewerId : option string)
        (limit offset : Z) (views : list PostWithDetails)
        (v : PostWithDetails) :
  reachable db ->
  (getFeed db viewerId limit offset = Return views
   \/ exists userId,
       getPostsByUser db userId viewerId limit offset = Return views) ->
  In v views ->
  getPostById db (Post.id (post v)) viewerId = Some v.
Proof.
  intros Hreach Hrun Hin. pose proof (reachable_ok db Hreach) as Hok.
  assert (Hrow : exists row, In row (posts_join_profiles db)
                             /\ v = select_details db viewerId row).
  { destruct Hrun as [Hrun|(userId & Hrun)];
      [rewrite getFeed_rows in Hrun|rewrite getPostsByUser_rows in Hrun];
      apply limit_offset_inv in Hrun; subst views;
      apply in_page in Hin;
      apply in_map_iff in Hin; destruct Hin as (row & <- & Hrow);
      exists row; (split; [|reflexivity]);
      apply (Permutation_in _ (order_by_perm _ _ _)) in Hrow;
      [assumption|]. apply filter_In in Hrow. tauto. }
  destruct Hrow as (row & Hrow & ->).
  rewrite post_select_details. now apply getPostById_unique.
Qed.

Lemma feed_entries_are_getPostById_witness :
  let v := mkDetails
             (Post.mk Scenario.P' Scenario.alice "/uploads/q.webp" "two"
                      "2026-03-01 10:20:00")
             "alice" "Alice" None 0 0 (Some false) in
  getPostById Scenario.discussed Scenario.P' (Some Scenario.bob) = Some v.
Proof.
  intros v.
  eapply (feed_entries_are_getPostById Scenario.discussed (Some Scenario.bob)
                                       2 1 _ v).
  - repeat apply reachable_run_calls. apply reachable_getDb.
  - left. vm_compute. reflexivity.
  - left. reflexivity.
Defined.

Lemma count_none {A} (f : A -> bool) (t : list A) :
  (forall x, In x t -> f x = false) -> count f t = 0.
Proof. intros H. apply count_zero. now apply has_false. Qed.

Lemma exec_createPost_reachable (db : Db) (id t a img cap : string) :
  reachable db -> reachable (snd (createPost id t a img cap db)).
Proof. intros H. exact (reachable_exec (CreatePost id t a img cap) H). Qed.

(** X13. In a reachable store, when [createPost] returns it returns the
    post with the drawn id, the given author, image and caption; the id
    was not a post before; the author is a stored profile whose post count
    is now one higher; and [getPostById] finds the new post with the
    author's name columns, like_count 0, comment_count 0 and, for a
    viewer, is_liked false. *)
Theorem createPost_starts_empty (db db' : Db) (id t a img cap : string)
        (r : option Post.t) :
  reachable db ->
  createPost id t a img cap db = (Return r, db') ->
  r = Some (Post.mk id a img cap t)
  /\ getPostById db id None = None
  /\ getPostCount db' a = S (getPostCount db a)
  /\ exists pr,
      In pr (profiles db) /\ Profile.id pr = a
      /\ forall viewerId,
          getPostById db' id viewerId
          = Some (mkDetails (Post.mk id a img cap t)
                            (Profile.username pr) (Profile.display_name pr)
                            (Profile.avatar_url pr) 0 0
                            (if truthy viewerId then Some false else None)).
Proof.
  intros Hreach Hrun.
  pose proof (reachable_ok _ (exec_createPost_reachable db id t a img cap
                                Hreach)) as Hok'.
  pose proof (reachable_ok db Hreach) as Hok.
  revert Hrun Hok'. unfold createPost, bind, query, insert_post. simpl.
  probe Hpk; [discriminate|]. rewrite (ok_foreign_keys Hok). simpl.
  destruct (profile_exists db a) eqn:Ha; simpl; [|discriminate].
  intros Heq Hok'. inversion Heq; subst. clear Heq.
  pose proof (probe_id_false Post.id _ _ Hpk) as Hnew.
  split; [exact (find_snoc_fresh_id (posts db) (Post.mk id a img cap t) Hpk)|].
  split; [now apply getPostById_missing|].
  split; [unfold getPostCount; simpl; rewrite count_snoc; simpl;
          rewrite String.eqb_refl; lia|].
  apply has_true in Ha. destruct Ha as (pr & Hpr & Hid).
  apply String.eqb_eq in Hid. exists pr. split; [assumption|].
  split; [assumption|]. intros viewerId.
  set (db' := set_posts db (posts db ++ [Post.mk id a img cap t])) in *.
  assert (Hrow : In (Post.mk id a img cap t, pr) (posts_join_profiles db')).
  { apply in_posts_join. simpl. split; [|split; [assumption|congruence]].
    apply in_or_app. right. now left. }
  pose proof (getPostById_unique db' _ viewerId Hok' Hrow) as Hget.
  cbn [fst Post.id] in Hget. rewrite Hget.
  unfold select_details. simpl.
  assert (Hl : forall f : Like.t -> bool,
             count (fun l => (Like.post_id l =? id) && f l) (likes db) = 0).
  { intros f. apply count_none. intros l Hl.
    pose proof (ok_likes_fk Hok) as Hfk. rewrite Forall_forall in Hfk.
    destruct (Like.post_id l =? id) eqn:Hp; [|reflexivity].
    apply String.eqb_eq in Hp. exfalso. apply Hnew. rewrite <- Hp.
    apply Hfk. assumption. }
  assert (Hl0 : count (fun l => Like.post_id l =? id) (likes db) = 0).
  { rewrite <- (Hl (fun _ => true)). unfold count. f_equal.
    apply filter_ext. intros l. now rewrite andb_true_r. }
  assert (Hc0 : count (fun c => Comment.post_id c =? id) (comments db) = 0).
  { apply count_none. intros c Hc.
    pose proof (ok_comments_fk Hok) as Hfk. rewrite Forall_forall in Hfk.
    apply String.eqb_neq. intros Hp. apply Hnew. rewrite <- Hp.
    apply Hfk. assumption. }
  rewrite Hl0, Hc0. f_equal. f_equal.
  destruct viewerId as [v|]; [|reflexivity]. simpl.
  destruct (v =? ""); simpl; [reflexivity|]. now rewrite Hl.
Qed.

Lemma createPost_starts_empty_witness :
  Some (Post.mk Scenario.P Scenario.bob "/uploads/p.webp" "hi"
                "2026-03-01 10:00:00")
  = Some (Post.mk Scenario.P Scenario.bob "/uploads/p.webp" "hi"
                  "2026-03-01 10:00:00")
  /\ getPostById Scenario.registered Scenario.P None = None
  /\ getPostCount Scenario.posted Scenario.bob
     = S (getPostCount Scenario.registered Scenario.bob)
  /\ exists pr,
      In pr (profiles Scenario.registered) /\ Profile.id pr = Scenario.bob
      /\ forall viewerId,
          getPostById Scenario.posted Scenario.P viewerId
          = Some (mkDetails (Post.mk Scenario.P Scenario.bob "/uploads/p.webp"
                                     "hi" "2026-03-01 10:00:00")
                            (Profile.username pr) (Profile.display_name pr)
                            (Profile.avatar_url pr) 0 0
                            (if truthy viewerId then Some false else None)).
Proof.
  apply (createPost_starts_empty Scenario.registered Scenario.posted).
  - repeat apply reachable_run_calls. apply reachable_getDb.
  - reflexivity.
Defined.

(** ** Comments *)

Lemma in_comments_join (db : Db) (v : CommentView.t) :
  In v (comments_join_profiles db) <->
  exists c pr, In c (comments db) /\ In pr (profiles db)
               /\ Comment.author_id c = Profile.id pr
               /\ v = comment_view c pr.
Proof.
  unfold comments_join_profiles. rewrite in_flat_map. split.
  - intros (c & Hc & Hin). apply in_map_iff in Hin.
    destruct Hin as (pr & <- & Hpr). apply filter_In in Hpr.
    destruct Hpr as [Hpr Hid]. apply String.eqb_eq in Hid.
    exists c, pr. auto.
  - intros (c & pr & Hc & Hpr & Hid & ->). exists c. split; [assumption|].
    apply in_map_iff. exists pr. split; [reflexivity|].
    apply filter_In. split; [assumption|]. now apply String.eqb_eq.
Qed.

(** with the constraints, the join keeps every comment, once, in table
    order *)
Lemma comments_join_comments (db : Db) :
  store_ok db ->
  map CommentView.comment (comments_join_profiles db) = comments db.
Proof.
  intros H. unfold comments_join_profiles.
  pose proof (ok_comments_fk H) as Hfk. pose proof (ok_profile_pk H) as Hpk.
  induction (comments db) as [|c t IH]; simpl; [reflexivity|].
  inversion Hfk as [|? ? Hc Ht]; subst.
  destruct (filter_profile_id (profiles db) (Comment.author_id c) Hpk
                              (proj2 Hc)) as (pr & Hpr).
  rewrite map_app, Hpr. simpl. f_equal. now apply IH.
Qed.

Lemma filter_on_comment (f : Comment.t -> bool) (rows : list CommentView.t) :
  map CommentView.comment
      (filter (fun v => f (CommentView.comment v)) rows)
  = filter f (map CommentView.comment rows).
Proof.
  induction rows as [|row rows IH]; simpl; [reflexivity|].
  destruct (f (CommentView.comment row)); simpl; now rewrite IH.
Qed.

Section OrderByAsc.
Variable A : Type.
Variable key : A -> string.

Lemma insert_asc_sorted (x : A) (l : list A) :
  StronglySorted (fun a b => later (key b) (key a)) l ->
  ~ In (key x) (map key l) ->
  StronglySorted (fun a b => later (key b) (key a))
                 (insert_by (asc key) x l).
Proof.
  induction l as [|y l IH]; simpl; intros Hs Hx.
  - repeat constructor.
  - apply StronglySorted_inv in Hs. destruct Hs as [Hs Hy].
    unfold asc at 1. destruct (String.leb (key x) (key y)) eqn:Hle.
    + assert (Hxy : later (key y) (key x)).
      { apply leb_neq_later; [assumption|]. intros Heq. apply Hx. now left. }
      constructor; [now constructor|]. constructor; [assumption|].
      refine (Forall_impl _ _ Hy). intros z Hz.
      exact (later_trans _ _ _ Hz Hxy).
    + constructor.
      * apply IH; [assumption|]. intros Hin. apply Hx. now right.
      * rewrite Forall_forall in *. intros z Hz.
        apply (Permutation_in _ (insert_by_perm _ _ _ _)) in Hz.
        destruct Hz as [<-|Hz]; [|now apply Hy].
        now apply leb_false_later.
Qed.

(** With pairwise-distinct keys, ORDER BY key ASC is strictly
    ascending. *)
Lemma order_by_asc_sorted (l : list A) :
  NoDup (map key l) ->
  StronglySorted (fun a b => later (key b) (key a)) (order_by (asc key) l).
Proof.
  induction l as [|x l IH]; simpl; intros Hnd; [constructor|].
  inversion Hnd as [|? ? Hx Hl]; subst.
  apply insert_asc_sorted; [now apply IH|].
  intros Hin. apply Hx.
  refine (Permutation_in _ _ Hin). apply Permutation_map, order_by_perm.
Qed.
End OrderByAsc.

(** X14. Every entry of the list that
    [getPostComments(p, limit, offset)] returns is a stored comment on [p]
    together with the username, display name and avatar of its author's
    profile.  In a reachable store whose comments have pairwise-distinct
    created_at values, a call with a limit and an offset that bind as
    integers returns the entries in strictly ascending order (oldest
    first); and [getPostComments(p, -1, 0)] (a negative limit is no limit
    for SQLite) returns as many entries as the comment_count that
    [getPostById] reports for [p]. *)
Theorem getPostComments_lists_the_comments (db : Db) (p : string) :
  (forall limit offset views v,
      getPostComments db p limit offset = Return views ->
      In v views ->
      exists c pr,
        In c (comments db) /\ Comment.post_id c = p
        /\ In pr (profiles db) /\ Profile.id pr = Comment.author_id c
        /\ v = comment_view c pr)
  /\ (reachable db ->
      (NoDup (map Comment.created_at (comments db)) ->
       forall limit offset,
         binds_as_integer limit = true -> binds_as_integer offset = true ->
         exists views,
           getPostComments db p limit offset = Return views
           /\ StronglySorted older views)
      /\ (forall viewerId view,
             getPostById db p viewerId = Some view ->
             exists views,
               getPostComments db p (-1) 0 = Return views
               /\ length views = comment_count view)).
Proof.
  split.
  - intros limit offset views v Hrun Hin. unfold getPostComments in Hrun.
    apply limit_offset_inv in Hrun. subst views.
    apply in_page in Hin.
    apply (Permutation_in _ (order_by_perm _ _ _)) in Hin.
    apply filter_In in Hin. destruct Hin as [Hin Hp].
    apply in_comments_join in Hin.
    destruct Hin as (c & pr & Hc & Hpr & Hid & ->). simpl in Hp.
    apply String.eqb_eq in Hp. exists c, pr. auto.
  - intros Hreach. pose proof (reachable_ok db Hreach) as Hok. split.
    + intros Hnd limit offset Hl Ho. unfold getPostComments.
      rewrite (limit_offset_returns _ _ _ Hl Ho).
      eexists. split; [reflexivity|].
      apply sorted_page.
      apply (order_by_asc_sorted _
               (fun v => Comment.created_at (CommentView.comment v))).
      apply NoDup_map_filter.
      rewrite <- (comments_join_comments db Hok), map_map in Hnd.
      exact Hnd.
    + intros viewerId view Hget. unfold getPostComments.
      rewrite limit_offset_all. eexists. split; [reflexivity|].
      rewrite (Permutation_length (order_by_perm _ _ _)).
      rewrite <- (length_map CommentView.comment).
      rewrite (filter_on_comment (fun c => Comment.post_id c =? p)).
      rewrite (comments_join_comments db Hok).
      apply getPostById_inv in Hget.
      destruct Hget as (q & pr & _ & <- & ->). reflexivity.
Qed.

Lemma getPostComments_lists_the_comments_witness :
  getPostComments Scenario.discussed Scenario.P 50 0
  = Return
      [ comment_view
          (Comment.mk Scenario.C Scenario.P Scenario.alice "nice claws"
                      "2026-03-02 08:30:00")
          (Profile.mk Scenario.alice "atxp:acct_alice" "alice" "Alice" ""
                      None "2026-03-01 09:00:00") ]
  /\ (exists views,
         getPostComments Scenario.discussed Scenario.P 50 0 = Return views
         /\ StronglySorted older views)
  /\ (exists views,
         getPostComments Scenario.discussed Scenario.P (-1) 0 = Return views
         /\ length views
            = comment_count
                (mkDetails
                   (Post.mk Scenario.P Scenario.bob "/uploads/p.webp" "hi"
                            "2026-03-01 10:00:00")
                   "bob" "Bob" None 1 1 None)).
Proof.
  destruct (getPostComments_lists_the_comments Scenario.discussed Scenario.P)
    as (_ & Hrest).
  destruct (Hrest (reachable_run_calls _ _
                     (reachable_run_calls _ _
                        (reachable_run_calls _ _
                           (reachable_run_calls _ _ reachable_getDb)))))
    as (Hsorted & Hlen).
  split; [reflexivity|]. split.
  - apply Hsorted; [|reflexivity|reflexivity].
    repeat constructor; simpl; intuition discriminate.
  - apply (Hlen None). reflexivity.
Defined.

Lemma join_of_new_comment (db : Db) (c : Comment.t) :
  comments_join_profiles (set_comments db (comments db ++ [c]))
  = comments_join_profiles db
    ++ map (comment_view c)
           (filter (fun pr => Comment.author_id c =? Profile.id pr)
                   (profiles db)).
Proof.
  unfold comments_join_profiles. simpl. rewrite flat_map_app. simpl.
  now rewrite app_nil_r.
Qed.

Lemma filter_nothing {A} (f : A -> bool) (t : list A) :
  (forall x, In x t -> f x = false) -> filter f t = [].
Proof. intros H. apply filter_none_empty. now apply has_false. Qed.

(** X15. In a reachable store, when [addComment] returns, the post and
    the author are stored rows; the value returned is the new comment with
    the username, display name and avatar of the author's profile; the
    comment is the last row of the table, and the comment_count that
    [getPostById] reports for the post is one higher than before. *)
Theorem addComment_appends (db db' : Db) (id t p a content : string)
        (r : option CommentView.t) :
  reachable db ->
  addComment id t p a content db = (Return r, db') ->
  post_exists db p = true
  /\ comments db' = comments db ++ [Comment.mk id p a content t]
  /\ (exists pr,
         In pr (profiles db) /\ Profile.id pr = a
         /\ r = Some (comment_view (Comment.mk id p a content t) pr))
  /\ (forall viewerId view,
         getPostById db p viewerId = Some view ->
         exists view',
           getPostById db' p viewerId = Some view'
           /\ comment_count view' = S (comment_count view)
           /\ like_count view' = like_count view).
Proof.
  intros Hreach Hrun. pose proof (reachable_ok db Hreach) as Hok.
  pose proof (reachable_ok _ (reachable_exec (AddComment id t p a content)
                                             Hreach)) as Hok'.
  cbn [exec] in Hok'.
  revert Hrun Hok'. unfold addComment, bind, query, insert_comment. simpl.
  probe Hpk; [discriminate|]. rewrite (ok_foreign_keys Hok). simpl.
  destruct (post_exists db p) eqn:Hp; simpl; [|discriminate].
  destruct (profile_exists db a) eqn:Ha; simpl; [|discriminate].
  intros Heq Hok'. inversion Heq; subst. clear Heq.
  split; [reflexivity|]. split; [reflexivity|]. split.
  - apply profile_exists_iff in Ha.
    destruct (filter_profile_id (profiles db) a (ok_profile_pk Hok) Ha)
      as (pr & Hpr).
    assert (Hin : In pr (filter (fun q => a =? Profile.id q) (profiles db)))
      by (rewrite Hpr; now left).
    apply filter_In in Hin. destruct Hin as [Hin Hid].
    apply String.eqb_eq in Hid. exists pr. split; [assumption|].
    split; [congruence|].
    rewrite join_of_new_comment, filter_app. simpl. rewrite Hpr. simpl.
    rewrite String.eqb_refl. rewrite filter_nothing; [reflexivity|].
    intros v Hv. apply in_comments_join in Hv.
    destruct Hv as (c & q & Hc & _ & _ & ->). simpl.
    rewrite has_false in Hpk. exact (Hpk c Hc).
  - intros viewerId view Hget. apply getPostById_inv in Hget.
    destruct Hget as (q & pr & Hrow & <- & ->).
    set (db' := set_comments db (comments db
                                 ++ [Comment.mk id (Post.id q) a content t]))
      in *.
    exists (select_details db' viewerId (q, pr)). split.
    + apply (getPostById_unique db' (q, pr) viewerId Hok'). exact Hrow.
    + simpl. rewrite count_snoc. simpl. rewrite String.eqb_refl.
      split; [lia|reflexivity].
Qed.

Lemma addComment_appends_witness :
  let c := Comment.mk Scenario.C Scenario.P Scenario.alice "nice claws"
                      "2026-03-02 08:30:00" in
  let db' := exec (AddComment Scenario.C "2026-03-02 08:30:00" Scenario.P
                              Scenario.alice "nice claws")
                  Scenario.three_posts in
  post_exists Scenario.three_posts Scenario.P = true
  /\ comments db' = comments Scenario.three_posts ++ [c]
  /\ (exists pr,
         In pr (profiles Scenario.three_posts)
         /\ Profile.id pr = Scenario.alice
         /\ fst (addComment Scenario.C "2026-03-02 08:30:00" Scenario.P
                            Scenario.alice "nice claws" Scenario.three_posts)
            = Return (Some (comment_view c pr)))
  /\ (exists view',
         getPostById db' Scenario.P None = Some view'
         /\ comment_count view' = 1).
Proof.
  intros c db'.
  destruct (addComment_appends Scenario.three_posts db' Scenario.C
              "2026-03-02 08:30:00" Scenario.P Scenario.alice "nice claws"
              (Some (comment_view c
                       (Profile.mk Scenario.alice "atxp:acct_alice" "alice"
                                   "Alice" "" None "2026-03-01 09:00:00"))))
    as (Hp & Hc & (pr & Hpr & Hid & Hr) & Hcount).
  - repeat apply reachable_run_calls. apply reachable_getDb.
  - reflexivity.
  - split; [exact Hp|]. split; [exact Hc|]. split.
    + exists pr. split; [assumption|]. split; [assumption|].
      etransitivity; [|exact (f_equal (@Return _) Hr)]. reflexivity.
    + destruct (Hcount None
                  (mkDetails
                     (Post.mk Scenario.P Scenario.bob "/uploads/p.webp" "hi"
                              "2026-03-01 10:00:00")
                     "bob" "Bob" None 0 0 None) eq_refl)
        as (view' & Hget & Hn & _).
      exists view'. split; assumption.
Defined.

Lemma set_comments_same (db : Db) : set_comments db (comments db) = db.
Proof. now destruct db. Qed.

Lemma unique_row_by_id {A} (key : A -> string) (t : list A) (x y : A) :
  NoDup (map key t) -> In x t -> In y t -> key x = key y -> x = y.
Proof.
  induction t as [|z t IH]; simpl; intros Hnd Hx Hy Hk; [destruct Hx|].
  inversion Hnd as [|? ? Hz Ht]; subst.
  destruct Hx as [->|Hx], Hy as [->|Hy]; auto.
  - exfalso. apply Hz. rewrite Hk. now apply in_map.
  - exfalso. apply Hz. rewrite <- Hk. now apply in_map.
Qed.

(** X16. [deleteComment] never throws, and removes a comment only for its
    author.  In a reachable store, for a stored comment [c]:
    [deleteComment(c.id, x)] with [x] other than the author returns false
    and changes nothing; [deleteComment(c.id, c.author_id)] returns true,
    removes [c], keeps every other comment in place and touches no other
    table; and a call with an id that no comment has returns false and
    changes nothing. *)
Theorem deleteComment_only_by_author (db : Db) :
  reachable db ->
  (forall c, In c (comments db) ->
     (forall x, x <> Comment.author_id c ->
                deleteComment (Comment.id c) x db = (Return false, db))
     /\ exists db',
         deleteComment (Comment.id c) (Comment.author_id c) db
         = (Return true, db')
         /\ comments db'
            = filter (fun c' => negb (Comment.id c' =? Comment.id c))
                     (comments db)
         /\ ~ In c (comments db')
         /\ (forall c', In c' (comments db) -> c' <> c -> In c' (comments db'))
         /\ (profiles db', posts db', likes db', follows db', auth_cookies db')
            = (profiles db, posts db, likes db, follows db, auth_cookies db))
  /\ (forall id x,
         ~ In id (map Comment.id (comments db)) ->
         deleteComment id x db = (Return false, db)).
Proof.
  intros Hreach. pose proof (reachable_keys db Hreach) as Hkeys.
  pose proof (ok_comment_pk Hkeys) as Hpk.
  assert (Hno : forall id x,
             has (fun c => (Comment.id c =? id) && (Comment.author_id c =? x))
                 (comments db) = false ->
             deleteComment id x db = (Return false, db)).
  { intros id x Hnone. unfold deleteComment, bind, ret, delete_comment.
    rewrite deleted_flag, Hnone, (filter_none _ _ Hnone).
    now rewrite set_comments_same. }
  split.
  - intros c Hc. split.
    + intros x Hx. apply Hno. apply has_false. intros c' Hc'.
      destruct (Comment.id c' =? Comment.id c) eqn:Hid; [|reflexivity].
      apply String.eqb_eq in Hid.
      rewrite (unique_row_by_id Comment.id _ c' c Hpk Hc' Hc Hid). simpl.
      apply String.eqb_neq. congruence.
    + assert (Hsame : forall c', In c' (comments db) ->
                 (Comment.id c' =? Comment.id c)
                 && (Comment.author_id c' =? Comment.author_id c)
                 = (Comment.id c' =? Comment.id c)).
      { intros c' Hc'. destruct (Comment.id c' =? Comment.id c) eqn:Hid;
          [|reflexivity].
        apply String.eqb_eq in Hid.
        rewrite (unique_row_by_id Comment.id _ c' c Hpk Hc' Hc Hid).
        simpl. apply String.eqb_refl. }
      assert (Hfilter :
               filter (fun c' => negb ((Comment.id c' =? Comment.id c)
                                       && (Comment.author_id c'
                                           =? Comment.author_id c)))
                      (comments db)
               = filter (fun c' => negb (Comment.id c' =? Comment.id c))
                        (comments db)).
      { apply filter_ext_in. intros c' Hc'. now rewrite Hsame. }
      unfold deleteComment, bind, ret, delete_comment. eexists.
      split; [|split; [|split; [|split]]].
      * rewrite deleted_flag. f_equal. f_equal. apply has_true. exists c.
        split; [assumption|]. now rewrite !String.eqb_refl.
      * simpl. exact Hfilter.
      * simpl. rewrite Hfilter. intros Hin. apply filter_In in Hin.
        destruct Hin as [_ Hin]. now rewrite String.eqb_refl in Hin.
      * simpl. rewrite Hfilter. intros c' Hc' Hne. apply filter_In.
        split; [assumption|]. apply negb_true_iff, String.eqb_neq.
        intros Hid. apply Hne.
        exact (unique_row_by_id Comment.id _ c' c Hpk Hc' Hc Hid).
      * reflexivity.
  - intros id x Hid. apply Hno. apply has_false. intros c Hc.
    destruct (Comment.id c =? id) eqn:Hc'; [|reflexivity].
    apply String.eqb_eq in Hc'. exfalso. apply Hid. rewrite <- Hc'.
    now apply in_map.
Qed.

Lemma deleteComment_only_by_author_witness :
  let c := Comment.mk Scenario.C Scenario.P Scenario.alice "nice claws"
                      "2026-03-02 08:30:00" in
  deleteComment Scenario.C Scenario.bob Scenario.discussed
  = (Return false, Scenario.discussed)
  /\ exists db',
      deleteComment Scenario.C Scenario.alice Scenario.discussed
      = (Return true, db')
      /\ ~ In c (comments db').
Proof.
  intros c.
  assert (Hreach : reachable Scenario.discussed)
    by (repeat apply reachable_run_calls; apply reachable_getDb).
  destruct (deleteComment_only_by_author Scenario.discussed Hreach)
    as (Hgate & _).
  destruct (Hgate c (or_introl eq_refl))
    as (Hother & db' & Hrun & _ & Hgone & _).
  split.
  - apply (Hother Scenario.bob). discriminate.
  - exists db'. split; assumption.
Defined.

(** ** Reading a profile back *)







(** ** Seeding *)

(** X18. [seedDemoData] writes only into a store without profiles: with at
    least one profile stored it returns and changes nothing.  On a store
    without profiles it always stores the demo profile first, so a second
    run, with whatever identifiers and clock, changes nothing. *)
Theorem seedDemoData_runs_once (db : Db) (demoAgentId : string)
        (randomUUID : nat -> string) (now : Z) (t : string) :
  (profiles db <> [] ->
   seedDemoData demoAgentId randomUUID now t db = (Return tt, db))
  /\ (profiles db = [] ->
      let db1 := snd (seedDemoData demoAgentId randomUUID now t db) in
      map Profile.username (profiles db1) = ["instaclaw_bot"]
      /\ (forall p, In p (posts db1) ->
                    In p (posts db) \/ Post.author_id p = demoAgentId)
      /\ forall demoAgentId' randomUUID' now' t',
          seedDemoData demoAgentId' randomUUID' now' t' db1
          = (Return tt, db1)).
Proof.
  assert (Hskip : forall d a r n s,
             profiles d <> [] -> seedDemoData a r n s d = (Return tt, d)).
  { intros d a r n s Hne. unfold seedDemoData, bind, query.
    destruct (profiles d); [contradiction|reflexivity]. }
  split; [apply Hskip|].
  intros Hempty db1.
  assert (Hseed : forall d0 rest i d,
             (profiles d = profiles d0
              /\ forall p, In p (posts d) ->
                           In p (posts d0) \/ Post.author_id p = demoAgentId) ->
             profiles (snd (seed_posts_from randomUUID now demoAgentId i rest d))
             = profiles d0
             /\ forall p,
                 In p (posts (snd (seed_posts_from randomUUID now demoAgentId
                                                   i rest d))) ->
                 In p (posts d0) \/ Post.author_id p = demoAgentId).
  { intros d0. induction rest as [|[image_url caption] rest IH];
      intros i d Hd; simpl; [exact Hd|].
    apply (bind_keeps
             (fun d' => profiles d' = profiles d0
                        /\ forall p, In p (posts d') ->
                                     In p (posts d0)
                                     \/ Post.author_id p = demoAgentId)).
    - unfold insert_post. probes; simpl; try exact Hd.
      destruct Hd as [Hprof Hposts]. split; [exact Hprof|].
      intros p Hp. apply in_app_or in Hp.
      destruct Hp as [Hp|[<-|[]]]; [now apply Hposts|now right].
    - intros _ d' Hd'. now apply IH. }
  assert (Hrun : profiles db1
                 = [Profile.mk demoAgentId "atxp:demo-instaclaw-agent"
                      "instaclaw_bot" "Instaclaw Bot"
                      "The official Instaclaw demo bot. Sharing AI-generated art to get the party started! 🦞🤖"
                      None t]
                 /\ forall p, In p (posts db1) ->
                              In p (posts db) \/ Post.author_id p = demoAgentId).
  { pose proof (Hseed (set_profiles db
                         [Profile.mk demoAgentId "atxp:demo-instaclaw-agent"
                            "instaclaw_bot" "Instaclaw Bot"
                            "The official Instaclaw demo bot. Sharing AI-generated art to get the party started! 🦞🤖"
                            None t])
                      seedPosts 0 _ (conj eq_refl (fun p Hp => or_introl Hp)))
      as Hgo.
    unfold db1. clear db1. destruct db as [fk ck ps po li co fo].
    simpl in Hempty. subst ps.
    cbn -[seed_posts_from seedPosts] in Hgo |- *. exact Hgo. }
  destruct Hrun as (Hprof & Hposts).
  split; [now rewrite Hprof|]. split; [exact Hposts|].
  intros a' r' n' t'. apply Hskip. rewrite Hprof. discriminate.
Qed.

Lemma seedDemoData_runs_once_witness :
  seedDemoData Scenario.demo Scenario.seed_id Scenario.boot
               "2026-03-02 09:00:00" Scenario.discussed
  = (Return tt, Scenario.discussed)
  /\ map Profile.username (profiles Scenario.seeded) = ["instaclaw_bot"]
  /\ seedDemoData Scenario.alice Scenario.seed_id (Scenario.boot + 1000)
                  "2026-03-01 12:00:01" Scenario.seeded
     = (Return tt, Scenario.seeded).
Proof.
  split; [|split].
  - apply (seedDemoData_runs_once Scenario.discussed). discriminate.
  - apply (proj2 (seedDemoData_runs_once getDb Scenario.demo Scenario.seed_id
                    Scenario.boot (current_timestamp Scenario.boot))).
    reflexivity.
  - apply (proj2 (seedDemoData_runs_once getDb Scenario.demo Scenario.seed_id
                    Scenario.boot (current_timestamp Scenario.boot))).
    reflexivity.
Defined.

(** ** A user's posts *)

Lemma sorted_filter {A} (R : A -> A -> Prop) (f : A -> bool) (l : list A) :
  StronglySorted R l -> StronglySorted R (filter f l).
Proof.
  induction 1 as [|x l Hs IH Hx]; simpl; [constructor|].
  destruct (f x); [|assumption]. constructor; [assumption|].
  now apply Forall_filter.
Qed.

Lemma filter_of_map {A B} (f : A -> B) (g : B -> bool) (l : list A) :
  filter g (map f l) = map f (filter (fun x => g (f x)) l).
Proof.
  induction l as [|x l IH]; simpl; [reflexivity|].
  destruct (g (f x)); simpl; now rewrite IH.
Qed.

Lemma filter_on_fst {A B} (f : A -> bool) (rows : list (A * B)) :
  map fst (filter (fun row => f (fst row)) rows) = filter f (map fst rows).
Proof.
  induction rows as [|row rows IH]; simpl; [reflexivity|].
  destruct (f (fst row)); simpl; now rewrite IH.
Qed.

(** X20. A user's page is the feed restricted to that author.  In a
    reachable store, [getPostsByUser(u, v, -1, 0)] (a negative limit is no
    limit for SQLite) returns [getPostCount(u)] entries; and when the posts
    have pairwise-distinct created_at values,
    [getPostsByUser(u, v, limit, offset)], for a limit and an offset that
    bind as integers, returns the LIMIT/OFFSET cut of the entries of the
    whole feed [getFeed(v, -1, 0)] whose author is [u], in the same
    order. *)
Theorem getPostsByUser_is_the_filtered_feed (db : Db) (u : string)
        (viewerId : option string) :
  reachable db ->
  (exists theirs,
      getPostsByUser db u viewerId (-1) 0 = Return theirs
      /\ length theirs = getPostCount db u)
  /\ (NoDup (map Post.created_at (posts db)) ->
      exists feed,
        getFeed db viewerId (-1) 0 = Return feed
        /\ forall limit offset,
            binds_as_integer limit = true ->
            binds_as_integer offset = true ->
            getPostsByUser db u viewerId limit offset
            = Return (page limit offset
                        (filter (fun v => Post.author_id (post v) =? u)
                                feed))).
Proof.
  intros Hreach. pose proof (reachable_ok db Hreach) as Hok. split.
  - rewrite getPostsByUser_rows, limit_offset_all.
    eexists. split; [reflexivity|].
    unfold getPostCount, count. rewrite length_map.
    rewrite (Permutation_length (order_by_perm _ _ _)).
    rewrite <- (length_map fst),
      (filter_on_fst (fun p => Post.author_id p =? u)).
    now rewrite (posts_join_posts db Hok).
  - intros Hnd. rewrite getFeed_rows, limit_offset_all.
    eexists. split; [reflexivity|]. intros limit offset Hl Ho.
    rewrite getPostsByUser_rows, (limit_offset_returns _ _ _ Hl Ho).
    rewrite filter_of_map. f_equal. f_equal. f_equal.
    transitivity
      (filter (fun row => Post.author_id (fst row) =? u)
              (order_by (desc row_created_at) (posts_join_profiles db))).
    + pose proof (join_created_at_nodup db Hok Hnd) as Hjoin.
      apply (sorted_perm_unique _ row_created_at).
      * apply order_by_desc_sorted. now apply NoDup_map_filter.
      * apply sorted_filter. now apply order_by_desc_sorted.
      * rewrite order_by_perm. apply filter_perm.
        apply Permutation_sym, order_by_perm.
    + apply filter_ext. intros row. now rewrite post_select_details.
Qed.

Lemma getPostsByUser_is_the_filtered_feed_witness :
  (exists theirs,
      getPostsByUser Scenario.discussed Scenario.bob None (-1) 0
      = Return theirs
      /\ length theirs = getPostCount Scenario.discussed Scenario.bob)
  /\ exists feed,
      getFeed Scenario.discussed (Some Scenario.alice) (-1) 0 = Return feed
      /\ getPostsByUser Scenario.discussed Scenario.bob (Some Scenario.alice)
                        1 1
         = Return (page 1 1
                     (filter (fun v => Post.author_id (post v)
                                       =? Scenario.bob) feed)).
Proof.
  assert (Hreach : reachable Scenario.discussed)
    by (repeat apply reachable_run_calls; apply reachable_getDb).
  split.
  - apply (getPostsByUser_is_the_filtered_feed Scenario.discussed Scenario.bob
                                               None Hreach).
  - destruct (proj2 (getPostsByUser_is_the_filtered_feed
                       Scenario.discussed Scenario.bob (Some Scenario.alice)
                       Hreach))
      as (feed & Hfeed & Hcut).
    + repeat constructor; simpl; intuition discriminate.
    + exists feed. split; [exact Hfeed|].
      apply Hcut; reflexivity.
Defined.

(** ** The cookie header *)

Lemma split_plain (sep : ascii) (s : string) :
  contains sep s = false -> split sep s = [s].
Proof.
  induction s as [|c s IH]; simpl; intros H; [reflexivity|].
  apply orb_false_iff in H. destruct H as [Hc Hs].
  rewrite Hc, (IH Hs). reflexivity.
Qed.

Lemma split_first (sep : ascii) (a b : string) :
  contains sep a = false ->
  split sep (a ++ String sep b) = a :: split sep b.
Proof.
  induction a as [|c a IH]; simpl; intros H.
  - now rewrite Ascii.eqb_refl.
  - apply orb_false_iff in H. destruct H as [Hc Ha].
    rewrite Hc, (IH Ha). reflexivity.
Qed.

Lemma split_joined (pieces : list string) (r : string) :
  Forall (fun s => contains ";" s = false) (r :: pieces) ->
  split ";" (String.concat "; " (r :: pieces)) = r :: map (String " ") pieces.
Proof.
  revert r. induction pieces as [|q pieces IH]; intros r H.
  - simpl. apply split_plain. now inversion H.
  - inversion H as [|? ? Hr Hrest]; subst.
    change (String.concat "; " (r :: q :: pieces))
      with (r ++ String ";" (String " " (String.concat "; " (q :: pieces))))%string.
    rewrite (split_first _ _ _ Hr). f_equal.
    change (split ";" (String " " (String.concat "; " (q :: pieces))))
      with (match split ";" (String.concat "; " (q :: pieces)) with
            | piece :: rest => String " " piece :: rest
            | [] => [String " " EmptyString]
            end).
    now rewrite (IH q Hrest).
Qed.

Lemma trim_after_space (s : string) : trim (String " " s) = trim s.
Proof. reflexivity. Qed.

Lemma prefix_cons (a b : ascii) (s1 s2 : string) :
  String.prefix (String a s1) (String b s2)
  = if ascii_dec a b then String.prefix s1 s2 else false.
Proof. reflexivity. Qed.

Lemma prefix_of_cookie (name k v : string) :
  contains "=" name = false -> contains "=" k = false ->
  String.prefix (name ++ "=") (k ++ "=" ++ v) = (k =? name).
Proof.
  revert k. induction name as [|a name IH]; intros [|c k];
    cbn [contains append String.eqb]; intros Hn Hk.
  - now destruct v.
  - apply orb_false_iff in Hk. destruct Hk as [Hc _].
    rewrite prefix_cons.
    destruct (ascii_dec "=" c) as [<-|Hne]; [discriminate|reflexivity].
  - apply orb_false_iff in Hn. destruct Hn as [Ha _].
    rewrite prefix_cons.
    destruct (ascii_dec a "=") as [->|Hne]; [discriminate|reflexivity].
  - apply orb_false_iff in Hn, Hk. destruct Hn as [_ Hn], Hk as [_ Hk].
    rewrite prefix_cons.
    destruct (ascii_dec a c) as [->|Hne].
    + rewrite Ascii.eqb_refl. now apply IH.
    + destruct (Ascii.eqb c a) eqn:Hca; [|reflexivity].
      apply Ascii.eqb_eq in Hca. congruence.
Qed.

Lemma substring_from_value (name v : string) :
  substring_from (String.length name + 1) (name ++ "=" ++ v) = v.
Proof. induction name as [|a name IH]; simpl; [reflexivity|assumption]. Qed.

Lemma find_map {A B} (f : B -> bool) (g : A -> B) (l : list A) :
  find f (map g l) = option_map g (find (fun x => f (g x)) l).
Proof.
  induction l as [|x l IH]; simpl; [reflexivity|].
  now destruct (f (g x)).
Qed.

Lemma find_ext_in {A} (f g : A -> bool) (l : list A) :
  (forall x, In x l -> f x = g x) -> find f l = find g l.
Proof.
  induction l as [|x l IH]; simpl; intros H; [reflexivity|].
  rewrite (H x (or_introl eq_refl)). destruct (g x); [reflexivity|].
  apply IH. intros y Hy. apply H. now right.
Qed.

Lemma cookies_of_header (kvs : list (string * string)) :
  kvs <> [] -> Forall plain_cookie kvs ->
  map trim (split ";" (cookie_header kvs)) = map render_cookie kvs.
Proof.
  intros Hne Hplain. destruct kvs as [|kv kvs]; [contradiction|].
  unfold cookie_header. simpl map at 2.
  rewrite split_joined.
  - simpl. f_equal.
    + inversion Hplain as [|? ? Hkv _]; subst. apply Hkv.
    + inversion Hplain as [|? ? _ Hrest]; subst.
      rewrite map_map. clear Hne Hplain.
      induction Hrest as [|x l Hx _ IH]; simpl; [reflexivity|].
      rewrite trim_after_space, IH. f_equal. apply Hx.
  - rewrite <- (map_cons render_cookie). apply Forall_forall.
    intros s Hs. apply in_map_iff in Hs. destruct Hs as (x & <- & Hx).
    rewrite Forall_forall in Hplain. apply (Hplain x Hx).
Qed.

Lemma header_not_empty (kvs : list (string * string)) :
  kvs <> [] -> truthy (Some (cookie_header kvs)) = true.
Proof.
  destruct kvs as [|[k v] kvs]; [contradiction|]. intros _.
  unfold cookie_header, truthy. apply negb_true_iff, String.eqb_neq.
  simpl. unfold render_cookie at 1. simpl.
  destruct kvs; destruct k; simpl; discriminate.
Qed.

Lemma cookie_value_of_header (kvs : list (string * string))
      (cookieName : string) :
  kvs <> [] -> Forall plain_cookie kvs ->
  contains "=" cookieName = false ->
  getCookieValue (Some (cookie_header kvs)) cookieName
  = first_cookie cookieName kvs.
Proof.
  intros Hne Hplain Hname. unfold getCookieValue.
  rewrite (header_not_empty kvs Hne). simpl negb. cbv iota.
  rewrite (cookies_of_header kvs Hne Hplain), find_map.
  unfold first_cookie.
  rewrite (find_ext_in _ (fun kv => fst kv =? cookieName)).
  - destruct (find _ kvs) as [[k v]|] eqn:Hf; cbn [option_map snd];
      [|reflexivity].
    apply find_some in Hf. destruct Hf as [_ Hk]. cbn [fst] in Hk.
    apply String.eqb_eq in Hk. subst k. unfold render_cookie. cbn [fst snd].
    now rewrite substring_from_value.
  - intros [k v] Hin. unfold startsWith, render_cookie. simpl.
    apply prefix_of_cookie; [assumption|].
    rewrite Forall_forall in Hplain. apply (Hplain (k, v) Hin).
Qed.

(** X21. [getCookieValue] reads back what a browser sends.  For a header
    made of cookies [name=value] joined by a semicolon and a space, each
    without a semicolon, without an equals sign in its name and without
    white space at its ends, the function returns the value of the first
    cookie with the name asked for, and null when no cookie has that name.
    Without a Cookie header, or with an empty one, it returns null. *)
Theorem getCookieValue_reads_the_header (kvs : list (string * string))
        (cookieName : string) :
  getCookieValue None cookieName = None
  /\ getCookieValue (Some "") cookieName = None
  /\ (kvs <> [] -> Forall plain_cookie kvs ->
      contains "=" cookieName = false ->
      getCookieValue (Some (cookie_header kvs)) cookieName
      = first_cookie cookieName kvs).
Proof.
  split; [reflexivity|]. split; [reflexivity|].
  apply cookie_value_of_header.
Qed.

Lemma getCookieValue_reads_the_header_witness :
  getCookieValue
    (Some (cookie_header [ ("theme", "dark");
                           ("instaclaw_auth", Session.cookie);
                           ("instaclaw_auth", "stale") ]))
    "instaclaw_auth"
  = first_cookie "instaclaw_auth"
      [ ("theme", "dark"); ("instaclaw_auth", Session.cookie);
        ("instaclaw_auth", "stale") ].
Proof.
  apply (getCookieValue_reads_the_header
           [ ("theme", "dark"); ("instaclaw_auth", Session.cookie);
             ("instaclaw_auth", "stale") ] "instaclaw_auth").
  - discriminate.
  - repeat constructor.
  - reflexivity.
Defined.

(** ** Authentication *)

Lemma resolved_account_not_empty (db : Db) (k a : string) :
  getAtxpAccountFromCookie db k = Some a -> truthy (Some a) = true.
Proof.
  unfold getAtxpAccountFromCookie, truthy.
  destruct (find _ (auth_cookies db)) as [c|]; [|discriminate].
  destruct (AuthCookie.atxp_account c =? "") eqn:He; [discriminate|].
  intros Heq. inversion Heq; subst. now rewrite He.
Qed.

(** X22. The two middlewares agree.  [requireCookieAuth] lets a request
    through exactly when [optionalAuth] finds an account for it, and then
    both put the same account and profile on the request: the account is
    not empty and the profile, if any, is the one of that account.  When
    [requireCookieAuth] answers instead, the status is 401 and
    [optionalAuth] leaves the request without account and profile. *)
Theorem middlewares_agree (db : Db) (cookieHeader : option string) :
  match requireCookieAuth db cookieHeader with
  | Next auth =>
      optionalAuth db cookieHeader = Next auth
      /\ exists account,
          atxpAccount auth = Some account /\ account <> ""
          /\ profile auth = getProfileByAtxp db account
          /\ forall p, profile auth = Some p -> Profile.atxp_account p = account
  | Respond status _ _ =>
      status = 401 /\ optionalAuth db cookieHeader = Next (mkAuth None None)
  end.
Proof.
  unfold requireCookieAuth, optionalAuth.
  destruct (getCookieValue cookieHeader "instaclaw_auth") as [value|];
    [|split; reflexivity].
  destruct (truthy (Some value)); simpl negb; cbv iota; [|split; reflexivity].
  destruct (getAtxpAccountFromCookie db value) as [account|] eqn:Hacc;
    [|split; reflexivity].
  rewrite (resolved_account_not_empty db value account Hacc). simpl negb.
  cbv iota. split; [reflexivity|]. exists account. simpl.
  split; [reflexivity|]. split.
  - apply resolved_account_not_empty in Hacc. unfold truthy in Hacc.
    apply negb_true_iff, String.eqb_neq in Hacc. exact Hacc.
  - split; [reflexivity|]. intros p Hp. unfold getProfileByAtxp in Hp.
    apply find_some in Hp. destruct Hp as [_ Hp].
    now apply String.eqb_eq in Hp.
Qed.

Lemma authenticated_by_cookie (db : Db) (kvs : list (string * string))
      (c a : string) :
  kvs <> [] -> Forall plain_cookie kvs ->
  first_cookie "instaclaw_auth" kvs = Some c -> c <> "" ->
  getAtxpAccountFromCookie db c = Some a ->
  requireCookieAuth db (Some (cookie_header kvs))
  = Next (mkAuth (Some a) (getProfileByAtxp db a)).
Proof.
  intros Hne Hplain Hc Hnonempty Ha. unfold requireCookieAuth.
  rewrite (cookie_value_of_header kvs "instaclaw_auth" Hne Hplain eq_refl), Hc.
  assert (Ht : truthy (Some c) = true)
    by (apply negb_true_iff, String.eqb_neq; exact Hnonempty).
  rewrite Ht, Ha, (resolved_account_not_empty db c a Ha). reflexivity.
Qed.

Lemma createAuthCookie_resolves (db db' : Db)
      (randomBytes t atxpAccount c : string) :
  createAuthCookie randomBytes t atxpAccount db = (Return c, db') ->
  getAtxpAccountFromCookie db' c
  = (if atxpAccount =? "" then None else Some atxpAccount).
Proof.
  unfold createAuthCookie, bind, ret, insert_auth_cookie. simpl.
  probe Hpk; [discriminate|]. intros Heq. inversion Heq; subst. clear Heq.
  unfold getAtxpAccountFromCookie. simpl.
  rewrite find_snoc_new; [reflexivity|assumption|apply String.eqb_refl].
Qed.

(** X23. The cookie that [cookieTool] hands to an agent logs the browser
    in as that agent.  When the tool replies with a cookie for account
    [a], then after any further calls of the module a request whose Cookie
    header carries that value as its first [instaclaw_auth] cookie passes
    [requireCookieAuth] as account [a], with the profile registered for
    [a] at that moment. *)
Theorem cookieTool_cookie_authenticates (db db' : Db) (a bytes t c i : string)
        (cs : list Call) (kvs : list (string * string)) :
  cookieTool (Some a) bytes t db = (Replied (c, i), db') ->
  kvs <> [] -> Forall plain_cookie kvs ->
  first_cookie "instaclaw_auth" kvs = Some c -> c <> "" ->
  requireCookieAuth (run_calls cs db') (Some (cookie_header kvs))
  = Next (mkAuth (Some a) (getProfileByAtxp (run_calls cs db') a)).
Proof.
  unfold cookieTool, run_in_tool.
  destruct (truthy (Some a)) eqn:Ha; cbn [negb]; cbv beta;
    [|intros Heq; discriminate Heq].
  destruct (createAuthCookie bytes t a db) as [[c'|e] db1] eqn:Hrun;
    cbv iota beta; [|intros Heq; discriminate Heq].
  intros Heq Hne Hplain Hfirst Hc. inversion Heq; subst. clear Heq.
  apply (authenticated_by_cookie _ kvs c a Hne Hplain Hfirst Hc).
  apply run_calls_keeps_identities.
  rewrite (createAuthCookie_resolves _ _ _ _ _ _ Hrun). unfold truthy in Ha. apply negb_true_iff in Ha.
  now rewrite Ha.
Qed.

Lemma cookieTool_cookie_authenticates_witness :
  requireCookieAuth
    (run_calls [ UpdateProfile Scenario.alice
                               (mkUpdates None (Some "claws out") None) ]
               Session.issued)
    (Some (cookie_header [ ("theme", "dark");
                           ("instaclaw_auth", Session.cookie) ]))
  = Next (mkAuth (Some "atxp:acct_alice")
                 (getProfileByAtxp
                    (run_calls [ UpdateProfile Scenario.alice
                                   (mkUpdates None (Some "claws out") None) ]
                               Session.issued)
                    "atxp:acct_alice")).
Proof.
  apply (cookieTool_cookie_authenticates Scenario.discussed Session.issued
           "atxp:acct_alice" Session.cookie "2026-03-02 09:00:00"
           Session.cookie
           ("Set this as a cookie named " ++ double_quote ++ "instaclaw_auth"
            ++ double_quote ++ " on the Instaclaw domain.")%string).
  - reflexivity.
  - discriminate.
  - repeat constructor.
  - reflexivity.
  - discriminate.
Defined.

Lemma middlewares_agree_witness :
  optionalAuth Session.issued
               (Some (cookie_header [ ("instaclaw_auth", Session.cookie) ]))
  = Next (mkAuth (Some "atxp:acct_alice")
                 (Some (Profile.mk Scenario.alice "atxp:acct_alice" "alice"
                                   "Alice" "" None "2026-03-01 09:00:00")))
  /\ optionalAuth Session.issued (Some "instaclaw_auth=forged")
     = Next (mkAuth None None).
Proof.
  split.
  - exact (proj1 (middlewares_agree Session.issued
                    (Some (cookie_header
                             [ ("instaclaw_auth", Session.cookie) ])))).
  - exact (proj2 (middlewares_agree Session.issued
                    (Some "instaclaw_auth=forged"))).
Defined.

(** ** The tools *)

Lemma not_found_probe {A} (f : A -> bool) (t : list A) :
  find f t = None -> has f t = false.
Proof.
  intros Hf. destruct (has f t) eqn:Hh; [|reflexivity].
  apply find_has in Hh. contradiction.
Qed.

(** an account that has a profile keeps one, whatever is called later *)
Lemma account_stays_registered (cs : list Call) (db : Db) (id : string)
      (pr : Profile.t) :
  getProfileById db id = Some pr ->
  getProfileByAtxp (run_calls cs db) (Profile.atxp_account pr) <> None.
Proof.
  intros Hget.
  destruct (proj2 (run_calls_keeps_identities cs db) id pr Hget)
    as (pr' & Hget' & _ & Hacct & _).
  apply find_some in Hget'. destruct Hget' as [Hin _].
  unfold getProfileByAtxp. apply find_has. apply has_true.
  exists pr'. split; [assumption|]. now apply String.eqb_eq.
Qed.

(** X24. [registerTool] keeps the uniqueness errors of the profiles table
    away from the agent.  A failure of the database can only be a clash of
    the drawn id with a stored one; every refusal leaves the store
    unchanged; and when the tool replies, the account had no profile, the
    username was free, the reply is the new profile (bio empty, no avatar),
    which both [getProfileByAtxp] and [getProfileByUsername] now return,
    and from then on, after any further calls of the module, every
    registration for this account is refused with
    "You already have a profile". *)
Theorem registerTool_guards (db db' : Db) (acct : option string)
        (id t u d : string) (out : ToolOutcome (option Profile.t)) :
  registerTool acct id t u d db = (out, db') ->
  match out with
  | Crashed e =>
      e = SQLITE_CONSTRAINT_PRIMARYKEY /\ db' = db
      /\ getProfileById db id <> None
  | Failed message => db' = db
  | Replied r =>
      exists a,
        acct = Some a /\ a <> ""
        /\ getProfileByAtxp db a = None /\ getProfileByUsername db u = None
        /\ r = Some (Profile.mk id a u d "" None t)
        /\ getProfileByAtxp db' a = r /\ getProfileByUsername db' u = r
        /\ forall cs id' t' u' d',
            registerTool acct id' t' u' d' (run_calls cs db')
            = (Failed "You already have a profile", run_calls cs db')
  end.
Proof.
  unfold registerTool. destruct acct as [a|];
    [|intros Heq; inversion Heq; reflexivity].
  destruct (truthy (Some a)) eqn:Ha; cbn [negb];
    [|intros Heq; inversion Heq; reflexivity].
  destruct (getProfileByAtxp db a) as [existing|] eqn:Hacct;
    [intros Heq; inversion Heq; reflexivity|].
  destruct (getProfileByUsername db u) as [taken|] eqn:Hname;
    [intros Heq; inversion Heq; reflexivity|].
  pose proof (not_found_probe _ _ Hacct) as Hpa.
  pose proof (not_found_probe _ _ Hname) as Hpu.
  unfold run_in_tool, createProfile, bind, query, insert_profile. simpl.
  rewrite Hpa, Hpu.
  destruct (has (fun p => Profile.id p =? id) (profiles db)) eqn:Hpk.
  - intros Heq. inversion Heq; subst. repeat split.
    unfold getProfileById. now apply find_has.
  - intros Heq. inversion Heq; subst. clear Heq. exists a.
    split; [reflexivity|]. split.
    { unfold truthy in Ha. now apply negb_true_iff, String.eqb_neq in Ha. }
    split; [exact Hacct|]. split; [reflexivity|].
    assert (Hr : getProfileById
                   (set_profiles db
                      (profiles db ++ [Profile.mk id a u d "" None t])) id
                 = Some (Profile.mk id a u d "" None t)).
    { unfold getProfileById. simpl. apply find_snoc_new; [assumption|].
      apply String.eqb_refl. }
    rewrite Hr.
    assert (Hra : getProfileByAtxp
                    (set_profiles db
                       (profiles db ++ [Profile.mk id a u d "" None t])) a
                  = Some (Profile.mk id a u d "" None t)).
    { unfold getProfileByAtxp. simpl. apply find_snoc_new; [assumption|].
      apply String.eqb_refl. }
    split; [reflexivity|]. split; [exact Hra|]. split.
    + unfold getProfileByUsername. simpl. apply find_snoc_new; [assumption|].
      apply String.eqb_refl.
    + intros cs id' t' u' d'. unfold registerTool.
      pose proof (account_stays_registered cs _ _ _ Hr) as Hkept.
      cbn [Profile.atxp_account] in Hkept.
      destruct (getProfileByAtxp (run_calls cs _) a); [reflexivity|].
      now contradiction Hkept.
Qed.

Lemma registerTool_guards_witness :
  exists a,
    Some "atxp:acct_bob" = Some a /\ a <> ""
    /\ getProfileByAtxp (exec (CreateProfile Scenario.alice
                                  "2026-03-01 09:00:00" "atxp:acct_alice"
                                  "alice" "Alice") getDb) a = None
    /\ getProfileByUsername (exec (CreateProfile Scenario.alice
                                      "2026-03-01 09:00:00" "atxp:acct_alice"
                                      "alice" "Alice") getDb) "bob" = None
    /\ Some (Profile.mk Scenario.bob "atxp:acct_bob" "bob" "Bob" "" None
                        "2026-03-01 09:05:00")
       = Some (Profile.mk Scenario.bob a "bob" "Bob" "" None
                          "2026-03-01 09:05:00")
    /\ getProfileByAtxp Scenario.registered a
       = Some (Profile.mk Scenario.bob "atxp:acct_bob" "bob" "Bob" "" None
                          "2026-03-01 09:05:00")
    /\ getProfileByUsername Scenario.registered "bob"
       = Some (Profile.mk Scenario.bob "atxp:acct_bob" "bob" "Bob" "" None
                          "2026-03-01 09:05:00")
    /\ forall cs id' t' u' d',
        registerTool (Some "atxp:acct_bob") id' t' u' d'
                     (run_calls cs Scenario.registered)
        = (Failed "You already have a profile",
           run_calls cs Scenario.registered).
Proof.
  apply (registerTool_guards
           (exec (CreateProfile Scenario.alice "2026-03-01 09:00:00"
                                "atxp:acct_alice" "alice" "Alice") getDb)
           Scenario.registered (Some "atxp:acct_bob") Scenario.bob
           "2026-03-01 09:05:00" "bob" "Bob"
           (Replied (Some (Profile.mk Scenario.bob "atxp:acct_bob" "bob" "Bob"
                                      "" None "2026-03-01 09:05:00")))).
  reflexivity.
Defined.

Lemma registered_caller_run {A} (db : Db) (a : string) (pr : Profile.t)
      (handler : Profile.t -> Tool A) :
  a <> "" -> getProfileByAtxp db a = Some pr ->
  registered_caller (Some a) handler db = handler pr db.
Proof.
  intros Hne Hacct. unfold registered_caller, truthy.
  apply String.eqb_neq in Hne. rewrite Hne. cbn [negb]. now rewrite Hacct.
Qed.

Lemma stored_profile_exists (db : Db) (f : Profile.t -> bool)
      (pr : Profile.t) :
  find f (profiles db) = Some pr ->
  In pr (profiles db) /\ f pr = true
  /\ profile_exists db (Profile.id pr) = true.
Proof.
  intros Hf. apply find_some in Hf. destruct Hf as [Hin Hk].
  repeat split; try assumption.
  unfold profile_exists. apply has_true. exists pr.
  split; [assumption|apply String.eqb_refl].
Qed.

(** X25. [likeTool] called by a registered account in a reachable store,
    with a like id that is not yet in use: for a post that does not exist
    it fails with "Post not found" and leaves the store unchanged; for a
    post that exists it always replies, never raising a database error,
    with "Post liked" when the caller had not liked the post and with
    "You already liked this post" (store unchanged) when they had; either
    way the like is stored afterwards. *)
Theorem likeTool_replies (db : Db) (a id t p : string) (pr : Profile.t) :
  reachable db -> a <> "" -> getProfileByAtxp db a = Some pr ->
  has (fun l => Like.id l =? id) (likes db) = false ->
  if post_exists db p
  then exists db',
      likeTool (Some a) id t p db
      = (Replied
           (if has (fun l => (Like.post_id l =? p)
                             && (Like.user_id l =? Profile.id pr)) (likes db)
            then "You already liked this post" else "Post liked"), db')
      /\ has (fun l => (Like.post_id l =? p)
                       && (Like.user_id l =? Profile.id pr)) (likes db')
         = true
      /\ (has (fun l => (Like.post_id l =? p)
                        && (Like.user_id l =? Profile.id pr)) (likes db)
          = true -> db' = db)
  else likeTool (Some a) id t p db = (Failed "Post not found", db).
Proof.
  intros Hreach Hne Hacct Hfresh.
  pose proof (reachable_ok db Hreach) as Hok.
  unfold likeTool. rewrite (registered_caller_run db a pr _ Hne Hacct).
  destruct (post_exists db p) eqn:Hpost.
  - destruct (getPostById_found db p None Hok Hpost) as (view & Hview).
    rewrite Hview. unfold run_in_tool. rewrite likePost_snd.
    unfold insert_like. cbn [Like.id Like.post_id Like.user_id].
    rewrite Hfresh.
    destruct (has (fun l => (Like.post_id l =? p)
                            && (Like.user_id l =? Profile.id pr)) (likes db))
      eqn:Hliked.
    + exists db. auto.
    + apply stored_profile_exists in Hacct. destruct Hacct as (_ & _ & Hpr).
      rewrite Hpost, Hpr. cbn [andb negb]. rewrite andb_false_r.
      eexists. split; [reflexivity|]. split; [|discriminate].
      cbn [likes set_likes]. rewrite has_snoc.
      cbn [Like.post_id Like.user_id]. rewrite !String.eqb_refl.
      apply orb_true_r.
  - now rewrite (getPostById_missing db p None Hpost).
Qed.

Lemma likeTool_replies_witness :
  exists db',
    likeTool (Some "atxp:acct_alice") Scenario.L "2026-03-01 10:30:00"
             Scenario.P Scenario.posted
    = (Replied "Post liked", db')
    /\ has (fun l => (Like.post_id l =? Scenario.P)
                     && (Like.user_id l =? Scenario.alice)) (likes db')
       = true
    /\ (false = true -> db' = Scenario.posted).
Proof.
  apply (likeTool_replies
           Scenario.posted "atxp:acct_alice" Scenario.L "2026-03-01 10:30:00"
           Scenario.P
           (Profile.mk Scenario.alice "atxp:acct_alice" "alice" "Alice" ""
                       None "2026-03-01 09:00:00")).
  - repeat apply reachable_run_calls. apply reachable_getDb.
  - discriminate.
  - reflexivity.
  - reflexivity.
Defined.

(** X26. [followTool] called by a registered account in a reachable store,
    with a follow id that is not yet in use: an unknown username fails
    with "User not found", the caller's own username with "You cannot
    follow yourself", both leaving the store unchanged; for any other
    stored username the tool always replies, never raising a database
    error, with "Now following @username" when the edge was absent and
    "Already following @username" (store unchanged) when it was present;
    either way the caller follows the named profile afterwards and the
    reverse edge is as before. *)
Theorem followTool_replies (db : Db) (a id t u : string) (pr : Profile.t) :
  reachable db -> a <> "" -> getProfileByAtxp db a = Some pr ->
  has (fun f => Follow.id f =? id) (follows db) = false ->
  match getProfileByUsername db u with
  | None => followTool (Some a) id t u db = (Failed "User not found", db)
  | Some q =>
      if u =? Profile.username pr
      then followTool (Some a) id t u db
           = (Failed "You cannot follow yourself", db)
      else exists db',
          followTool (Some a) id t u db
          = (Replied
               ((if isFollowing db (Profile.id pr) (Profile.id q)
                 then "Already following @" else "Now following @") ++ u)%string,
             db')
          /\ isFollowing db' (Profile.id pr) (Profile.id q) = true
          /\ isFollowing db' (Profile.id q) (Profile.id pr)
             = isFollowing db (Profile.id q) (Profile.id pr)
          /\ (isFollowing db (Profile.id pr) (Profile.id q) = true ->
              db' = db)
  end.
Proof.
  intros Hreach Hne Hacct Hfresh.
  pose proof (reachable_ok db Hreach) as Hok.
  pose proof (reachable_keys db Hreach) as Hkeys.
  unfold followTool. rewrite (registered_caller_run db a pr _ Hne Hacct).
  destruct (getProfileByUsername db u) as [q|] eqn:Hname; [|reflexivity].
  apply stored_profile_exists in Hacct. destruct Hacct as (Hpr & _ & Hepr).
  apply stored_profile_exists in Hname. destruct Hname as (Hq & Hu & Heq).
  apply String.eqb_eq in Hu.
  destruct (u =? Profile.username pr) eqn:Hself.
  - apply String.eqb_eq in Hself.
    assert (q = pr) as ->.
    { apply (unique_row_by_id Profile.username (profiles db));
        [exact (ok_username_unique Hkeys)|assumption|assumption|congruence]. }
    now rewrite String.eqb_refl.
  - apply String.eqb_neq in Hself.
    assert (Hids : Profile.id q <> Profile.id pr).
    { intros Hid. apply Hself. rewrite <- Hu. f_equal.
      apply (unique_row_by_id Profile.id (profiles db));
        [exact (ok_profile_pk Hok)|assumption|assumption|assumption]. }
    pose proof Hids as Hqp. apply String.eqb_neq in Hqp. rewrite Hqp.
    assert (Hpq : (Profile.id pr =? Profile.id q) = false)
      by (apply String.eqb_neq; congruence).
    unfold run_in_tool. rewrite followUser_snd, Hpq.
    unfold insert_follow.
    cbn [Follow.id Follow.follower_id Follow.following_id].
    rewrite Hfresh, <- isFollowing_has.
    destruct (isFollowing db (Profile.id pr) (Profile.id q)) eqn:Hedge.
    + exists db. rewrite Hedge. auto.
    + rewrite Hepr, Heq. cbn [andb negb]. rewrite andb_false_r.
      eexists. split; [reflexivity|]. split; [|split; [|discriminate]].
      * rewrite isFollowing_has. cbn [follows set_follows]. rewrite has_snoc.
        cbn [Follow.follower_id Follow.following_id].
        rewrite !String.eqb_refl. apply orb_true_r.
      * rewrite !isFollowing_has. cbn [follows set_follows].
        rewrite has_snoc. cbn [Follow.follower_id Follow.following_id].
        rewrite Hpq. cbn [andb]. apply orb_false_r.
Qed.

Lemma followTool_replies_witness :
  (exists db',
      followTool (Some "atxp:acct_alice") Scenario.F "2026-03-01 11:00:00"
                 "bob" Scenario.liked
      = (Replied "Now following @bob", db')
      /\ isFollowing db' Scenario.alice Scenario.bob = true
      /\ isFollowing db' Scenario.bob Scenario.alice
         = isFollowing Scenario.liked Scenario.bob Scenario.alice
      /\ (false = true -> db' = Scenario.liked))
  /\ followTool (Some "atxp:acct_alice") Scenario.F "2026-03-01 11:00:00"
                "alice" Scenario.liked
     = (Failed "You cannot follow yourself", Scenario.liked).
Proof.
  split.
  - apply (followTool_replies
             Scenario.liked "atxp:acct_alice" Scenario.F "2026-03-01 11:00:00"
             "bob"
             (Profile.mk Scenario.alice "atxp:acct_alice" "alice" "Alice" ""
                         None "2026-03-01 09:00:00")).
    + repeat apply reachable_run_calls. apply reachable_getDb.
    + discriminate.
    + reflexivity.
    + reflexivity.
  - apply (followTool_replies
             Scenario.liked "atxp:acct_alice" Scenario.F "2026-03-01 11:00:00"
             "alice"
             (Profile.mk Scenario.alice "atxp:acct_alice" "alice" "Alice" ""
                         None "2026-03-01 09:00:00")).
    + repeat apply reachable_run_calls. apply reachable_getDb.
    + discriminate.
    + reflexivity.
    + reflexivity.
Defined.

Lemma unlikePost_removes_the_like_witness :
  exists db',
    unlikePost Scenario.P Scenario.alice Scenario.liked = (Return true, db')
    /\ has (fun l => (Like.post_id l =? Scenario.P)
                     && (Like.user_id l =? Scenario.alice)) (likes db')
       = false
    /\ unlikePost Scenario.P Scenario.alice db' = (Return false, db').
Proof.
  destruct (unlikePost_removes_the_like Scenario.liked Scenario.P
                                        Scenario.alice)
    as (db' & Hrun & Hgone & _ & Hagain & _).
  exists db'. repeat split; assumption.
Defined.

Lemma unfollowUser_removes_the_edge_witness :
  exists db',
    unfollowUser Scenario.alice Scenario.bob Scenario.followed
    = (Return true, db')
    /\ isFollowing db' Scenario.alice Scenario.bob = false
    /\ unfollowUser Scenario.alice Scenario.bob db' = (Return false, db').
Proof.
  destruct (unfollowUser_removes_the_edge Scenario.followed Scenario.alice
                                          Scenario.bob)
    as (db' & Hrun & Hgone & _ & Hagain & _).
  exists db'. repeat split; assumption.
Defined.

Lemma deletePost_keeps_children (db db' : Db) (id authorId : string)
      (deleted : bool) :
  deletePost id authorId db = (Return deleted, db') ->
  likes db' = likes db /\ comments db' = comments db.
Proof.
  rewrite deletePost_run. unfold delete_post.
  probe Hck; [discriminate|].
  intros Heq. inversion Heq; subst. split; reflexivity.
Qed.

(** X27. [deletePostTool] called by a registered account in a reachable
    store has three outcomes.  When no stored post has this id and the
    caller as author it fails with "Post not found or you are not the
    author" and changes nothing.  When the caller's post still has a like
    or a comment the DELETE is refused by the foreign keys of those tables
    and the tool lets SQLITE_CONSTRAINT_FOREIGNKEY through, changing
    nothing.  Otherwise it replies "Post deleted", the post is gone for
    [getPostById] and the likes and comments tables are as before. *)
Theorem deletePostTool_outcomes (db : Db) (a p : string) (pr : Profile.t) :
  reachable db -> a <> "" -> getProfileByAtxp db a = Some pr ->
  if negb (has (delete_post_where p (Profile.id pr)) (posts db))
  then deletePostTool (Some a) p db
       = (Failed "Post not found or you are not the author", db)
  else if has (fun l => Like.post_id l =? p) (likes db)
          || has (fun c => Comment.post_id c =? p) (comments db)
  then deletePostTool (Some a) p db
       = (Crashed SQLITE_CONSTRAINT_FOREIGNKEY, db)
  else exists db',
      deletePostTool (Some a) p db = (Replied "Post deleted", db')
      /\ (forall viewerId, getPostById db' p viewerId = None)
      /\ likes db' = likes db /\ comments db' = comments db.
Proof.
  intros Hreach Hne Hacct.
  pose proof (reachable_ok db Hreach) as Hok.
  unfold deletePostTool. rewrite (registered_caller_run db a pr _ Hne Hacct).
  destruct (has (delete_post_where p (Profile.id pr)) (posts db)) eqn:Hown;
    cbn [negb].
  - pose proof Hown as Hrow. apply has_true in Hrow.
    destruct Hrow as (p0 & Hp0 & Hw). pose proof Hw as Hkeys.
    unfold delete_post_where in Hkeys. apply andb_true_iff in Hkeys.
    destruct Hkeys as [Hid Hauthor]. apply String.eqb_eq in Hid, Hauthor.
    assert (Href : post_referenced db p0
                   = has (fun l => Like.post_id l =? p) (likes db)
                     || has (fun c => Comment.post_id c =? p) (comments db))
      by (unfold post_referenced; now rewrite Hid).
    destruct (has (fun l => Like.post_id l =? p) (likes db)
              || has (fun c => Comment.post_id c =? p) (comments db))
      eqn:Hrefd.
    + rewrite deletePost_run. unfold delete_post.
      rewrite (ok_foreign_keys Hok).
      assert (Hdoomed : has (post_referenced db)
                            (filter (delete_post_where p (Profile.id pr))
                                    (posts db)) = true).
      { apply has_true. exists p0. split; [|assumption].
        apply filter_In. auto. }
      now rewrite Hdoomed.
    + destruct (deletePost_owner_unreferenced db p0 Hok Hp0 Href)
        as (db' & Hrun & Hgone).
      rewrite Hid, Hauthor in Hrun. rewrite Hid in Hgone. rewrite Hrun.
      cbn [negb]. exists db'. split; [reflexivity|]. split; [assumption|].
      destruct (deletePost_keeps_children _ _ _ _ _ Hrun) as [Hl Hc].
      auto.
  - now rewrite (deletePost_no_match db p (Profile.id pr) Hown).
Qed.

Lemma deletePostTool_outcomes_witness :
  deletePostTool (Some "atxp:acct_bob") Scenario.P Scenario.liked
  = (Crashed SQLITE_CONSTRAINT_FOREIGNKEY, Scenario.liked)
  /\ deletePostTool (Some "atxp:acct_alice") Scenario.P Scenario.liked
     = (Failed "Post not found or you are not the author", Scenario.liked)
  /\ exists db',
      deletePostTool (Some "atxp:acct_bob") Scenario.P Scenario.posted
      = (Replied "Post deleted", db')
      /\ (forall viewerId, getPostById db' Scenario.P viewerId = None)
      /\ likes db' = likes Scenario.posted
      /\ comments db' = comments Scenario.posted.
Proof.
  split; [|split].
  - apply (deletePostTool_outcomes
             Scenario.liked "atxp:acct_bob" Scenario.P
             (Profile.mk Scenario.bob "atxp:acct_bob" "bob" "Bob" "" None
                         "2026-03-01 09:05:00")).
    + repeat apply reachable_run_calls. apply reachable_getDb.
    + discriminate.
    + reflexivity.
  - apply (deletePostTool_outcomes
             Scenario.liked "atxp:acct_alice" Scenario.P
             (Profile.mk Scenario.alice "atxp:acct_alice" "alice" "Alice" ""
                         None "2026-03-01 09:00:00")).
    + repeat apply reachable_run_calls. apply reachable_getDb.
    + discriminate.
    + reflexivity.
  - apply (deletePostTool_outcomes
             Scenario.posted "atxp:acct_bob" Scenario.P
             (Profile.mk Scenario.bob "atxp:acct_bob" "bob" "Bob" "" None
                         "2026-03-01 09:05:00")).
    + repeat apply reachable_run_calls. apply reachable_getDb.
    + discriminate.
    + reflexivity.
Defined.

(** X28. The two undoing tools never raise a database error for a
    registered account.  [unlikeTool] replies "Like removed" exactly when
    the caller had a like on the post and "You had not liked this post"
    (store unchanged) otherwise; afterwards the caller has no like on the
    post.  [unfollowTool] fails with "User not found" (store unchanged)
    for an unknown username; for a stored one it replies
    "Unfollowed @username" exactly when the caller was following that
    profile and "You were not following @username" (store unchanged)
    otherwise; afterwards the caller does not follow it. *)
Theorem undoing_tools_reply (db : Db) (a p u : string) (pr : Profile.t) :
  a <> "" -> getProfileByAtxp db a = Some pr ->
  (exists db',
      unlikeTool (Some a) p db
      = (Replied
           (if has (fun l => (Like.post_id l =? p)
                             && (Like.user_id l =? Profile.id pr)) (likes db)
            then "Like removed" else "You had not liked this post"), db')
      /\ has (fun l => (Like.post_id l =? p)
                       && (Like.user_id l =? Profile.id pr)) (likes db')
         = false
      /\ (has (fun l => (Like.post_id l =? p)
                        && (Like.user_id l =? Profile.id pr)) (likes db)
          = false -> db' = db))
  /\ match getProfileByUsername db u with
     | None => unfollowTool (Some a) u db = (Failed "User not found", db)
     | Some q =>
         exists db',
           unfollowTool (Some a) u db
           = (Replied
                ((if isFollowing db (Profile.id pr) (Profile.id q)
                  then "Unfollowed @" else "You were not following @")
                 ++ u)%string, db')
           /\ isFollowing db' (Profile.id pr) (Profile.id q) = false
           /\ (isFollowing db (Profile.id pr) (Profile.id q) = false ->
               db' = db)
     end.
Proof.
  intros Hne Hacct. split.
  - unfold unlikeTool. rewrite (registered_caller_run db a pr _ Hne Hacct).
    unfold run_in_tool, unlikePost, bind, ret, delete_like. simpl.
    rewrite deleted_flag. eexists. split; [reflexivity|]. split.
    + simpl. apply has_filter_out.
    + intros Hnone. rewrite (filter_none _ _ Hnone). apply set_likes_same.
  - unfold unfollowTool. rewrite (registered_caller_run db a pr _ Hne Hacct).
    destruct (getProfileByUsername db u) as [q|]; [|reflexivity].
    unfold run_in_tool, unfollowUser, bind, ret, delete_follow. simpl.
    rewrite deleted_flag, <- isFollowing_has.
    eexists. split;
      [destruct (isFollowing db (Profile.id pr) (Profile.id q)); reflexivity|].
    split.
    + rewrite isFollowing_has. simpl. apply has_filter_out.
    + intros Hnone. rewrite isFollowing_has in Hnone.
      rewrite (filter_none _ _ Hnone). apply set_follows_same.
Qed.

Lemma undoing_tools_reply_witness :
  (exists db',
      unlikeTool (Some "atxp:acct_alice") Scenario.P Scenario.followed
      = (Replied "Like removed", db')
      /\ has (fun l => (Like.post_id l =? Scenario.P)
                       && (Like.user_id l =? Scenario.alice)) (likes db')
         = false
      /\ (true = false -> db' = Scenario.followed))
  /\ exists db',
      unfollowTool (Some "atxp:acct_alice") "bob" Scenario.followed
      = (Replied "Unfollowed @bob", db')
      /\ isFollowing db' Scenario.alice Scenario.bob = false
      /\ (true = false -> db' = Scenario.followed).
Proof.
  apply (undoing_tools_reply
           Scenario.followed "atxp:acct_alice" Scenario.P "bob"
           (Profile.mk Scenario.alice "atxp:acct_alice" "alice" "Alice" ""
                       None "2026-03-01 09:00:00")).
  - discriminate.
  - reflexivity.
Defined.
